(** * Span lifecycle bookkeeping of the agent telemetry hooks

    A shallow embedding of the three hook modules of the repository
    ([telemetryHooksSingleTrace.ts], [telemetryHooksByAgent.ts] and the
    individual-traces module) together with the entry points that drive
    them, and the properties of the span lifecycle proved about them.

    The tracing backend and the agent engine are external collaborators.
    The backend is modelled as a recorder: every call the hooks make on a
    span is kept in that span's record.  The engine is modelled by the
    list of hook invocations it performs. *)

From stdpp Require Import base list strings gmap.
From Stdlib Require Import ZArith Lia.

Open Scope string_scope.
Open Scope list_scope.
Set Warnings "-abstract-large-number".

(** ** JavaScript values seen by the hooks *)

(** The hook input is typed [any].  The fields the hooks read as strings
    are either absent ([undefined]) or a string. *)
Inductive JsVal : Type :=
| JUndefined
| JString (s : string).

#[global] Instance JsVal_eq_dec : EqDecision JsVal.
Proof. solve_decision. Defined.

(** [ToBoolean]: [undefined] and the empty string are falsy. *)
Definition truthy (v : JsVal) : bool :=
  match v with
  | JUndefined => false
  | JString s => negb (bool_decide (s = ""))
  end.

(** [a || b] *)
Definition js_or (a b : JsVal) : JsVal := if truthy a then a else b.

(** [`${v}`] *)
Definition template (v : JsVal) : string :=
  match v with
  | JUndefined => "undefined"
  | JString s => s
  end.

(** What [JSON.stringify(v)] does on an arbitrary value: it returns a
    string, returns [undefined] (for [undefined], functions and symbols),
    or throws (circular structures, BigInt). *)
Inductive StringifyResult : Type :=
| StringifyString (s : string)
| StringifyUndefined
| StringifyThrows.

(** An arbitrary payload ([tool_input], [tool_response]) is observed by the
    hooks only through [JSON.stringify] and [String]; [String(v)] throws
    when the value cannot be converted to a primitive. *)
Record JsAny : Type := mkJsAny {
  JSON_stringify : StringifyResult;
  String_of : option string
}.

(** ** Completions: a state monad with exceptions *)

Inductive Exception : Type :=
| TypeError
| Error (msg : string).

Inductive Completion (A : Type) : Type :=
| Normal (a : A)
| Abrupt (e : Exception).
Arguments Normal {A} a.
Arguments Abrupt {A} e.

Definition Eff (S A : Type) : Type := S -> Completion A * S.

#[global] Instance eff_ret {S} : MRet (Eff S) :=
  fun A (a : A) st => (Normal a, st).

#[global] Instance eff_bind {S} : MBind (Eff S) :=
  fun A B (k : A -> Eff S B) (m : Eff S A) st =>
    match m st with
    | (Normal a, st') => k a st'
    | (Abrupt e, st') => (Abrupt e, st')
    end.

Definition throw {S A} (e : Exception) : Eff S A := fun st => (Abrupt e, st).

(** [try { m } catch { h }] *)
Definition try_catch {S A} (m : Eff S A) (h : Eff S A) : Eff S A :=
  fun st =>
    match m st with
    | (Normal a, st') => (Normal a, st')
    | (Abrupt _, st') => h st'
    end.

Definition gets {S A} (f : S -> A) : Eff S A := fun st => (Normal (f st), st).
Definition modify {S} (f : S -> S) : Eff S unit := fun st => (Normal tt, f st).

(** [if (c) { m }] *)
Definition when {S} (c : bool) (m : Eff S unit) : Eff S unit :=
  if c then m else mret tt.

(** [for (const e of entries) { body(e) }] over the entries present when the
    loop starts.  The loops of the hooks only delete the entry they are
    visiting, so the live iteration of a JavaScript [Map] visits exactly
    these entries, in this order. *)
Fixpoint for_of {S E} (entries : list E) (body : E -> Eff S unit) : Eff S unit :=
  match entries with
  | [] => mret tt
  | e :: rest => body e ;; for_of rest body
  end.

(** ** Attribute truncation *)

Definition MAX_ATTRIBUTE_LENGTH : nat := 10000.

(** [truncateAttribute] on a string. *)
Definition truncate (value : string) (maxLength : nat) : string :=
  if (String.length value <=? maxLength)%nat then value
  else String.substring 0 maxLength value +:+ "... [truncated]".

(** [truncateAttribute(value, maxLength)] as the hooks call it: the
    argument comes from an [any]-typed input, and reading [.length] of
    [undefined] throws. *)
Definition truncateAttribute {S} (value : JsVal) (maxLength : nat) : Eff S string :=
  match value with
  | JUndefined => throw TypeError
  | JString s => mret (truncate s maxLength)
  end.

(** [value.length] on an [any]-typed value. *)
Definition js_length {S} (value : JsVal) : Eff S nat :=
  match value with
  | JUndefined => throw TypeError
  | JString s => mret (String.length s)
  end.

(** [JSON.stringify(v)] and [String(v)] as computations. *)
Definition js_JSON_stringify {S} (v : JsAny) : Eff S JsVal :=
  match JSON_stringify v with
  | StringifyString s => mret (JString s)
  | StringifyUndefined => mret JUndefined
  | StringifyThrows => throw TypeError
  end.

Definition js_String {S} (v : JsAny) : Eff S JsVal :=
  match String_of v with
  | Some s => mret (JString s)
  | None => throw TypeError
  end.

(** ** The tracing backend *)

(** A span handle is the index of the span's record in the tracer. *)
Abbreviation Span := nat (only parsing).

(** [context.active()] outside any [context.with] is the root context;
    [trace.setSpan(context.active(), span)] is the context of [span]. *)
Inductive Context : Type :=
| ROOT_CONTEXT
| SpanContext (span : Span).

Inductive SpanStatusCode : Type := UNSET | OK | ERROR.

Record SpanStatus : Type := mkStatus {
  code : SpanStatusCode;
  message : option string
}.

Inductive AttributeValue : Type :=
| AttrJs (v : JsVal)
| AttrNumber (n : Z)
| AttrBoolean (b : bool).

(** Everything the hooks did to one span.  [span_ended] holds, most recent
    first, the status the span had at each call of [end()]. *)
Record SpanRecord : Type := mkSpan {
  span_name : string;
  span_parent : Context;
  span_attributes : gmap string AttributeValue;
  span_status : SpanStatus;
  span_exceptions : list string;
  span_ended : list SpanStatus
}.

Abbreviation Tracer := (list SpanRecord) (only parsing).

Definition new_span (name : string) (ctx : Context) : SpanRecord :=
  mkSpan name ctx ∅ (mkStatus UNSET None) [] [].

Definition rec_setAttribute (k : string) (v : AttributeValue) (r : SpanRecord) : SpanRecord :=
  mkSpan (span_name r) (span_parent r) (<[k:=v]> (span_attributes r))
         (span_status r) (span_exceptions r) (span_ended r).

Definition rec_setAttributes (kvs : list (string * AttributeValue)) (r : SpanRecord) : SpanRecord :=
  foldl (fun r kv => rec_setAttribute kv.1 kv.2 r) r kvs.

Definition rec_setStatus (s : SpanStatus) (r : SpanRecord) : SpanRecord :=
  mkSpan (span_name r) (span_parent r) (span_attributes r)
         s (span_exceptions r) (span_ended r).

Definition rec_recordException (msg : string) (r : SpanRecord) : SpanRecord :=
  mkSpan (span_name r) (span_parent r) (span_attributes r)
         (span_status r) (span_exceptions r ++ [msg]) (span_ended r).

Definition rec_end (r : SpanRecord) : SpanRecord :=
  mkSpan (span_name r) (span_parent r) (span_attributes r)
         (span_status r) (span_exceptions r) (span_status r :: span_ended r).

(** The hook modules keep different state; each of them holds the tracer. *)
Class HasTracer (S : Type) : Type := {
  tracer : S -> Tracer;
  with_tracer : Tracer -> S -> S
}.

Section TracerOps.
Context {S : Type} `{HasTracer S}.

(** [tracer.startSpan(name, undefined, ctx)] *)
Definition startSpan (name : string) (ctx : Context) : Eff S Span :=
  fun st =>
    (Normal (List.length (tracer st)),
     with_tracer (tracer st ++ [new_span name ctx]) st).

Definition on_span (f : SpanRecord -> SpanRecord) (sp : Span) : Eff S unit :=
  modify (fun st => with_tracer (alter f sp (tracer st)) st).

Definition setAttribute (sp : Span) (k : string) (v : AttributeValue) : Eff S unit :=
  on_span (rec_setAttribute k v) sp.

Definition setAttributes (sp : Span) (kvs : list (string * AttributeValue)) : Eff S unit :=
  on_span (rec_setAttributes kvs) sp.

Definition setStatus (sp : Span) (s : SpanStatus) : Eff S unit :=
  on_span (rec_setStatus s) sp.

Definition recordException (sp : Span) (msg : string) : Eff S unit :=
  on_span (rec_recordException msg) sp.

Definition span_end (sp : Span) : Eff S unit :=
  on_span rec_end sp.
End TracerOps.

(** ** JavaScript [Map] *)

(** The entries in insertion order; keys are compared with [===]. *)
Abbreviation JsMap V := (list (JsVal * V)) (only parsing).

Section JsMap.
Context {V : Type}.

Fixpoint Map_get (k : JsVal) (m : JsMap V) : option V :=
  match m with
  | [] => None
  | (k', v) :: m' => if decide (k = k') then Some v else Map_get k m'
  end.

(** [set] on a key that is present replaces the value and keeps the
    entry's position; a new key goes last. *)
Fixpoint Map_set (k : JsVal) (v : V) (m : JsMap V) : JsMap V :=
  match m with
  | [] => [(k, v)]
  | (k', v') :: m' =>
      if decide (k = k') then (k, v) :: m' else (k', v') :: Map_set k v m'
  end.

Definition Map_delete (k : JsVal) (m : JsMap V) : JsMap V :=
  filter (fun kv => kv.1 ≠ k) m.

Definition Map_values (m : JsMap V) : list V := m.*2.
End JsMap.

(** ** Hook inputs *)

Record HookInput : Type := mkInput {
  hook_event_name : JsVal;
  session_id : JsVal;
  prompt : JsVal;
  cwd : JsVal;
  permission_mode : JsVal;
  agent_id : JsVal;
  agent_type : JsVal;
  agent_transcript_path : JsVal;
  tool_name : JsVal;
  tool_use_id : JsVal;
  tool_input : JsAny;
  tool_response : JsAny;
  error : JsVal
}.

(** The keys of the [hooks] object. *)
Inductive HookEvent : Type :=
| UserPromptSubmit | SubagentStart | SubagentStop
| PreToolUse | PostToolUse | PostToolUseFailure
| SessionStart | SessionEnd | Notification
| PermissionRequest | PreCompact | Stop | Setup.

#[global] Instance HookEvent_eq_dec : EqDecision HookEvent.
Proof. solve_decision. Defined.

(** The value every hook returns: [{ continue: true }]. *)
Record HookJSONOutput : Type := mkOutput { continue : bool }.

(** One invocation by the engine: the callback registered under [ev_hook]
    is called with [ev_input] at wall-clock time [ev_time]. *)
Record Event : Type := mkEvent {
  ev_hook : HookEvent;
  ev_input : HookInput;
  ev_time : Z
}.

(** [input.hook_event_name === name] *)
Definition is_event (input : HookInput) (name : string) : bool :=
  bool_decide (hook_event_name input = JString name).

(** ** Vocabulary of the events *)

(** [input.error || "Unknown error"] *)
Definition error_text (input : HookInput) : string :=
  template (js_or (error input) (JString "Unknown error")).

(** The invocation opens agent [id]: it is an agent-start event that
    carries this id. *)
Definition starts_agent (id : JsVal) (e : Event) : Prop :=
  ev_hook e = SubagentStart ∧ is_event (ev_input e) "SubagentStart" = true ∧
  agent_id (ev_input e) = id.

(** The invocation opens tool use [id]. *)
Definition starts_tool (id : JsVal) (e : Event) : Prop :=
  ev_hook e = PreToolUse ∧ is_event (ev_input e) "PreToolUse" = true ∧
  tool_use_id (ev_input e) = id.

(** What the hooks make of a tool input: [JSON.stringify] of it, or
    [String] of it when [JSON.stringify] throws.  [None] when there is no
    string: [JSON.stringify] returned [undefined], or both threw. *)
Definition serialized (v : JsAny) : option string :=
  match JSON_stringify v with
  | StringifyString s => Some s
  | StringifyUndefined => None
  | StringifyThrows => String_of v
  end.

(** The payloads on which no hook throws: a prompt event carries a string
    prompt; a tool input serializes to a string, or makes [JSON.stringify]
    throw and can be coerced by [String]; a tool response serializes to a
    string or can be coerced. *)
Definition well_formed (ev : HookEvent) (input : HookInput) : bool :=
  match ev with
  | UserPromptSubmit =>
      match prompt input with JString _ => true | JUndefined => false end
  | PreToolUse =>
      match serialized (tool_input input) with Some _ => true | None => false end
  | PostToolUse =>
      match JSON_stringify (tool_response input), String_of (tool_response input) with
      | StringifyString _, _ => true
      | _, Some _ => true
      | _, _ => false
      end
  | _ => true
  end.

(** The truncation rule in the words of the specification: a string longer
    than 10,000 characters is cut to its first 10,000 characters followed by
    the marker; any other string is kept. *)
Definition capped_at (limit : nat) (s : string) : string :=
  if (limit <? String.length s)%nat
  then String.substring 0 limit s +:+ "... [truncated]"
  else s.

(** ** Payloads as the engine sends them *)

(** The callbacks take [input: any] and check nothing.  [HookInput] reads
    [input.error] as the SDK declares it, a string or [undefined];
    [ErrorValue] is what the field can hold at run time.  [ErrorOther text]
    is a truthy value that is not a string and has no [length]: a number, a
    boolean, an object such as [{ message: "..." }]; [text] is [String] of
    it.  A falsy value of any type is replaced by ["Unknown error"] as
    [undefined] is, and stands as [ErrorJs JUndefined]. *)
Inductive ErrorValue : Type :=
| ErrorJs (v : JsVal)
| ErrorOther (text : string).

(** A payload: the fields of [HookInput], with [payload_error] for
    [input.error] (the [error] of [payload_input] is not read). *)
Record Payload : Type := mkPayload {
  payload_input : HookInput;
  payload_error : ErrorValue
}.

(** A payload whose [error] is what the SDK declares. *)
Definition typed (input : HookInput) : Payload :=
  mkPayload input (ErrorJs (error input)).

(** [input.error || "Unknown error"] *)
Definition error_or_unknown (e : ErrorValue) : ErrorValue :=
  match e with
  | ErrorJs v => ErrorJs (js_or v (JString "Unknown error"))
  | ErrorOther text => ErrorOther text
  end.

(** [truncateAttribute(value, maxLength)] on such a value.  On a value that
    is not a string, [value.length] is [undefined], the comparison with
    [maxLength] is false, and [value.substring] is not a function. *)
Definition truncateAttribute_any {S} (value : ErrorValue) (maxLength : nat)
    : Eff S string :=
  match value with
  | ErrorJs v => truncateAttribute v maxLength
  | ErrorOther _ => throw TypeError
  end.

(** The message of [new Error(value)]: [String] of the value. *)
Definition error_message (value : ErrorValue) : string :=
  match value with
  | ErrorJs v => template v
  | ErrorOther text => text
  end.


(** ** Sample events *)

(** The value [undefined] as a payload. *)
Definition js_undefined : JsAny := mkJsAny StringifyUndefined (Some "undefined").

(** A value that serializes to [json]. *)
Definition js_json (json : string) : JsAny := mkJsAny (StringifyString json) (Some json).


Definition agent_start (id type : string) : Event :=
  mkEvent SubagentStart
    (mkInput (JString "SubagentStart") (JString "S1") JUndefined JUndefined JUndefined
             (JString id) (JString type) JUndefined JUndefined JUndefined
             js_undefined js_undefined JUndefined) 0.

Definition agent_stop (id : string) : Event :=
  mkEvent SubagentStop
    (mkInput (JString "SubagentStop") (JString "S1") JUndefined JUndefined JUndefined
             (JString id) JUndefined (JString "/tmp/transcript") JUndefined JUndefined
             js_undefined js_undefined JUndefined) 0.

(** A tool start; [agent] is the explicit agent id, if any. *)
Definition tool_pre (id name : string) (agent : JsVal) (payload : JsAny) : Event :=
  mkEvent PreToolUse
    (mkInput (JString "PreToolUse") (JString "S1") JUndefined JUndefined JUndefined
             agent JUndefined JUndefined (JString name) (JString id)
             payload js_undefined JUndefined) 0.

Definition tool_post (id : string) (response : JsAny) : Event :=
  mkEvent PostToolUse
    (mkInput (JString "PostToolUse") (JString "S1") JUndefined JUndefined JUndefined
             JUndefined JUndefined JUndefined JUndefined (JString id)
             js_undefined response JUndefined) 0.

Definition tool_fail (id : string) (message : JsVal) : Event :=
  mkEvent PostToolUseFailure
    (mkInput (JString "PostToolUseFailure") (JString "S1") JUndefined JUndefined
             JUndefined JUndefined JUndefined JUndefined JUndefined (JString id)
             js_undefined js_undefined message) 0.


(** A string of [n] letters. *)
Definition letters (n : nat) : string :=
  String.string_of_list_ascii (repeat (Ascii.ascii_of_nat 97) n).

(** ** Vocabulary of the span lifecycle *)

(** The span exists and [end()] was never called on it. *)
Definition is_open (t : Tracer) (h : Span) : Prop :=
  ∃ r, t !! h = Some r ∧ span_ended r = [].

(** The span was closed exactly once, and had status [s] when it was. *)
Definition closed_with (t : Tracer) (h : Span) (s : SpanStatus) : Prop :=
  ∃ r, t !! h = Some r ∧ span_ended r = [s].

(** How many times [end()] was called on the span. *)
Definition end_count (t : Tracer) (h : Span) : nat :=
  match t !! h with
  | Some r => List.length (span_ended r)
  | None => 0
  end.

(** Distinct spans, all of them open. *)
Definition live (t : Tracer) (hs : list Span) : Prop :=
  NoDup hs ∧ Forall (is_open t) hs.

(** The effect of a loop that updates the span [h e] of each entry [e]
    with [g e]. *)
Definition sweep {E} (h : E -> Span) (g : E -> SpanRecord -> SpanRecord)
    (es : list E) (t : Tracer) : Tracer :=
  foldl (fun t e => alter (g e) (h e) t) t es.

(** [setStatus(s)] followed by [end()]. *)
Definition close_as (s : SpanStatus) (r : SpanRecord) : SpanRecord :=
  rec_end (rec_setStatus s r).

(** The effect on a [Map] of deleting the key of each entry in turn. *)
Definition delete_each {V E} (es : list (JsVal * E)) (m : JsMap V) : JsMap V :=
  foldl (fun m e => Map_delete e.1 m) m es.

Definition span_OK : SpanStatus := mkStatus OK None.

(** The point-in-time hooks of the single-trace and by-agent modules
    (SessionStart, SessionEnd, Notification, PermissionRequest, PreCompact,
    Stop, Setup) are the same code up to the two names. *)
Definition marker_hook {S} `{HasTracer S} (event_name span_name : string)
    (sessionSpanContext : Context) (input : HookInput) : Eff S HookJSONOutput :=
  when (is_event input event_name) (
    span ← startSpan span_name sessionSpanContext;
    setAttributes span
      [("hook.event_name", AttrJs (JString event_name));
       ("session.id", AttrJs (session_id input))] ;;
    span_end span) ;;
  mret (mkOutput true).

(** ** errorUtils.ts: stripAnsiCodes *)

(** The regular expressions of [stripAnsiCodes] work on the UTF-16 code
    units of the text: here a text is the list of its code units. *)
Abbreviation CodeUnits := (list N) (only parsing).

Definition ESC : N := 27.
Definition TAB : N := 9.
Definition SPACE : N := 32.

(** [[0-9;]] *)
Definition is_csi_parameter (c : N) : bool :=
  ((48 <=? c) && (c <=? 57) || (c =? 59))%N.

(** [[a-zA-Z]] *)
Definition is_ascii_letter (c : N) : bool :=
  ((65 <=? c) && (c <=? 90) || (97 <=? c) && (c <=? 122))%N.

(** [[\x00-\x09\x0B\x0C\x0E-\x1F]] *)
Definition is_stripped_control (c : N) : bool :=
  ((c <=? 9) || (c =? 11) || (c =? 12) || (14 <=? c) && (c <=? 31))%N.

(** What [String.prototype.trim] removes: the WhiteSpace and LineTerminator
    code points of ECMAScript. *)
Definition is_white_space (c : N) : bool :=
  ((c =? 9) || (c =? 10) || (c =? 11) || (c =? 12) || (c =? 13) || (c =? 32) ||
   (c =? 160) || (c =? 5760) || (8192 <=? c) && (c <=? 8202) ||
   (c =? 8232) || (c =? 8233) || (c =? 8239) || (c =? 8287) || (c =? 12288) ||
   (c =? 65279))%N.

(** [[0-9;]*[a-zA-Z]] at the head of [l]: the length of the match.  The two
    classes are disjoint, so the greedy star never has to give back. *)
Fixpoint csi_tail (l : CodeUnits) : option nat :=
  match l with
  | [] => None
  | c :: l' =>
      if is_ascii_letter c then Some 1
      else if is_csi_parameter c then S <$> csi_tail l'
      else None
  end.

(** [\[[0-9;]*[a-zA-Z]] at the head of [l] (the text after an ESC). *)
Definition csi_match (l : CodeUnits) : option nat :=
  match l with
  | c :: l' => if (c =? 91)%N then S <$> csi_tail l' else None
  | [] => None
  end.

(** [.replace(/\x1b\[[0-9;]*[a-zA-Z]/g, "")]: scanning from the left, each
    match is dropped and the scan resumes after it; [skip] counts the code
    units of the current match still to drop. *)
Fixpoint remove_sequences (skip : nat) (l : CodeUnits) : CodeUnits :=
  match l with
  | [] => []
  | c :: l' =>
      match skip with
      | S k => remove_sequences k l'
      | O =>
          if (c =? ESC)%N then
            match csi_match l' with
            | Some n => remove_sequences n l'
            | None => c :: remove_sequences 0 l'
            end
          else c :: remove_sequences 0 l'
      end
  end.

(** [.replace(/\x1b/g, "")] *)
Definition remove_escapes (l : CodeUnits) : CodeUnits :=
  filter (fun c => c ≠ ESC) l.

(** [.replace(/\t/g, " ")] *)
Definition tabs_to_spaces (l : CodeUnits) : CodeUnits :=
  (fun c => if (c =? TAB)%N then SPACE else c) <$> l.

(** [.replace(/[\x00-\x09\x0B\x0C\x0E-\x1F]/g, "")] *)
Definition remove_controls (l : CodeUnits) : CodeUnits :=
  filter (fun c => is_stripped_control c = false) l.

(** [.replace(/ {2,}/g, " ")] *)
Fixpoint collapse_spaces (l : CodeUnits) : CodeUnits :=
  match l with
  | [] => []
  | c :: l' =>
      match l' with
      | c' :: _ =>
          if (c =? SPACE)%N && (c' =? SPACE)%N then collapse_spaces l'
          else c :: collapse_spaces l'
      | [] => [c]
      end
  end.

Fixpoint trim_start (l : CodeUnits) : CodeUnits :=
  match l with
  | c :: l' => if is_white_space c then trim_start l' else l
  | [] => []
  end.

(** [.trim()] *)
Definition trim (l : CodeUnits) : CodeUnits :=
  reverse (trim_start (reverse (trim_start l))).

Definition stripAnsiCodes (text : CodeUnits) : CodeUnits :=
  trim (collapse_spaces (remove_controls (tabs_to_spaces
    (remove_escapes (remove_sequences 0 text))))).

(** A text [stripAnsiCodes] has nothing to remove from: no ESC, no tab, no
    other control character than LF and CR, no two spaces in a row, no white
    space at either end. *)
Definition is_plain (c : N) : Prop :=
  c ≠ ESC ∧ is_stripped_control c = false.

Fixpoint single_spaced (l : CodeUnits) : Prop :=
  match l with
  | c :: l' =>
      match l' with
      | c' :: _ => ¬ (c = SPACE ∧ c' = SPACE) ∧ single_spaced l'
      | [] => True
      end
  | [] => True
  end.

Definition trimmed (l : CodeUnits) : Prop :=
  (forall c, head l = Some c -> is_white_space c = false) ∧
  (forall c, last l = Some c -> is_white_space c = false).

Definition clean_text (l : CodeUnits) : Prop :=
  Forall is_plain l ∧ single_spaced l ∧ trimmed l.

(** An escape sequence as the first regular expression sees it: ESC, [[],
    parameters, a final letter. *)
Definition csi_sequence (params : CodeUnits) (final : N) : CodeUnits :=
  ESC :: 91%N :: params ++ [final].

(** [stripAnsiCodes] on the strings of this development, whose characters
    are 8-bit: each character is one code unit. *)
Definition code_units (s : string) : CodeUnits :=
  Ascii.N_of_ascii <$> String.list_ascii_of_string s.

Definition of_code_units (l : CodeUnits) : string :=
  String.string_of_list_ascii (Ascii.ascii_of_N <$> l).

Definition stripAnsiCodes_string (text : string) : string :=
  of_code_units (stripAnsiCodes (code_units text)).

(** ** telemetryHooksSingleTrace.ts *)

Module SingleTrace.

Record SpanEntry : Type := mkEntry { span : Span; context : Context }.

(** The mutable state captured by the closures of [withAgentTelemetry]. *)
Record State : Type := mkState {
  st_tracer : Tracer;
  agentSpans : JsMap SpanEntry;
  toolSpans : JsMap SpanEntry
}.

#[global] Instance State_tracer : HasTracer State := {|
  tracer := st_tracer;
  with_tracer t st := mkState t (agentSpans st) (toolSpans st)
|}.

Definition set_agentSpans (f : JsMap SpanEntry -> JsMap SpanEntry) : Eff State unit :=
  modify (fun st => mkState (st_tracer st) (f (agentSpans st)) (toolSpans st)).

Definition set_toolSpans (f : JsMap SpanEntry -> JsMap SpanEntry) : Eff State unit :=
  modify (fun st => mkState (st_tracer st) (agentSpans st) (f (toolSpans st))).

(** The span handles of the returned [TelemetryContext]; [hooks] and
    [cleanup] are the definitions below. *)
Record TelemetryContext : Type := mkContext {
  rootSpan : Span;
  rootSpanContext : Context;
  sessionSpan : Span;
  sessionSpanContext : Context
}.

Section Hooks.
Variable tc : TelemetryContext.

Definition onUserPromptSubmit (input : HookInput) : Eff State HookJSONOutput :=
  when (is_event input "UserPromptSubmit") (
    setAttribute (sessionSpan tc) "session.id" (AttrJs (session_id input)) ;;
    p ← truncateAttribute (prompt input) MAX_ATTRIBUTE_LENGTH;
    setAttribute (sessionSpan tc) "prompt" (AttrJs (JString p)) ;;
    setAttribute (sessionSpan tc) "cwd" (AttrJs (cwd input)) ;;
    setAttribute (sessionSpan tc) "permission_mode"
      (AttrJs (js_or (permission_mode input) (JString ""))) ;;
    span ← startSpan "hook.user_prompt_submit" (sessionSpanContext tc);
    len ← js_length (prompt input);
    setAttributes span
      [("hook.event_name", AttrJs (JString "UserPromptSubmit"));
       ("session.id", AttrJs (session_id input));
       ("prompt.length", AttrNumber (Z.of_nat len))] ;;
    span_end span) ;;
  mret (mkOutput true).

Definition onSubagentStart (input : HookInput) : Eff State HookJSONOutput :=
  when (is_event input "SubagentStart") (
    span ← startSpan ("agent." +:+ template (agent_type input)) (sessionSpanContext tc);
    setAttributes span
      [("agent.id", AttrJs (agent_id input));
       ("agent.type", AttrJs (agent_type input));
       ("session.id", AttrJs (session_id input))] ;;
    let spanContext := SpanContext span in
    set_agentSpans (Map_set (agent_id input) (mkEntry span spanContext))) ;;
  mret (mkOutput true).

Definition onSubagentStop (input : HookInput) : Eff State HookJSONOutput :=
  when (is_event input "SubagentStop") (
    agentData ← gets (fun st => Map_get (agent_id input) (agentSpans st));
    match agentData with
    | Some agentData =>
        setAttribute (span agentData) "agent.transcript_path"
          (AttrJs (agent_transcript_path input)) ;;
        setStatus (span agentData) span_OK ;;
        span_end (span agentData) ;;
        set_agentSpans (Map_delete (agent_id input))
    | None => mret tt
    end) ;;
  mret (mkOutput true).

Definition onPreToolUse (input : HookInput) : Eff State HookJSONOutput :=
  when (is_event input "PreToolUse") (
    agentEntries ← gets (fun st => Map_values (agentSpans st));
    let parentContext :=
      match last agentEntries with
      | Some lastEntry => context lastEntry
      | None => sessionSpanContext tc
      end in
    span ← startSpan ("tool." +:+ template (tool_name input)) parentContext;
    toolInputStr ← try_catch (js_JSON_stringify (tool_input input))
                             (js_String (tool_input input));
    shown ← truncateAttribute toolInputStr MAX_ATTRIBUTE_LENGTH;
    setAttributes span
      [("tool.name", AttrJs (tool_name input));
       ("tool.use_id", AttrJs (tool_use_id input));
       ("tool.input", AttrJs (JString shown));
       ("session.id", AttrJs (session_id input))] ;;
    let spanContext := SpanContext span in
    set_toolSpans (Map_set (tool_use_id input) (mkEntry span spanContext))) ;;
  mret (mkOutput true).

Definition onPostToolUse (input : HookInput) : Eff State HookJSONOutput :=
  when (is_event input "PostToolUse") (
    toolData ← gets (fun st => Map_get (tool_use_id input) (toolSpans st));
    match toolData with
    | Some toolData =>
        responseSize ←
          try_catch (s ← js_JSON_stringify (tool_response input); js_length s)
                    (s ← js_String (tool_response input); js_length s);
        setAttribute (span toolData) "tool.response.size_bytes"
          (AttrNumber (Z.of_nat responseSize)) ;;
        setAttribute (span toolData) "tool.success" (AttrBoolean true) ;;
        setStatus (span toolData) span_OK ;;
        span_end (span toolData) ;;
        set_toolSpans (Map_delete (tool_use_id input))
    | None => mret tt
    end) ;;
  mret (mkOutput true).

Definition onPostToolUseFailure (input : HookInput) : Eff State HookJSONOutput :=
  when (is_event input "PostToolUseFailure") (
    toolData ← gets (fun st => Map_get (tool_use_id input) (toolSpans st));
    match toolData with
    | Some toolData =>
        let errorMessage := js_or (error input) (JString "Unknown error") in
        setAttribute (span toolData) "tool.success" (AttrBoolean false) ;;
        shown ← truncateAttribute errorMessage MAX_ATTRIBUTE_LENGTH;
        setAttribute (span toolData) "tool.error" (AttrJs (JString shown)) ;;
        recordException (span toolData) (template errorMessage) ;;
        short ← truncateAttribute errorMessage 256;
        setStatus (span toolData) (mkStatus ERROR (Some short)) ;;
        span_end (span toolData) ;;
        set_toolSpans (Map_delete (tool_use_id input))
    | None => mret tt
    end) ;;
  mret (mkOutput true).

(** The [hooks] object: the callback registered under each key. *)
Definition hooks (ev : HookEvent) : HookInput -> Eff State HookJSONOutput :=
  match ev with
  | UserPromptSubmit => onUserPromptSubmit
  | SubagentStart => onSubagentStart
  | SubagentStop => onSubagentStop
  | PreToolUse => onPreToolUse
  | PostToolUse => onPostToolUse
  | PostToolUseFailure => onPostToolUseFailure
  | SessionStart => marker_hook "SessionStart" "hook.session_start" (sessionSpanContext tc)
  | SessionEnd => marker_hook "SessionEnd" "hook.session_end" (sessionSpanContext tc)
  | Notification => marker_hook "Notification" "hook.notification" (sessionSpanContext tc)
  | PermissionRequest =>
      marker_hook "PermissionRequest" "hook.permission_request" (sessionSpanContext tc)
  | PreCompact => marker_hook "PreCompact" "hook.pre_compact" (sessionSpanContext tc)
  | Stop => marker_hook "Stop" "hook.stop" (sessionSpanContext tc)
  | Setup => marker_hook "Setup" "hook.setup" (sessionSpanContext tc)
  end.

(** [PostToolUseFailure] on a payload whose [error] may be any value. *)
Definition onPostToolUseFailure_any (p : Payload) : Eff State HookJSONOutput :=
  let input := payload_input p in
  when (is_event input "PostToolUseFailure") (
    toolData ← gets (fun st => Map_get (tool_use_id input) (toolSpans st));
    match toolData with
    | Some toolData =>
        let errorMessage := error_or_unknown (payload_error p) in
        setAttribute (span toolData) "tool.success" (AttrBoolean false) ;;
        shown ← truncateAttribute_any errorMessage MAX_ATTRIBUTE_LENGTH;
        setAttribute (span toolData) "tool.error" (AttrJs (JString shown)) ;;
        recordException (span toolData) (error_message errorMessage) ;;
        short ← truncateAttribute_any errorMessage 256;
        setStatus (span toolData) (mkStatus ERROR (Some short)) ;;
        span_end (span toolData) ;;
        set_toolSpans (Map_delete (tool_use_id input))
    | None => mret tt
    end) ;;
  mret (mkOutput true).

(** The [hooks] object on payloads: only the failure hook reads
    [input.error]. *)
Definition hooks_any (ev : HookEvent) (p : Payload) : Eff State HookJSONOutput :=
  match ev with
  | PostToolUseFailure => onPostToolUseFailure_any p
  | _ => hooks ev (payload_input p)
  end.

Definition orphaned : SpanStatus := mkStatus ERROR (Some "Orphaned span").

Definition cleanup : Eff State unit :=
  tools ← gets toolSpans;
  for_of tools (fun '(id, data) =>
    setStatus (span data) orphaned ;;
    span_end (span data) ;;
    set_toolSpans (Map_delete id)) ;;
  agents ← gets agentSpans;
  for_of agents (fun '(id, data) =>
    setStatus (span data) orphaned ;;
    span_end (span data) ;;
    set_agentSpans (Map_delete id)) ;;
  setStatus (sessionSpan tc) span_OK ;;
  span_end (sessionSpan tc).

(** The hooks the engine runs during [query]: each invocation leaves
    its effects on the state whether it returns or throws, so the state
    the entry point's [finally] block sees is the state after some list
    of invocations. *)
Definition run (events : list Event) (st : State) : State :=
  foldl (fun st e => (hooks (ev_hook e) (ev_input e) st).2) st events.
End Hooks.

(** [withAgentTelemetry(tracer)], run on a state with empty registries. *)
Definition withAgentTelemetry : Eff State TelemetryContext :=
  rootSpan ← startSpan "agent.root" ROOT_CONTEXT;
  let rootSpanContext := SpanContext rootSpan in
  span_end rootSpan ;;
  sessionSpan ← startSpan "agent.session" rootSpanContext;
  let sessionSpanContext := SpanContext sessionSpan in
  mret (mkContext rootSpan rootSpanContext sessionSpan sessionSpanContext).

Definition initial (t : Tracer) : State := mkState t [] [].

(** The spans held by the two registries. *)
Definition handles (st : State) : list Span :=
  (span <$> Map_values (agentSpans st)) ++ (span <$> Map_values (toolSpans st)).

(** What holds of every state the hooks can reach: the session span and
    the registered spans are distinct and open, and the root span has
    been closed once. *)
Definition Inv (tc : TelemetryContext) (st : State) : Prop :=
  live (st_tracer st) (sessionSpan tc :: handles st) ∧
  end_count (st_tracer st) (rootSpan tc) = 1.

(** The tracer after one of the loops of [cleanup] over [es]. *)
Definition swept (es : JsMap SpanEntry) (t : Tracer) : Tracer :=
  sweep (fun e => span e.2) (fun _ => close_as orphaned) es t.

(** The state the [finally] block of [main] finds: [withAgentTelemetry]
    on a tracer [t], then the hooks of [events]. *)
Definition reached (t : Tracer) (events : list Event)
    : option (TelemetryContext * State) :=
  match withAgentTelemetry (initial t) with
  | (Normal tc, st0) => Some (tc, run tc events st0)
  | (Abrupt _, _) => None
  end.

(** [main] of agentSingleTrace.ts.  [query] is the engine: it invokes the
    hooks of [events] and then either finishes ([None]) or throws an
    error with the given message.  The [catch] block records the message
    cleaned by [stripAnsiCodes] and throws the error it caught. *)
Definition main (events : list Event) (query_error : option string) : Eff State unit :=
  telemetry ← withAgentTelemetry;
  modify (run telemetry events) ;;
  match query_error with
  | None => setStatus (rootSpan telemetry) span_OK
  | Some rawMessage =>
      let errorMessage := stripAnsiCodes_string rawMessage in
      setStatus (rootSpan telemetry) (mkStatus ERROR (Some errorMessage)) ;;
      recordException (rootSpan telemetry) errorMessage
  end ;;
  cleanup telemetry ;;
  span_end (rootSpan telemetry) ;;
  match query_error with
  | None => mret tt
  | Some rawMessage => throw (Error rawMessage)
  end.

End SingleTrace.

(** ** telemetryHooksByAgent.ts *)

Module ByAgent.

Record AgentTrace : Type := mkAgentTrace {
  at_rootSpan : Span;
  at_sessionSpanContext : Context;
  at_agentId : JsVal;
  at_agentType : JsVal
}.

Record ToolEntry : Type := mkEntry {
  span : Span;
  context : Context;
  agentId : JsVal
}.

Record State : Type := mkState {
  st_tracer : Tracer;
  agentTraces : JsMap AgentTrace;
  toolSpans : JsMap ToolEntry;
  currentAgentId : JsVal
}.

#[global] Instance State_tracer : HasTracer State := {|
  tracer := st_tracer;
  with_tracer t st := mkState t (agentTraces st) (toolSpans st) (currentAgentId st)
|}.

Definition set_agentTraces (f : JsMap AgentTrace -> JsMap AgentTrace) : Eff State unit :=
  modify (fun st =>
    mkState (st_tracer st) (f (agentTraces st)) (toolSpans st) (currentAgentId st)).

Definition set_toolSpans (f : JsMap ToolEntry -> JsMap ToolEntry) : Eff State unit :=
  modify (fun st =>
    mkState (st_tracer st) (agentTraces st) (f (toolSpans st)) (currentAgentId st)).

Definition set_currentAgentId (v : JsVal) : Eff State unit :=
  modify (fun st => mkState (st_tracer st) (agentTraces st) (toolSpans st) v).

Record TelemetryContext : Type := mkContext {
  sessionSpan : Span;
  sessionSpanContext : Context
}.

Section Hooks.
Variable tc : TelemetryContext.

Definition onUserPromptSubmit (input : HookInput) : Eff State HookJSONOutput :=
  when (is_event input "UserPromptSubmit") (
    setAttribute (sessionSpan tc) "session.id" (AttrJs (session_id input)) ;;
    p ← truncateAttribute (prompt input) MAX_ATTRIBUTE_LENGTH;
    setAttribute (sessionSpan tc) "prompt" (AttrJs (JString p)) ;;
    setAttribute (sessionSpan tc) "cwd" (AttrJs (cwd input)) ;;
    setAttribute (sessionSpan tc) "permission_mode"
      (AttrJs (js_or (permission_mode input) (JString ""))) ;;
    span ← startSpan "hook.user_prompt_submit" (sessionSpanContext tc);
    len ← js_length (prompt input);
    setAttributes span
      [("hook.event_name", AttrJs (JString "UserPromptSubmit"));
       ("session.id", AttrJs (session_id input));
       ("prompt.length", AttrNumber (Z.of_nat len))] ;;
    span_end span) ;;
  mret (mkOutput true).

Definition onSubagentStart (input : HookInput) : Eff State HookJSONOutput :=
  when (is_event input "SubagentStart") (
    rootSpan ← startSpan ("agent." +:+ template (agent_type input)) ROOT_CONTEXT;
    setAttributes rootSpan
      [("agent.id", AttrJs (agent_id input));
       ("agent.type", AttrJs (agent_type input));
       ("session.id", AttrJs (session_id input))] ;;
    let sessionSpanContext := SpanContext rootSpan in
    let agentTrace :=
      mkAgentTrace rootSpan sessionSpanContext (agent_id input) (agent_type input) in
    set_agentTraces (Map_set (agent_id input) agentTrace) ;;
    set_currentAgentId (agent_id input)) ;;
  mret (mkOutput true).

Definition onSubagentStop (input : HookInput) : Eff State HookJSONOutput :=
  when (is_event input "SubagentStop") (
    agentTrace ← gets (fun st => Map_get (agent_id input) (agentTraces st));
    match agentTrace with
    | Some agentTrace =>
        setAttribute (at_rootSpan agentTrace) "agent.transcript_path"
          (AttrJs (agent_transcript_path input)) ;;
        setStatus (at_rootSpan agentTrace) span_OK ;;
        span_end (at_rootSpan agentTrace) ;;
        set_agentTraces (Map_delete (agent_id input)) ;;
        current ← gets currentAgentId;
        when (bool_decide (current = agent_id input)) (set_currentAgentId JUndefined)
    | None => mret tt
    end) ;;
  mret (mkOutput true).

Definition onPreToolUse (input : HookInput) : Eff State HookJSONOutput :=
  when (is_event input "PreToolUse") (
    current ← gets currentAgentId;
    let agentId := js_or (agent_id input) current in
    agentTrace ← gets (fun st =>
      if truthy agentId then Map_get agentId (agentTraces st) else None);
    let parentContext :=
      match agentTrace with
      | Some agentTrace => at_sessionSpanContext agentTrace
      | None => sessionSpanContext tc
      end in
    span ← startSpan ("tool." +:+ template (tool_name input)) parentContext;
    toolInputStr ← try_catch (js_JSON_stringify (tool_input input))
                             (js_String (tool_input input));
    shown ← truncateAttribute toolInputStr MAX_ATTRIBUTE_LENGTH;
    setAttributes span
      [("tool.name", AttrJs (tool_name input));
       ("tool.use_id", AttrJs (tool_use_id input));
       ("tool.input", AttrJs (JString shown));
       ("session.id", AttrJs (session_id input))] ;;
    when (truthy agentId) (setAttribute span "agent.id" (AttrJs agentId)) ;;
    let spanContext := SpanContext span in
    set_toolSpans (Map_set (tool_use_id input) (mkEntry span spanContext agentId))) ;;
  mret (mkOutput true).

Definition onPostToolUse (input : HookInput) : Eff State HookJSONOutput :=
  when (is_event input "PostToolUse") (
    toolData ← gets (fun st => Map_get (tool_use_id input) (toolSpans st));
    match toolData with
    | Some toolData =>
        responseSize ←
          try_catch (s ← js_JSON_stringify (tool_response input); js_length s)
                    (s ← js_String (tool_response input); js_length s);
        setAttribute (span toolData) "tool.response.size_bytes"
          (AttrNumber (Z.of_nat responseSize)) ;;
        setAttribute (span toolData) "tool.success" (AttrBoolean true) ;;
        setStatus (span toolData) span_OK ;;
        span_end (span toolData) ;;
        set_toolSpans (Map_delete (tool_use_id input))
    | None => mret tt
    end) ;;
  mret (mkOutput true).

Definition onPostToolUseFailure (input : HookInput) : Eff State HookJSONOutput :=
  when (is_event input "PostToolUseFailure") (
    toolData ← gets (fun st => Map_get (tool_use_id input) (toolSpans st));
    match toolData with
    | Some toolData =>
        let errorMessage := js_or (error input) (JString "Unknown error") in
        setAttribute (span toolData) "tool.success" (AttrBoolean false) ;;
        shown ← truncateAttribute errorMessage MAX_ATTRIBUTE_LENGTH;
        setAttribute (span toolData) "tool.error" (AttrJs (JString shown)) ;;
        recordException (span toolData) (template errorMessage) ;;
        short ← truncateAttribute errorMessage 256;
        setStatus (span toolData) (mkStatus ERROR (Some short)) ;;
        span_end (span toolData) ;;
        set_toolSpans (Map_delete (tool_use_id input))
    | None => mret tt
    end) ;;
  mret (mkOutput true).

Definition hooks (ev : HookEvent) : HookInput -> Eff State HookJSONOutput :=
  match ev with
  | UserPromptSubmit => onUserPromptSubmit
  | SubagentStart => onSubagentStart
  | SubagentStop => onSubagentStop
  | PreToolUse => onPreToolUse
  | PostToolUse => onPostToolUse
  | PostToolUseFailure => onPostToolUseFailure
  | SessionStart => marker_hook "SessionStart" "hook.session_start" (sessionSpanContext tc)
  | SessionEnd => marker_hook "SessionEnd" "hook.session_end" (sessionSpanContext tc)
  | Notification => marker_hook "Notification" "hook.notification" (sessionSpanContext tc)
  | PermissionRequest =>
      marker_hook "PermissionRequest" "hook.permission_request" (sessionSpanContext tc)
  | PreCompact => marker_hook "PreCompact" "hook.pre_compact" (sessionSpanContext tc)
  | Stop => marker_hook "Stop" "hook.stop" (sessionSpanContext tc)
  | Setup => marker_hook "Setup" "hook.setup" (sessionSpanContext tc)
  end.

(** [PostToolUseFailure] on a payload whose [error] may be any value. *)
Definition onPostToolUseFailure_any (p : Payload) : Eff State HookJSONOutput :=
  let input := payload_input p in
  when (is_event input "PostToolUseFailure") (
    toolData ← gets (fun st => Map_get (tool_use_id input) (toolSpans st));
    match toolData with
    | Some toolData =>
        let errorMessage := error_or_unknown (payload_error p) in
        setAttribute (span toolData) "tool.success" (AttrBoolean false) ;;
        shown ← truncateAttribute_any errorMessage MAX_ATTRIBUTE_LENGTH;
        setAttribute (span toolData) "tool.error" (AttrJs (JString shown)) ;;
        recordException (span toolData) (error_message errorMessage) ;;
        short ← truncateAttribute_any errorMessage 256;
        setStatus (span toolData) (mkStatus ERROR (Some short)) ;;
        span_end (span toolData) ;;
        set_toolSpans (Map_delete (tool_use_id input))
    | None => mret tt
    end) ;;
  mret (mkOutput true).

(** The [hooks] object on payloads: only the failure hook reads
    [input.error]. *)
Definition hooks_any (ev : HookEvent) (p : Payload) : Eff State HookJSONOutput :=
  match ev with
  | PostToolUseFailure => onPostToolUseFailure_any p
  | _ => hooks ev (payload_input p)
  end.

Definition orphaned : SpanStatus := mkStatus ERROR (Some "Orphaned span").
Definition orphaned_trace : SpanStatus := mkStatus ERROR (Some "Orphaned agent trace").

Definition cleanup : Eff State unit :=
  tools ← gets toolSpans;
  for_of tools (fun '(id, data) =>
    setStatus (span data) orphaned ;;
    span_end (span data) ;;
    set_toolSpans (Map_delete id)) ;;
  agents ← gets agentTraces;
  for_of agents (fun '(id, agentTrace) =>
    setStatus (at_rootSpan agentTrace) orphaned_trace ;;
    span_end (at_rootSpan agentTrace) ;;
    set_agentTraces (Map_delete id)).

Definition run (events : list Event) (st : State) : State :=
  foldl (fun st e => (hooks (ev_hook e) (ev_input e) st).2) st events.
End Hooks.

Definition withAgentTelemetry : Eff State TelemetryContext :=
  sessionSpan ← startSpan "session" ROOT_CONTEXT;
  let sessionSpanContext := SpanContext sessionSpan in
  mret (mkContext sessionSpan sessionSpanContext).

Definition initial (t : Tracer) : State := mkState t [] [] JUndefined.

Definition handles (st : State) : list Span :=
  (at_rootSpan <$> Map_values (agentTraces st)) ++ (span <$> Map_values (toolSpans st)).

(** The session span and the registered spans are distinct and open. *)
Definition Inv (tc : TelemetryContext) (st : State) : Prop :=
  live (st_tracer st) (sessionSpan tc :: handles st).

(** The tracer after each of the two loops of [cleanup]. *)
Definition swept_tools (es : JsMap ToolEntry) (t : Tracer) : Tracer :=
  sweep (fun e => span e.2) (fun _ => close_as orphaned) es t.

Definition swept_agents (es : JsMap AgentTrace) (t : Tracer) : Tracer :=
  sweep (fun e => at_rootSpan e.2) (fun _ => close_as orphaned_trace) es t.

(** The state the [finally] block of [main] finds. *)
Definition reached (t : Tracer) (events : list Event)
    : option (TelemetryContext * State) :=
  match withAgentTelemetry (initial t) with
  | (Normal tc, st0) => Some (tc, run tc events st0)
  | (Abrupt _, _) => None
  end.

(** [main] of the by-agent entry point. *)
Definition main (events : list Event) (query_error : option string) : Eff State unit :=
  telemetry ← withAgentTelemetry;
  modify (run telemetry events) ;;
  match query_error with
  | None => mret tt
  | Some errorMessage =>
      errorSpan ← startSpan "agent.error" ROOT_CONTEXT;
      setStatus errorSpan (mkStatus ERROR (Some errorMessage)) ;;
      recordException errorSpan errorMessage ;;
      span_end errorSpan
  end ;;
  cleanup ;;
  match query_error with
  | None => mret tt
  | Some errorMessage => throw (Error errorMessage)
  end.

End ByAgent.

(** ** The individual-traces hook module *)

Module IndividualTraces.

Record SpanData : Type := mkData { span : Span; startTime : Z }.

(** [st_clock] is what [Date.now()] returns. *)
Record State : Type := mkState {
  st_tracer : Tracer;
  agentSpans : JsMap SpanData;
  toolSpans : JsMap SpanData;
  st_clock : Z
}.

#[global] Instance State_tracer : HasTracer State := {|
  tracer := st_tracer;
  with_tracer t st := mkState t (agentSpans st) (toolSpans st) (st_clock st)
|}.

Definition set_agentSpans (f : JsMap SpanData -> JsMap SpanData) : Eff State unit :=
  modify (fun st => mkState (st_tracer st) (f (agentSpans st)) (toolSpans st) (st_clock st)).

Definition set_toolSpans (f : JsMap SpanData -> JsMap SpanData) : Eff State unit :=
  modify (fun st => mkState (st_tracer st) (agentSpans st) (f (toolSpans st)) (st_clock st)).

Definition set_clock (now : Z) (st : State) : State :=
  mkState (st_tracer st) (agentSpans st) (toolSpans st) now.

Definition Date_now : Eff State Z := gets st_clock.

Definition marker (event_name span_name : string) (input : HookInput)
    : Eff State HookJSONOutput :=
  when (is_event input event_name) (
    span ← startSpan span_name ROOT_CONTEXT;
    setAttributes span [("session.id", AttrJs (session_id input))] ;;
    setStatus span span_OK ;;
    span_end span) ;;
  mret (mkOutput true).

Definition onUserPromptSubmit (input : HookInput) : Eff State HookJSONOutput :=
  when (is_event input "UserPromptSubmit") (
    span ← startSpan "user_prompt_submit" ROOT_CONTEXT;
    p ← truncateAttribute (prompt input) MAX_ATTRIBUTE_LENGTH;
    len ← js_length (prompt input);
    setAttributes span
      [("session.id", AttrJs (session_id input));
       ("prompt", AttrJs (JString p));
       ("prompt.length", AttrNumber (Z.of_nat len));
       ("cwd", AttrJs (cwd input));
       ("permission_mode", AttrJs (js_or (permission_mode input) (JString "")))] ;;
    setStatus span span_OK ;;
    span_end span) ;;
  mret (mkOutput true).

Definition onSubagentStart (input : HookInput) : Eff State HookJSONOutput :=
  when (is_event input "SubagentStart") (
    span ← startSpan ("agent." +:+ template (agent_type input)) ROOT_CONTEXT;
    setAttributes span
      [("agent.id", AttrJs (agent_id input));
       ("agent.type", AttrJs (agent_type input));
       ("session.id", AttrJs (session_id input))] ;;
    now ← Date_now;
    set_agentSpans (Map_set (agent_id input) (mkData span now))) ;;
  mret (mkOutput true).

Definition onSubagentStop (input : HookInput) : Eff State HookJSONOutput :=
  when (is_event input "SubagentStop") (
    agentData ← gets (fun st => Map_get (agent_id input) (agentSpans st));
    match agentData with
    | Some agentData =>
        now ← Date_now;
        let duration := (now - startTime agentData)%Z in
        setAttribute (span agentData) "agent.transcript_path"
          (AttrJs (agent_transcript_path input)) ;;
        setAttribute (span agentData) "duration_ms" (AttrNumber duration) ;;
        setStatus (span agentData) span_OK ;;
        span_end (span agentData) ;;
        set_agentSpans (Map_delete (agent_id input))
    | None => mret tt
    end) ;;
  mret (mkOutput true).

Definition onPreToolUse (input : HookInput) : Eff State HookJSONOutput :=
  when (is_event input "PreToolUse") (
    span ← startSpan ("tool." +:+ template (tool_name input)) ROOT_CONTEXT;
    toolInputStr ← try_catch (js_JSON_stringify (tool_input input))
                             (js_String (tool_input input));
    shown ← truncateAttribute toolInputStr MAX_ATTRIBUTE_LENGTH;
    setAttributes span
      [("tool.name", AttrJs (tool_name input));
       ("tool.use_id", AttrJs (tool_use_id input));
       ("tool.input", AttrJs (JString shown));
       ("session.id", AttrJs (session_id input))] ;;
    now ← Date_now;
    set_toolSpans (Map_set (tool_use_id input) (mkData span now))) ;;
  mret (mkOutput true).

Definition onPostToolUse (input : HookInput) : Eff State HookJSONOutput :=
  when (is_event input "PostToolUse") (
    toolData ← gets (fun st => Map_get (tool_use_id input) (toolSpans st));
    match toolData with
    | Some toolData =>
        now ← Date_now;
        let duration := (now - startTime toolData)%Z in
        responseSize ←
          try_catch (s ← js_JSON_stringify (tool_response input); js_length s)
                    (s ← js_String (tool_response input); js_length s);
        setAttribute (span toolData) "duration_ms" (AttrNumber duration) ;;
        setAttribute (span toolData) "tool.response.size_bytes"
          (AttrNumber (Z.of_nat responseSize)) ;;
        setAttribute (span toolData) "tool.success" (AttrBoolean true) ;;
        setStatus (span toolData) span_OK ;;
        span_end (span toolData) ;;
        set_toolSpans (Map_delete (tool_use_id input))
    | None => mret tt
    end) ;;
  mret (mkOutput true).

Definition tool_failed : SpanStatus := mkStatus ERROR (Some "Tool execution failed").

Definition onPostToolUseFailure (input : HookInput) : Eff State HookJSONOutput :=
  when (is_event input "PostToolUseFailure") (
    toolData ← gets (fun st => Map_get (tool_use_id input) (toolSpans st));
    match toolData with
    | Some toolData =>
        now ← Date_now;
        let duration := (now - startTime toolData)%Z in
        setAttribute (span toolData) "duration_ms" (AttrNumber duration) ;;
        setAttribute (span toolData) "tool.success" (AttrBoolean false) ;;
        setStatus (span toolData) tool_failed ;;
        span_end (span toolData) ;;
        set_toolSpans (Map_delete (tool_use_id input))
    | None => mret tt
    end) ;;
  mret (mkOutput true).

Definition hooks (ev : HookEvent) : HookInput -> Eff State HookJSONOutput :=
  match ev with
  | UserPromptSubmit => onUserPromptSubmit
  | SubagentStart => onSubagentStart
  | SubagentStop => onSubagentStop
  | PreToolUse => onPreToolUse
  | PostToolUse => onPostToolUse
  | PostToolUseFailure => onPostToolUseFailure
  | SessionStart => marker "SessionStart" "session_start"
  | SessionEnd => marker "SessionEnd" "session_end"
  | Notification => marker "Notification" "notification"
  | PermissionRequest => marker "PermissionRequest" "permission_request"
  | PreCompact => marker "PreCompact" "pre_compact"
  | Stop => marker "Stop" "stop"
  | Setup => marker "Setup" "setup"
  end.

(** The [hooks] object on payloads: no hook of this module reads
    [input.error]. *)
Definition hooks_any (ev : HookEvent) (p : Payload) : Eff State HookJSONOutput :=
  hooks ev (payload_input p).

Definition orphaned : SpanStatus := mkStatus ERROR (Some "Orphaned span").

Definition cleanup : Eff State unit :=
  tools ← gets toolSpans;
  for_of tools (fun '(id, data) =>
    now ← Date_now;
    let duration := (now - startTime data)%Z in
    setAttribute (span data) "duration_ms" (AttrNumber duration) ;;
    setStatus (span data) orphaned ;;
    span_end (span data) ;;
    set_toolSpans (Map_delete id)) ;;
  agents ← gets agentSpans;
  for_of agents (fun '(id, data) =>
    now ← Date_now;
    let duration := (now - startTime data)%Z in
    setAttribute (span data) "duration_ms" (AttrNumber duration) ;;
    setStatus (span data) orphaned ;;
    span_end (span data) ;;
    set_agentSpans (Map_delete id)).

(** Each hook runs at the wall-clock time of its invocation. *)
Definition run (events : list Event) (st : State) : State :=
  foldl (fun st e => (hooks (ev_hook e) (ev_input e) (set_clock (ev_time e) st)).2)
        st events.

Definition initial (t : Tracer) (now : Z) : State := mkState t [] [] now.

Definition handles (st : State) : list Span :=
  (span <$> Map_values (agentSpans st)) ++ (span <$> Map_values (toolSpans st)).

(** The registered spans are distinct and open. *)
Definition Inv (st : State) : Prop := live (st_tracer st) (handles st).

(** What one turn of a loop of [cleanup] does to the span of [data]. *)
Definition close_orphan (now : Z) (data : SpanData) (r : SpanRecord) : SpanRecord :=
  close_as orphaned
    (rec_setAttribute "duration_ms" (AttrNumber (now - startTime data)%Z) r).

(** The tracer after one of the loops of [cleanup] over [es]. *)
Definition swept (now : Z) (es : JsMap SpanData) (t : Tracer) : Tracer :=
  sweep (fun e => span e.2) (fun e => close_orphan now e.2) es t.

(** The state the [finally] block of [main] finds. *)
Definition reached (t : Tracer) (events : list Event) : State :=
  run events (initial t 0).

(** [main] of agentIndividualTraces.ts. *)
Definition main (events : list Event) (query_error : option string) : Eff State unit :=
  modify (run events) ;;
  match query_error with
  | None => mret tt
  | Some errorMessage =>
      errorSpan ← startSpan "agent.error" ROOT_CONTEXT;
      setStatus errorSpan (mkStatus ERROR (Some errorMessage)) ;;
      recordException errorSpan errorMessage ;;
      span_end errorSpan
  end ;;
  cleanup ;;
  match query_error with
  | None => mret tt
  | Some errorMessage => throw (Error errorMessage)
  end.

End IndividualTraces.

(** ** telemetry.ts: parseExportInterval *)

(** [TELEMETRY_CONFIG] of constants.ts. *)
Definition MIN_METRIC_INTERVAL : Z := 100.
Definition MAX_METRIC_INTERVAL : Z := 3600000.
Definition DEFAULT_METRIC_INTERVAL : Z := 10000.

(** The numbers [parseInt] can return: NaN, an integer, or an infinity (for
    a digit string beyond the range of a double). *)
Inductive JsNumber : Type :=
| NaN
| Finite (z : Z)
| PosInfinity
| NegInfinity.

Definition isNaN (n : JsNumber) : bool :=
  match n with NaN => true | _ => false end.

(** [a < b]; false when either side is NaN. *)
Definition num_lt (a b : JsNumber) : bool :=
  match a, b with
  | NaN, _ | _, NaN => false
  | _, NegInfinity | PosInfinity, _ => false
  | NegInfinity, _ | _, PosInfinity => true
  | Finite x, Finite y => (x <? y)%Z
  end.

(** [a <= b]; false when either side is NaN. *)
Definition num_le (a b : JsNumber) : bool :=
  match a, b with
  | NaN, _ | _, NaN => false
  | NegInfinity, _ | _, PosInfinity => true
  | _, NegInfinity | PosInfinity, _ => false
  | Finite x, Finite y => (x <=? y)%Z
  end.

Section Telemetry.
(** [parseInt(s, 10)] of the JavaScript engine. *)
Variable parseInt : string -> JsNumber.

(** [parseExportInterval]; the warnings it logs are left out. *)
Definition parseExportInterval (envName : string) (envValue : JsVal)
    (defaultValue : JsNumber) : JsNumber :=
  let MIN_INTERVAL := Finite MIN_METRIC_INTERVAL in
  let MAX_INTERVAL := Finite MAX_METRIC_INTERVAL in
  if negb (truthy envValue) then defaultValue
  else
    let parsed := parseInt (template envValue) in
    if isNaN parsed || num_le parsed (Finite 0) then defaultValue
    else if num_lt parsed MIN_INTERVAL then MIN_INTERVAL
    else if num_lt MAX_INTERVAL parsed then MAX_INTERVAL
    else parsed.
End Telemetry.

(** An interval the SDK can be given: a number from 100 to 3,600,000. *)
Definition valid_interval (n : JsNumber) : Prop :=
  exists z, n = Finite z ∧ (MIN_METRIC_INTERVAL <= z <= MAX_METRIC_INTERVAL)%Z.

(** ** More vocabulary of the hooks *)

(** The name each callback of the [hooks] object compares
    [input.hook_event_name] with: the key it is registered under. *)
Definition hook_name (ev : HookEvent) : string :=
  match ev with
  | UserPromptSubmit => "UserPromptSubmit"
  | SubagentStart => "SubagentStart"
  | SubagentStop => "SubagentStop"
  | PreToolUse => "PreToolUse"
  | PostToolUse => "PostToolUse"
  | PostToolUseFailure => "PostToolUseFailure"
  | SessionStart => "SessionStart"
  | SessionEnd => "SessionEnd"
  | Notification => "Notification"
  | PermissionRequest => "PermissionRequest"
  | PreCompact => "PreCompact"
  | Stop => "Stop"
  | Setup => "Setup"
  end.

(** The seven hooks that only mark a point in time. *)
Definition is_marker (ev : HookEvent) : bool :=
  match ev with
  | SessionStart | SessionEnd | Notification | PermissionRequest
  | PreCompact | Stop | Setup => true
  | _ => false
  end.

(** The size the post-use hook records for a tool response: the length of
    [JSON.stringify] of it, or of [String] of it when [JSON.stringify]
    throws or returns [undefined].  [None] when [String] throws too. *)
Definition response_size (v : JsAny) : option nat :=
  match JSON_stringify v with
  | StringifyString s => Some (String.length s)
  | _ => String.length <$> String_of v
  end.

(** The spans that are closed in [t] have the same record in [t']: nothing
    was written to them. *)
Definition closed_spans_kept (t t' : Tracer) : Prop :=
  forall h r, t !! h = Some r -> span_ended r ≠ [] -> t' !! h = Some r.

(** No span of the tracer was closed more than once, [exempt] apart. *)
Definition closed_at_most_once_but (exempt : option Span) (t : Tracer) : Prop :=
  forall h, Some h ≠ exempt -> end_count t h <= 1.


(** * Properties *)

(** ** Strings and truncation *)

Lemma string_length_append (s1 s2 : string) :
  String.length (s1 +:+ s2) = String.length s1 + String.length s2.
Proof. induction s1 as [|c s1 IH]; simpl; [reflexivity | now rewrite IH]. Qed.

Lemma string_length_substring0 (n : nat) (s : string) :
  n <= String.length s -> String.length (String.substring 0 n s) = n.
Proof.
  revert s. induction n as [|n IH]; intros [|c s] Hn; simpl in *;
    try reflexivity; try lia.
  rewrite IH; lia.
Qed.

Lemma truncate_short (s : string) (n : nat) :
  String.length s <= n -> truncate s n = s.
Proof.
  intros Hle. unfold truncate.
  destruct (Nat.leb_spec (String.length s) n); [reflexivity | lia].
Qed.

Lemma truncate_long (s : string) (n : nat) :
  n < String.length s ->
  truncate s n = String.substring 0 n s +:+ "... [truncated]".
Proof.
  intros Hlt. unfold truncate.
  destruct (Nat.leb_spec (String.length s) n); [lia | reflexivity].
Qed.

(** ** The tracer *)

Lemma is_open_snoc (t : Tracer) (r : SpanRecord) (h : Span) :
  is_open t h -> is_open (t ++ [r]) h.
Proof.
  intros (r0 & Hr0 & He). exists r0. split; [|exact He].
  rewrite lookup_app_l; [exact Hr0|]. eapply lookup_lt_Some, Hr0.
Qed.

Lemma is_open_lt (t : Tracer) (h : Span) : is_open t h -> h < List.length t.
Proof. intros (r & Hr & _). eapply lookup_lt_Some, Hr. Qed.

Lemma is_open_alter_ne (t : Tracer) (f : SpanRecord -> SpanRecord) (h h' : Span) :
  h ≠ h' -> is_open t h' -> is_open (alter f h t) h'.
Proof.
  intros Hne (r & Hr & He). exists r. split; [|exact He].
  now rewrite list_lookup_alter_ne.
Qed.

Lemma is_open_alter_keep (t : Tracer) (f : SpanRecord -> SpanRecord) (h h' : Span) :
  (forall r, span_ended (f r) = span_ended r) ->
  is_open t h' -> is_open (alter f h t) h'.
Proof.
  intros Hf (r & Hr & He). destruct (decide (h = h')) as [->|Hne].
  - exists (f r). rewrite list_lookup_alter_eq, Hr. split; [reflexivity|].
    now rewrite Hf.
  - exists r. split; [|exact He]. now rewrite list_lookup_alter_ne.
Qed.

Lemma live_snoc (t : Tracer) (r : SpanRecord) (hs : list Span) :
  live t hs -> live (t ++ [r]) hs.
Proof.
  intros [Hnd Hall]. split; [exact Hnd|].
  eapply Forall_impl; [exact Hall|]. intros h. apply is_open_snoc.
Qed.

Lemma live_fresh (t : Tracer) (hs : list Span) :
  live t hs -> List.length t ∉ hs.
Proof.
  intros [_ Hall] Hin. rewrite Forall_forall in Hall.
  apply Hall, is_open_lt in Hin. lia.
Qed.

Lemma live_alter_keep (t : Tracer) (f : SpanRecord -> SpanRecord) (h : Span)
    (hs : list Span) :
  (forall r, span_ended (f r) = span_ended r) ->
  live t hs -> live (alter f h t) hs.
Proof.
  intros Hf [Hnd Hall]. split; [exact Hnd|].
  eapply Forall_impl; [exact Hall|]. intros h'. now apply is_open_alter_keep.
Qed.

Lemma live_alter_out (t : Tracer) (f : SpanRecord -> SpanRecord) (h : Span)
    (hs : list Span) :
  h ∉ hs -> live t hs -> live (alter f h t) hs.
Proof.
  intros Hout [Hnd Hall]. split; [exact Hnd|].
  rewrite Forall_forall in *. intros h' Hin.
  apply is_open_alter_ne; [|now apply Hall]. intros ->. now apply Hout.
Qed.

Lemma live_sublist (t : Tracer) (hs hs' : list Span) :
  hs' `sublist_of` hs -> live t hs -> live t hs'.
Proof.
  intros Hsub [Hnd Hall]. split.
  - eapply sublist_NoDup; eassumption.
  - rewrite Forall_forall in *. intros h Hin. apply Hall.
    eapply elem_of_sublist; eassumption.
Qed.

Lemma live_perm (t : Tracer) (hs hs' : list Span) :
  hs ≡ₚ hs' -> live t hs -> live t hs'.
Proof. intros Hp [Hnd Hall]. split; now rewrite <- Hp. Qed.

Lemma end_count_snoc (t : Tracer) (r : SpanRecord) (h : Span) :
  h < List.length t -> end_count (t ++ [r]) h = end_count t h.
Proof. intros Hlt. unfold end_count. now rewrite lookup_app_l. Qed.

Lemma end_count_alter_ne (t : Tracer) (f : SpanRecord -> SpanRecord) (h h' : Span) :
  h ≠ h' -> end_count (alter f h t) h' = end_count t h'.
Proof. intros Hne. unfold end_count. now rewrite list_lookup_alter_ne. Qed.

Lemma end_count_alter_keep (t : Tracer) (f : SpanRecord -> SpanRecord) (h h' : Span) :
  (forall r, span_ended (f r) = span_ended r) ->
  end_count (alter f h t) h' = end_count t h'.
Proof.
  intros Hf. destruct (decide (h = h')) as [->|Hne].
  - unfold end_count. rewrite list_lookup_alter_eq.
    destruct (t !! h') as [r|]; simpl; [now rewrite Hf | reflexivity].
  - now apply end_count_alter_ne.
Qed.

Lemma end_count_pos_lt (t : Tracer) (h : Span) :
  0 < end_count t h -> h < List.length t.
Proof.
  unfold end_count. destruct (t !! h) as [r|] eqn:Hr; [|lia].
  intros _. eapply lookup_lt_Some, Hr.
Qed.

Lemma is_open_end_count (t : Tracer) (h : Span) : is_open t h -> end_count t h = 0.
Proof. intros (r & Hr & He). unfold end_count. now rewrite Hr, He. Qed.

Lemma rec_setAttributes_ended (kvs : list (string * AttributeValue)) (r : SpanRecord) :
  span_ended (rec_setAttributes kvs r) = span_ended r.
Proof.
  unfold rec_setAttributes. revert r.
  induction kvs as [|kv kvs IH]; intros r; simpl; [reflexivity|].
  now rewrite IH.
Qed.

Lemma live_register (t : Tracer) (r : SpanRecord) (hs hs' : list Span) :
  live t hs -> span_ended r = [] ->
  (exists l, hs' ≡ₚ List.length t :: l ∧ l `sublist_of` hs) ->
  live (t ++ [r]) hs'.
Proof.
  intros Hlive Hr (l & Hperm & Hsub).
  apply (live_perm _ (List.length t :: l)); [now symmetry|].
  pose proof (live_sublist _ _ _ Hsub Hlive) as Hl.
  pose proof (live_fresh _ _ Hl) as Hfresh.
  apply (live_snoc _ r) in Hl. destruct Hl as [Hnd Hall]. split.
  - now constructor.
  - constructor; [|exact Hall]. exists r. split; [|exact Hr].
    now apply list_lookup_middle.
Qed.

(** ** Sweeps *)

Section Sweep.
Context {E : Type} (h : E -> Span) (g : E -> SpanRecord -> SpanRecord).

Lemma sweep_lookup_out (es : list E) (t : Tracer) (x : Span) :
  x ∉ h <$> es -> sweep h g es t !! x = t !! x.
Proof.
  revert t. induction es as [|e es IH]; intros t Hout; simpl; [reflexivity|].
  rewrite fmap_cons, not_elem_of_cons in Hout. destruct Hout as [Hne Hout].
  unfold sweep in *. simpl. rewrite IH by exact Hout.
  now rewrite list_lookup_alter_ne.
Qed.

Lemma sweep_lookup_in (es : list E) (t : Tracer) (e : E) :
  NoDup (h <$> es) -> e ∈ es -> sweep h g es t !! h e = g e <$> t !! h e.
Proof.
  revert t. induction es as [|e0 es IH]; intros t Hnd Hin.
  - now apply elem_of_nil in Hin.
  - rewrite fmap_cons in Hnd. apply NoDup_cons in Hnd as [Hfresh Hnd].
    apply elem_of_cons in Hin as [->|Hin].
    + change (sweep h g (e0 :: es) t) with (sweep h g es (alter (g e0) (h e0) t)).
      rewrite sweep_lookup_out by exact Hfresh.
      apply list_lookup_alter_eq.
    + change (sweep h g (e0 :: es) t) with (sweep h g es (alter (g e0) (h e0) t)).
      rewrite IH by assumption.
      rewrite list_lookup_alter_ne; [reflexivity|].
      intros Heq. apply Hfresh. rewrite Heq. now apply list_elem_of_fmap_2.
Qed.

End Sweep.

Lemma for_of_steps {S E} (body : E -> Eff S unit) (step : E -> S -> S) :
  (forall e st, body e st = (Normal tt, step e st)) ->
  forall es st, for_of es body st = (Normal tt, foldl (fun st e => step e st) st es).
Proof.
  intros Hbody es. induction es as [|e es IH]; intros st; simpl; [reflexivity|].
  unfold mbind, eff_bind. now rewrite Hbody, IH.
Qed.

(** ** JavaScript [Map] *)

Section JsMapFacts.
Context {V : Type}.
Implicit Types (m : JsMap V) (k : JsVal) (v : V).

Lemma Map_get_Some k v m : Map_get k m = Some v -> (k, v) ∈ m.
Proof.
  induction m as [|[k' v'] m IH]; simpl; [discriminate|].
  destruct (decide (k = k')) as [->|Hne].
  - intros [= ->]. apply elem_of_cons. now left.
  - intros Hget. apply elem_of_cons. right. now apply IH.
Qed.

Lemma Map_get_None k m : Map_get k m = None <-> k ∉ m.*1.
Proof.
  induction m as [|[k' v'] m IH]; simpl.
  - split; [intros _; apply not_elem_of_nil | reflexivity].
  - rewrite not_elem_of_cons. destruct (decide (k = k')) as [->|Hne]; simpl.
    + split; [discriminate | intros [Hk _]; now destruct Hk].
    + rewrite IH. split; [now split | now intros [_ Hk]].
Qed.

Lemma Map_get_set_eq k v m : Map_get k (Map_set k v m) = Some v.
Proof.
  induction m as [|[k' v'] m IH]; simpl.
  - now rewrite decide_True.
  - destruct (decide (k = k')) as [->|Hne]; simpl.
    + now rewrite decide_True.
    + now rewrite decide_False.
Qed.

Lemma Map_get_set_ne k k' v m : k ≠ k' -> Map_get k' (Map_set k v m) = Map_get k' m.
Proof.
  intros Hne. induction m as [|[k0 v0] m IH]; simpl.
  - rewrite decide_False; [reflexivity | congruence].
  - destruct (decide (k = k0)) as [->|Hne0]; simpl.
    + rewrite !decide_False by congruence. reflexivity.
    + destruct (decide (k' = k0)); [reflexivity | exact IH].
Qed.

Lemma Map_get_delete_eq k m : Map_get k (Map_delete k m) = None.
Proof.
  apply Map_get_None. unfold Map_delete. intros Hin.
  apply list_elem_of_fmap in Hin as ([k' v'] & -> & Hin).
  apply list_elem_of_filter in Hin as [Hne _]. now apply Hne.
Qed.

Lemma Map_get_delete_ne k k' m : k ≠ k' -> Map_get k' (Map_delete k m) = Map_get k' m.
Proof.
  intros Hne. unfold Map_delete. induction m as [|[k0 v0] m IH]; [reflexivity|].
  rewrite filter_cons. simpl. destruct (decide (k0 ≠ k)) as [Hk|Hk]; simpl.
  - now rewrite IH.
  - rewrite IH. apply dec_stable in Hk. subst k0.
    rewrite decide_False; [reflexivity | congruence].
Qed.

Lemma Map_set_values k v m :
  exists l, (Map_set k v m).*2 ≡ₚ v :: l ∧ l `sublist_of` m.*2.
Proof.
  induction m as [|[k' v'] m (l & Hperm & Hsub)]; simpl.
  - exists []. split; reflexivity.
  - destruct (decide (k = k')) as [->|Hne]; simpl.
    + exists m.*2. split; [reflexivity|]. now apply sublist_cons.
    + exists (v' :: l). split.
      * rewrite Hperm. apply Permutation_swap.
      * now apply sublist_skip.
Qed.

Lemma Map_delete_values k m : (Map_delete k m).*2 `sublist_of` m.*2.
Proof. unfold Map_delete. apply fmap_sublist, sublist_filter. Qed.

Lemma Map_delete_get_out {H : Type} (f : V -> H) k v m :
  NoDup (f <$> m.*2) -> Map_get k m = Some v ->
  f v ∉ f <$> (Map_delete k m).*2.
Proof.
  unfold Map_delete. induction m as [|[k' v'] m IH]; simpl; [discriminate|].
  intros Hnd Hget. apply NoDup_cons in Hnd as [Hfresh Hnd].
  rewrite filter_cons. simpl.
  destruct (decide (k = k')) as [->|Hne].
  - injection Hget as ->. rewrite decide_False by (intros Hk; now apply Hk).
    intros Hin. apply Hfresh.
    eapply elem_of_sublist; [exact Hin|].
    apply fmap_sublist, fmap_sublist, sublist_filter.
  - rewrite decide_True by congruence. simpl.
    rewrite not_elem_of_cons. split; [|now apply IH].
    intros Heq. apply Hfresh. rewrite <- Heq.
    apply list_elem_of_fmap_2. apply Map_get_Some in Hget.
    now apply (list_elem_of_fmap_2 snd) in Hget.
Qed.

Lemma delete_each_nil {E} (es : list (JsVal * E)) m :
  (forall kv, kv ∈ m -> kv.1 ∈ es.*1) -> delete_each es m = [].
Proof.
  revert m. induction es as [|[k e] es IH]; intros m Hkeys.
  - destruct m as [|kv m]; [reflexivity|].
    exfalso. eapply not_elem_of_nil, (Hkeys kv). now left.
  - change (delete_each ((k, e) :: es) m) with (delete_each es (Map_delete k m)).
    apply IH. intros kv Hin. unfold Map_delete in Hin.
    apply list_elem_of_filter in Hin as [Hne Hin].
    apply Hkeys in Hin. rewrite fmap_cons in Hin.
    apply elem_of_cons in Hin as [Heq|Hin]; [now destruct Hne | exact Hin].
Qed.

Lemma delete_each_self m : delete_each m m = [].
Proof. apply delete_each_nil. intros kv Hin. now apply list_elem_of_fmap_2. Qed.
End JsMapFacts.

(** ** The spans held by a registry *)

Section Handles.
Context {V : Type} (f : V -> Span).
Implicit Types (m : JsMap V) (P Y : list Span).

Lemma handles_set P Y k v m :
  exists l, P ++ (f <$> Map_values (Map_set k v m)) ++ Y ≡ₚ f v :: l ∧
            l `sublist_of` P ++ (f <$> Map_values m) ++ Y.
Proof.
  unfold Map_values. destruct (Map_set_values k v m) as (l0 & Hperm & Hsub).
  exists (P ++ (f <$> l0) ++ Y). split.
  - rewrite Hperm, fmap_cons. simpl.
    now rewrite <- Permutation_middle.
  - apply sublist_app; [reflexivity|].
    apply sublist_app; [|reflexivity]. now apply fmap_sublist.
Qed.

Lemma handles_delete P Y k m :
  P ++ (f <$> Map_values (Map_delete k m)) ++ Y
    `sublist_of` P ++ (f <$> Map_values m) ++ Y.
Proof.
  apply sublist_app; [reflexivity|].
  apply sublist_app; [|reflexivity].
  apply fmap_sublist, Map_delete_values.
Qed.

Lemma handles_delete_out P Y k v m :
  NoDup (P ++ (f <$> Map_values m) ++ Y) -> Map_get k m = Some v ->
  f v ∉ P ++ (f <$> Map_values (Map_delete k m)) ++ Y.
Proof.
  intros Hnd Hget.
  assert (Hin : f v ∈ f <$> Map_values m).
  { apply list_elem_of_fmap_2. apply Map_get_Some in Hget.
    now apply (list_elem_of_fmap_2 snd) in Hget. }
  apply NoDup_app in Hnd as (_ & HP & Hnd).
  apply NoDup_app in Hnd as (Hm & HY & _).
  rewrite !not_elem_of_app. split; [|split].
  - intros HinP. apply (HP _ HinP). apply elem_of_app. now left.
  - now apply Map_delete_get_out.
  - now apply HY.
Qed.

Lemma handles_get_in P Y k v m :
  Map_get k m = Some v -> f v ∈ P ++ (f <$> Map_values m) ++ Y.
Proof.
  intros Hget. rewrite !elem_of_app. right. left.
  apply list_elem_of_fmap_2. apply Map_get_Some in Hget.
  now apply (list_elem_of_fmap_2 snd) in Hget.
Qed.

Lemma handles_set_last P k v m :
  exists l, P ++ (f <$> Map_values (Map_set k v m)) ≡ₚ f v :: l ∧
            l `sublist_of` P ++ (f <$> Map_values m).
Proof.
  destruct (handles_set P [] k v m) as (l & Hperm & Hsub).
  rewrite !app_nil_r in *. now exists l.
Qed.

Lemma handles_delete_last P k m :
  P ++ (f <$> Map_values (Map_delete k m)) `sublist_of` P ++ (f <$> Map_values m).
Proof. pose proof (handles_delete P [] k m) as Hsub. now rewrite !app_nil_r in Hsub. Qed.

Lemma handles_delete_out_last P k v m :
  NoDup (P ++ (f <$> Map_values m)) -> Map_get k m = Some v ->
  f v ∉ P ++ (f <$> Map_values (Map_delete k m)).
Proof.
  intros Hnd Hget. pose proof (handles_delete_out P [] k v m) as Hout.
  rewrite !app_nil_r in Hout. now apply Hout.
Qed.

Lemma handles_get_in_last P k v m :
  Map_get k m = Some v -> f v ∈ P ++ (f <$> Map_values m).
Proof.
  intros Hget. pose proof (handles_get_in P [] k v m Hget) as Hin.
  now rewrite !app_nil_r in Hin.
Qed.
End Handles.

(** Tactics that peel the span updates of a hook off a tracer. *)
Ltac keeps_ended :=
  solve [ intros; reflexivity | intros; apply rec_setAttributes_ended ].

Ltac live_peel :=
  repeat first
    [ apply live_alter_keep; [keeps_ended|]
    | apply live_alter_out; [assumption|] ].

Ltac live_peel_all := repeat (live_peel; try apply live_snoc).

Ltac count_peel :=
  repeat first
    [ rewrite end_count_alter_keep by keeps_ended
    | rewrite end_count_alter_ne by (rewrite ?length_alter; (assumption || lia))
    | rewrite end_count_snoc by (rewrite ?length_alter; (assumption || lia)) ].

(** Tactics that run a hook on a symbolic state: unfold the monad, then
    split on what the hook tests. *)
Ltac eff_unfold :=
  unfold marker_hook, when, truncateAttribute,
    js_length, js_JSON_stringify, js_String, try_catch, startSpan, setAttribute,
    setAttributes, setStatus, recordException, span_end, on_span, gets, modify,
    throw, mbind, mret, eff_bind, eff_ret.

Ltac hook_case :=
  match goal with
  | |- context [is_event ?i ?n] => destruct (is_event i n) eqn:?
  | |- context [Map_get ?k ?m] => destruct (Map_get k m) eqn:?
  | |- context [JSON_stringify ?v] => destruct (JSON_stringify v) eqn:?
  | |- context [String_of ?v] => destruct (String_of v) eqn:?
  | |- context [match prompt ?i with _ => _ end] => destruct (prompt i) eqn:?
  | |- context [js_or ?a ?b] => unfold js_or
  | |- context [truthy ?v] => destruct (truthy v) eqn:?
  | |- context [match error ?i with _ => _ end] => destruct (error i) eqn:?
  end.

(** ** The single-trace module *)

Module SingleTraceFacts.
Import SingleTrace.

Ltac single_unfold :=
  unfold hooks, onUserPromptSubmit, onSubagentStart, onSubagentStop, onPreToolUse,
    onPostToolUse, onPostToolUseFailure, set_agentSpans, set_toolSpans;
  eff_unfold.

Lemma single_Inv_root_lt tc st : Inv tc st -> rootSpan tc < List.length (st_tracer st).
Proof. intros [_ Hroot]. apply end_count_pos_lt. lia. Qed.

Lemma single_Inv_handle_not_root tc st h :
  Inv tc st -> h ∈ sessionSpan tc :: handles st -> h ≠ rootSpan tc.
Proof.
  intros [[_ Hall] Hroot] Hin Heq. rewrite Forall_forall in Hall.
  apply Hall, is_open_end_count in Hin. rewrite Heq in Hin. lia.
Qed.

(** Every hook, whether it returns or throws, keeps the invariant. *)
Lemma single_hooks_Inv tc ev input st : Inv tc st -> Inv tc (hooks tc ev input st).2.
Proof.
  intros HI.
  pose proof (single_Inv_root_lt _ _ HI) as Hroot_lt.
  assert (Hsess : sessionSpan tc ≠ rootSpan tc)
    by (apply (single_Inv_handle_not_root tc st); [exact HI | now left]).
  assert (Hreg : forall h, h ∈ handles st -> h ≠ rootSpan tc)
    by (intros h Hin; apply (single_Inv_handle_not_root tc st); [exact HI | now right]).
  destruct HI as [Hlive Hroot].
  pose proof (live_fresh _ _ Hlive) as Hfresh.
  destruct ev; single_unfold; simpl; repeat (hook_case; simpl);
    try (split; [exact Hlive | exact Hroot]).
  all: rewrite ?length_alter.
  all: try (split; simpl; [ live_peel_all; exact Hlive | count_peel; exact Hroot ]).
  all: match goal with
    | |- Inv _ (mkState _ (Map_set _ _ ?m) ?m') =>
        split; simpl;
        [ live_peel; eapply live_register; [exact Hlive | reflexivity |];
          apply (handles_set span [sessionSpan tc] (span <$> Map_values m'))
        | count_peel; exact Hroot ]
    | |- Inv _ (mkState _ ?m (Map_set _ _ _)) =>
        split; simpl;
        [ live_peel; eapply live_register; [exact Hlive | reflexivity |];
          apply (handles_set_last span (sessionSpan tc :: (span <$> Map_values m)))
        | count_peel; exact Hroot ]
    | Hget : Map_get ?k (agentSpans ?st) = Some ?s
      |- Inv _ (mkState _ (Map_delete ?k _) _) =>
        destruct Hlive as [Hnd Hall];
        assert (span s ∉ sessionSpan tc :: handles
          (mkState (st_tracer st) (Map_delete k (agentSpans st)) (toolSpans st)))
          by (apply (handles_delete_out span [sessionSpan tc]
                       (span <$> Map_values (toolSpans st))); assumption);
        assert (span s ≠ rootSpan tc)
          by (apply Hreg; now apply (handles_get_in span [] _ k));
        split; simpl;
        [ live_peel; eapply live_sublist; [|split; eassumption];
          apply (handles_delete span [sessionSpan tc] (span <$> Map_values (toolSpans st)))
        | count_peel; exact Hroot ]
    | Hget : Map_get ?k (toolSpans ?st) = Some ?s
      |- Inv _ (mkState _ _ (Map_delete ?k _)) =>
        destruct Hlive as [Hnd Hall];
        assert (span s ∉ sessionSpan tc :: handles
          (mkState (st_tracer st) (agentSpans st) (Map_delete k (toolSpans st))))
          by (apply (handles_delete_out_last span
                       (sessionSpan tc :: (span <$> Map_values (agentSpans st))));
              assumption);
        assert (span s ≠ rootSpan tc)
          by (apply Hreg;
              now apply (handles_get_in_last span
                           (span <$> Map_values (agentSpans st)) k));
        split; simpl;
        [ live_peel; eapply live_sublist; [|split; eassumption];
          apply (handles_delete_last span
                   (sessionSpan tc :: (span <$> Map_values (agentSpans st))))
        | count_peel; exact Hroot ]
    end.
Qed.

Lemma single_run_Inv tc events st : Inv tc st -> Inv tc (run tc events st).
Proof.
  revert st. unfold run.
  induction events as [|e events IH]; intros st HI; simpl; [exact HI|].
  apply IH, single_hooks_Inv, HI.
Qed.

(** [withAgentTelemetry] returns, and establishes the invariant. *)
Lemma single_withAgentTelemetry_Inv t :
  exists tc st, withAgentTelemetry (initial t) = (Normal tc, st) ∧ Inv tc st ∧
                agentSpans st = [] ∧ toolSpans st = [].
Proof.
  eexists _, _. split; [unfold withAgentTelemetry; eff_unfold; simpl; reflexivity|].
  split; [|split; reflexivity].
  split; simpl.
  - split.
    + unfold handles. simpl. apply NoDup_singleton.
    + unfold handles. simpl. constructor; [|constructor].
      eexists. split; [apply list_lookup_middle; reflexivity | reflexivity].
  - unfold end_count. rewrite lookup_app_l.
    + rewrite list_lookup_alter_eq, list_lookup_middle by reflexivity. reflexivity.
    + rewrite length_alter, length_app. simpl. lia.
Qed.

Lemma single_foldl_tools (es : list (JsVal * SpanEntry)) st :
  foldl (fun st e =>
           mkState (alter rec_end (span e.2)
                      (alter (rec_setStatus orphaned) (span e.2) (st_tracer st)))
                   (agentSpans st) (Map_delete e.1 (toolSpans st))) st es
  = mkState (swept es (st_tracer st)) (agentSpans st) (delete_each es (toolSpans st)).
Proof.
  revert st. induction es as [|[k d] es IH]; intros st; simpl.
  - now destruct st.
  - rewrite IH. simpl. unfold swept, sweep. simpl.
    now rewrite list_alter_alter_eq.
Qed.

Lemma single_foldl_agents (es : list (JsVal * SpanEntry)) st :
  foldl (fun st e =>
           mkState (alter rec_end (span e.2)
                      (alter (rec_setStatus orphaned) (span e.2) (st_tracer st)))
                   (Map_delete e.1 (agentSpans st)) (toolSpans st)) st es
  = mkState (swept es (st_tracer st)) (delete_each es (agentSpans st)) (toolSpans st).
Proof.
  revert st. induction es as [|[k d] es IH]; intros st; simpl.
  - now destruct st.
  - rewrite IH. simpl. unfold swept, sweep. simpl.
    now rewrite list_alter_alter_eq.
Qed.

(** [cleanup] returns, and this is the state it leaves. *)
Lemma single_cleanup_eq tc st :
  cleanup tc st =
  (Normal tt,
   mkState (alter (close_as span_OK) (sessionSpan tc)
              (swept (agentSpans st) (swept (toolSpans st) (st_tracer st))))
           [] []).
Proof.
  unfold cleanup, gets. unfold mbind at 1 2. unfold eff_bind at 1 2.
  erewrite (for_of_steps _ (fun e st =>
    mkState (alter rec_end (span e.2)
               (alter (rec_setStatus orphaned) (span e.2) (st_tracer st)))
            (agentSpans st) (Map_delete e.1 (toolSpans st))))
    by (intros [k d] st'; reflexivity).
  rewrite single_foldl_tools, delete_each_self.
  unfold mbind at 1 2. unfold eff_bind at 1 2. cbv beta iota. simpl agentSpans.
  erewrite (for_of_steps _ (fun e st =>
    mkState (alter rec_end (span e.2)
               (alter (rec_setStatus orphaned) (span e.2) (st_tracer st)))
            (Map_delete e.1 (agentSpans st)) (toolSpans st)))
    by (intros [k d] st'; reflexivity).
  rewrite single_foldl_agents, delete_each_self.
  eff_unfold. simpl. now rewrite list_alter_alter_eq.
Qed.

Lemma single_swept_lookup_out es t h :
  h ∉ span <$> Map_values es -> swept es t !! h = t !! h.
Proof.
  intros Hout. apply sweep_lookup_out. unfold Map_values in Hout.
  now rewrite <- list_fmap_compose in Hout.
Qed.

Lemma single_swept_lookup_in es t k d :
  NoDup (span <$> Map_values es) -> (k, d) ∈ es ->
  swept es t !! span d = close_as orphaned <$> t !! span d.
Proof.
  intros Hnd Hin. unfold Map_values in Hnd. rewrite <- list_fmap_compose in Hnd.
  apply (sweep_lookup_in (fun e => span e.2) (fun _ => close_as orphaned)
           es t (k, d) Hnd Hin).
Qed.

Lemma single_Inv_NoDup tc st :
  Inv tc st ->
  NoDup (span <$> Map_values (agentSpans st)) ∧
  NoDup (span <$> Map_values (toolSpans st)) ∧
  (forall h, h ∈ span <$> Map_values (agentSpans st) ->
             h ∉ span <$> Map_values (toolSpans st)) ∧
  sessionSpan tc ∉ handles st.
Proof.
  intros [[Hnd _] _]. apply NoDup_cons in Hnd as [Hs Hnd].
  apply NoDup_app in Hnd as (Ha & Hat & Ht). auto.
Qed.

(** The spans in the tool registry are closed by [cleanup] as orphans. *)
Lemma single_cleanup_tool_orphan tc st k d :
  Inv tc st -> (k, d) ∈ toolSpans st ->
  closed_with (st_tracer (cleanup tc st).2) (span d) orphaned.
Proof.
  intros HI Hin. destruct (single_Inv_NoDup _ _ HI) as (Ha & Ht & Hat & Hs).
  assert (Hd : span d ∈ span <$> Map_values (toolSpans st)).
  { apply list_elem_of_fmap_2. now apply (list_elem_of_fmap_2 snd) in Hin. }
  destruct HI as [[_ Hall] _]. rewrite Forall_forall in Hall.
  destruct (Hall (span d)) as (r & Hr & He).
  { right. apply elem_of_app. now right. }
  rewrite single_cleanup_eq. simpl. exists (close_as orphaned r). split; [|simpl; now rewrite He].
  rewrite list_lookup_alter_ne.
  2:{ intros Heq. apply Hs. rewrite Heq. apply elem_of_app. now right. }
  rewrite single_swept_lookup_out by (intros Hin'; now apply (Hat _ Hin')).
  rewrite (single_swept_lookup_in _ _ k) by assumption. now rewrite Hr.
Qed.

Lemma single_cleanup_agent_orphan tc st k d :
  Inv tc st -> (k, d) ∈ agentSpans st ->
  closed_with (st_tracer (cleanup tc st).2) (span d) orphaned.
Proof.
  intros HI Hin. destruct (single_Inv_NoDup _ _ HI) as (Ha & Ht & Hat & Hs).
  assert (Hd : span d ∈ span <$> Map_values (agentSpans st)).
  { apply list_elem_of_fmap_2. now apply (list_elem_of_fmap_2 snd) in Hin. }
  destruct HI as [[_ Hall] _]. rewrite Forall_forall in Hall.
  destruct (Hall (span d)) as (r & Hr & He).
  { right. apply elem_of_app. now left. }
  rewrite single_cleanup_eq. simpl. exists (close_as orphaned r). split; [|simpl; now rewrite He].
  rewrite list_lookup_alter_ne.
  2:{ intros Heq. apply Hs. rewrite Heq. apply elem_of_app. now left. }
  rewrite (single_swept_lookup_in _ _ k) by assumption.
  rewrite single_swept_lookup_out by now apply Hat. now rewrite Hr.
Qed.

(** [cleanup] closes the session span, with status OK. *)
Lemma single_cleanup_session tc st :
  Inv tc st -> closed_with (st_tracer (cleanup tc st).2) (sessionSpan tc) span_OK.
Proof.
  intros HI. destruct (single_Inv_NoDup _ _ HI) as (Ha & Ht & Hat & Hs).
  destruct HI as [[_ Hall] _]. apply Forall_cons in Hall as [(r & Hr & He) _].
  rewrite single_cleanup_eq. simpl. exists (close_as span_OK r). split; [|simpl; now rewrite He].
  rewrite list_lookup_alter_eq.
  rewrite !single_swept_lookup_out, Hr; [reflexivity| |].
  - intros Hin. apply Hs, elem_of_app. now right.
  - intros Hin. apply Hs, elem_of_app. now left.
Qed.

(** [cleanup] does not touch the root span. *)
Lemma single_cleanup_root tc st :
  Inv tc st ->
  end_count (st_tracer (cleanup tc st).2) (rootSpan tc) = 1.
Proof.
  intros HI.
  assert (Hne : forall h, h ∈ sessionSpan tc :: handles st -> h ≠ rootSpan tc)
    by (intros h; now apply single_Inv_handle_not_root).
  destruct HI as [_ Hroot]. rewrite single_cleanup_eq. simpl.
  rewrite end_count_alter_ne by (apply Hne; now left).
  unfold end_count in *. rewrite !single_swept_lookup_out; [exact Hroot| |].
  - intros Hin. eapply Hne; [|reflexivity]. right. apply elem_of_app. now right.
  - intros Hin. eapply Hne; [|reflexivity]. right. apply elem_of_app. now left.
Qed.
Lemma single_Inv_open tc st h : Inv tc st -> h ∈ handles st -> is_open (st_tracer st) h.
Proof.
  intros [[_ Hall] _] Hin. rewrite Forall_forall in Hall. apply Hall. now right.
Qed.

Lemma single_tool_handle st k d : Map_get k (toolSpans st) = Some d -> span d ∈ handles st.
Proof.
  intros Hget. apply (handles_get_in_last span (span <$> Map_values (agentSpans st)) k).
  exact Hget.
Qed.

Lemma single_agent_handle st k d : Map_get k (agentSpans st) = Some d -> span d ∈ handles st.
Proof. intros Hget. apply (handles_get_in span [] _ k). exact Hget. Qed.


(** A stop, complete or fail event for an id that is not registered
    changes nothing. *)
Lemma single_agent_stop_unknown tc input st :
  Map_get (agent_id input) (agentSpans st) = None ->
  hooks tc SubagentStop input st = (Normal (mkOutput true), st).
Proof.
  intros Hget. single_unfold. destruct (is_event _ _); simpl; [|reflexivity].
  now rewrite Hget.
Qed.

Lemma single_tool_stop_unknown tc ev input st :
  ev = PostToolUse ∨ ev = PostToolUseFailure ->
  Map_get (tool_use_id input) (toolSpans st) = None ->
  hooks tc ev input st = (Normal (mkOutput true), st).
Proof.
  intros [-> | ->] Hget; single_unfold; destruct (is_event _ _); simpl;
    try reflexivity; now rewrite Hget.
Qed.

(** A key enters a registry only through its start event. *)
Lemma single_agent_key_origin tc e st id :
  ¬ starts_agent id e ->
  Map_get id (agentSpans st) = None ->
  Map_get id (agentSpans (hooks tc (ev_hook e) (ev_input e) st).2) = None.
Proof.
  unfold starts_agent. intros Hno Hget.
  set (G := Map_get id) in *.
  destruct (ev_hook e) eqn:Hev; single_unfold; simpl; repeat (hook_case; simpl);
    subst G; try exact Hget; try congruence.
  - rewrite Map_get_set_ne; [exact Hget|]. intros Heq. apply Hno. auto.
  - destruct (decide (agent_id (ev_input e) = id)) as [->|Hne].
    + apply Map_get_delete_eq.
    + now rewrite Map_get_delete_ne.
Qed.

Lemma single_tool_key_origin tc e st id :
  ¬ starts_tool id e ->
  Map_get id (toolSpans st) = None ->
  Map_get id (toolSpans (hooks tc (ev_hook e) (ev_input e) st).2) = None.
Proof.
  unfold starts_tool. intros Hno Hget.
  set (G := Map_get id) in *.
  destruct (ev_hook e) eqn:Hev; single_unfold; simpl; repeat (hook_case; simpl);
    subst G; try exact Hget; try congruence.
  all: try (rewrite Map_get_set_ne; [exact Hget|]; intros Heq; apply Hno; now auto).
  all: destruct (decide (tool_use_id (ev_input e) = id)) as [->|Hne];
    [apply Map_get_delete_eq | now rewrite Map_get_delete_ne].
Qed.

Lemma single_run_agent_never_started tc events st id :
  Forall (fun e => ¬ starts_agent id e) events ->
  Map_get id (agentSpans st) = None ->
  Map_get id (agentSpans (run tc events st)) = None.
Proof.
  unfold run. intros Hall. revert st.
  induction Hall as [|e events He _ IH]; intros st Hget; simpl; [exact Hget|].
  apply IH. now apply single_agent_key_origin.
Qed.

Lemma single_run_tool_never_started tc events st id :
  Forall (fun e => ¬ starts_tool id e) events ->
  Map_get id (toolSpans st) = None ->
  Map_get id (toolSpans (run tc events st)) = None.
Proof.
  unfold run. intros Hall. revert st.
  induction Hall as [|e events He _ IH]; intros st Hget; simpl; [exact Hget|].
  apply IH. now apply single_tool_key_origin.
Qed.


(** What the failure hook does to a registered tool span. *)
Lemma single_tool_failure_found tc input st d :
  Inv tc st ->
  is_event input "PostToolUseFailure" = true ->
  Map_get (tool_use_id input) (toolSpans st) = Some d ->
  let out := hooks tc PostToolUseFailure input st in
  let failed := mkStatus ERROR (Some (truncate (error_text input) 256)) in
  out.1 = Normal (mkOutput true) ∧
  Map_get (tool_use_id input) (toolSpans out.2) = None ∧
  exists r, st_tracer out.2 !! span d = Some r ∧
    span_attributes r !! "tool.error"
      = Some (AttrJs (JString (truncate (error_text input) MAX_ATTRIBUTE_LENGTH))) ∧
    span_attributes r !! "tool.success" = Some (AttrBoolean false) ∧
    last (span_exceptions r) = Some (error_text input) ∧
    span_status r = failed ∧
    span_ended r = [failed].
Proof.
  intros HI Hev Hget.
  destruct (single_Inv_open tc st (span d) HI (single_tool_handle _ _ _ Hget)) as (r & Hr & He).
  unfold error_text. single_unfold. simpl. rewrite Hev. simpl. rewrite Hget.
  unfold js_or. destruct (truthy (error input)) eqn:Htr.
  - destruct (error input) as [|msg]; [discriminate|]. simpl.
    split; [reflexivity|]. split; [apply Map_get_delete_eq|].
    rewrite !list_lookup_alter_eq, Hr. simpl. eexists. split; [reflexivity|]. simpl.
    rewrite lookup_insert_eq, lookup_insert_ne, lookup_insert_eq by done.
    rewrite last_snoc, He. auto.
  - simpl. split; [reflexivity|]. split; [apply Map_get_delete_eq|].
    rewrite !list_lookup_alter_eq, Hr. simpl. eexists. split; [reflexivity|]. simpl.
    rewrite lookup_insert_eq, lookup_insert_ne, lookup_insert_eq by done.
    rewrite last_snoc, He. auto.
Qed.

(** What the stop hook does to a registered agent span. *)
Lemma single_agent_stop_found tc input st d :
  Inv tc st ->
  is_event input "SubagentStop" = true ->
  Map_get (agent_id input) (agentSpans st) = Some d ->
  let out := hooks tc SubagentStop input st in
  out.1 = Normal (mkOutput true) ∧
  Map_get (agent_id input) (agentSpans out.2) = None ∧
  closed_with (st_tracer out.2) (span d) span_OK.
Proof.
  intros HI Hev Hget.
  destruct (single_Inv_open tc st (span d) HI (single_agent_handle _ _ _ Hget)) as (r & Hr & He).
  single_unfold. simpl. rewrite Hev. simpl. rewrite Hget. simpl.
  split; [reflexivity|]. split; [apply Map_get_delete_eq|].
  eexists. rewrite !list_lookup_alter_eq, Hr. simpl. split; [reflexivity|].
  simpl. now rewrite He.
Qed.

(** What the post-use hook does to a registered tool span, when it
    returns. *)
Lemma single_tool_success_found tc input st d :
  Inv tc st ->
  is_event input "PostToolUse" = true ->
  Map_get (tool_use_id input) (toolSpans st) = Some d ->
  let out := hooks tc PostToolUse input st in
  out.1 = Normal (mkOutput true) ->
  Map_get (tool_use_id input) (toolSpans out.2) = None ∧
  closed_with (st_tracer out.2) (span d) span_OK.
Proof.
  intros HI Hev Hget.
  destruct (single_Inv_open tc st (span d) HI (single_tool_handle _ _ _ Hget)) as (r & Hr & He).
  single_unfold. simpl. rewrite Hev. simpl. rewrite Hget. simpl.
  destruct (JSON_stringify (tool_response input)); simpl;
    try (destruct (String_of (tool_response input)); simpl);
    try discriminate.
  all: intros _; split; [apply Map_get_delete_eq|].
  all: eexists; rewrite !list_lookup_alter_eq, Hr; simpl; split; [reflexivity|].
  all: simpl; now rewrite He.
Qed.

(** The span the pre-use hook starts, and what it records on it. *)
Lemma single_tool_start_span tc input st :
  is_event input "PreToolUse" = true ->
  let out := hooks tc PreToolUse input st in
  let new := List.length (st_tracer st) in
  exists r, st_tracer out.2 !! new = Some r ∧
    span_parent r =
      match last (Map_values (agentSpans st)) with
      | Some lastEntry => context lastEntry
      | None => sessionSpanContext tc
      end ∧
    (forall s, serialized (tool_input input) = Some s ->
       out.1 = Normal (mkOutput true) ∧
       span_attributes r !! "tool.input"
         = Some (AttrJs (JString (truncate s MAX_ATTRIBUTE_LENGTH))) ∧
       Map_get (tool_use_id input) (toolSpans out.2)
         = Some (mkEntry new (SpanContext new))).
Proof.
  intros Hev. unfold serialized. single_unfold. simpl. rewrite Hev. simpl.
  destruct (JSON_stringify (tool_input input)) as [s| |] eqn:Hjson; simpl;
  [| | destruct (String_of (tool_input input)) as [s|] eqn:Hstr; simpl].
  all: eexists; rewrite ?list_lookup_alter_eq, list_lookup_middle by reflexivity; simpl.
  all: split; [reflexivity|]; split; [reflexivity|].
  all: intros s' Hs; try discriminate Hs; injection Hs as <-.
  all: split; [reflexivity|]; split; [|apply Map_get_set_eq].
  all: unfold rec_setAttributes; simpl.
  all: now rewrite ?lookup_insert_ne, lookup_insert_eq by done.
Qed.

Lemma single_Inv_annotate_root tc st f :
  (forall r, span_ended (f r) = span_ended r) ->
  Inv tc st ->
  Inv tc (mkState (alter f (rootSpan tc) (st_tracer st)) (agentSpans st) (toolSpans st)).
Proof.
  intros Hf [Hlive Hroot]. split; simpl.
  - now apply live_alter_keep.
  - now rewrite end_count_alter_keep.
Qed.

Lemma single_end_count_end (t : list SpanRecord) h :
  h < List.length t -> end_count (alter rec_end h t) h = S (end_count t h).
Proof.
  intros Hlt. unfold end_count. rewrite list_lookup_alter_eq.
  destruct (lookup_lt_is_Some_2 t h Hlt) as [r Hr]. now rewrite Hr.
Qed.

(** The root span's [end()] runs twice in every run of [main]. *)
Lemma single_main_root_end_count t events query_error :
  exists tc, (withAgentTelemetry (initial t)).1 = Normal tc ∧
    end_count (st_tracer (main events query_error (initial t)).2) (rootSpan tc) = 2.
Proof.
  destruct (single_withAgentTelemetry_Inv t) as (tc & st0 & Hinit & HI & _).
  exists tc. split; [now rewrite Hinit|].
  unfold main. unfold mbind at 1. unfold eff_bind at 1. rewrite Hinit.
  apply (single_run_Inv tc events) in HI.
  set (st1 := run tc events st0) in *.
  unfold mbind at 1. unfold eff_bind at 1. unfold modify at 1. fold st1.
  assert (Hend : forall st2, Inv tc st2 ->
    end_count (alter rec_end (rootSpan tc) (st_tracer (cleanup tc st2).2)) (rootSpan tc) = 2).
  { intros st2 HI2. rewrite single_end_count_end.
    - now rewrite single_cleanup_root.
    - apply end_count_pos_lt. rewrite single_cleanup_root by assumption. lia. }
  destruct query_error as [msg|].
  - pose proof (single_Inv_annotate_root tc st1
      (rec_recordException (stripAnsiCodes_string msg)
         ∘ rec_setStatus (mkStatus ERROR (Some (stripAnsiCodes_string msg))))
      (fun _ => eq_refl) HI) as HI2.
    specialize (Hend _ HI2).
    eff_unfold. simpl. rewrite single_cleanup_eq in *. simpl in *.
    rewrite list_alter_alter_eq. exact Hend.
  - pose proof (single_Inv_annotate_root tc st1 (rec_setStatus span_OK) (fun _ => eq_refl) HI) as HI2.
    specialize (Hend _ HI2).
    eff_unfold. simpl. rewrite single_cleanup_eq in *. simpl in *. exact Hend.
Qed.
End SingleTraceFacts.

(** ** The by-agent module *)

Module ByAgentFacts.
Import ByAgent.

Ltac byagent_unfold :=
  unfold hooks, onUserPromptSubmit, onSubagentStart, onSubagentStop, onPreToolUse,
    onPostToolUse, onPostToolUseFailure, set_agentTraces, set_toolSpans,
    set_currentAgentId;
  eff_unfold.

Ltac byagent_case :=
  first [ hook_case
        | match goal with
          | |- context [bool_decide ?P] => destruct (bool_decide P) eqn:?
          end ].

(** Every hook, whether it returns or throws, keeps the invariant. *)
Lemma by_agent_hooks_Inv tc ev input st : Inv tc st -> Inv tc (hooks tc ev input st).2.
Proof.
  unfold Inv. intros Hlive.
  pose proof (live_fresh _ _ Hlive) as Hfresh.
  destruct ev; byagent_unfold; simpl; repeat (byagent_case; simpl);
    try exact Hlive.
  all: rewrite ?length_alter.
  all: try (live_peel_all; exact Hlive).
  all: match goal with
    | |- live _ (_ :: handles (mkState _ (Map_set _ _ ?m) ?m' _)) =>
        unfold handles; simpl;
        live_peel; eapply live_register; [exact Hlive | reflexivity |];
        apply (handles_set at_rootSpan [sessionSpan tc] (span <$> Map_values m'))
    | |- live _ (_ :: handles (mkState _ ?m (Map_set _ _ _) _)) =>
        unfold handles; simpl;
        live_peel; eapply live_register; [exact Hlive | reflexivity |];
        apply (handles_set_last span (sessionSpan tc :: (at_rootSpan <$> Map_values m)))
    | Hget : Map_get ?k (agentTraces ?st) = Some ?s
      |- live _ (_ :: handles (mkState _ (Map_delete ?k _) _ ?c)) =>
        destruct Hlive as [Hnd Hall];
        assert (at_rootSpan s ∉ sessionSpan tc :: handles
          (mkState (st_tracer st) (Map_delete k (agentTraces st)) (toolSpans st) c))
          by (apply (handles_delete_out at_rootSpan [sessionSpan tc]
                       (span <$> Map_values (toolSpans st))); assumption);
        live_peel; eapply live_sublist; [|split; eassumption];
        apply (handles_delete at_rootSpan [sessionSpan tc]
                 (span <$> Map_values (toolSpans st)))
    | Hget : Map_get ?k (toolSpans ?st) = Some ?s
      |- live _ (_ :: handles (mkState _ _ (Map_delete ?k _) ?c)) =>
        destruct Hlive as [Hnd Hall];
        assert (span s ∉ sessionSpan tc :: handles
          (mkState (st_tracer st) (agentTraces st) (Map_delete k (toolSpans st)) c))
          by (apply (handles_delete_out_last span
                       (sessionSpan tc :: (at_rootSpan <$> Map_values (agentTraces st))));
              assumption);
        live_peel; eapply live_sublist; [|split; eassumption];
        apply (handles_delete_last span
                 (sessionSpan tc :: (at_rootSpan <$> Map_values (agentTraces st))))
    end.
Qed.

Lemma by_agent_run_Inv tc events st : Inv tc st -> Inv tc (run tc events st).
Proof.
  revert st. unfold run.
  induction events as [|e events IH]; intros st HI; simpl; [exact HI|].
  apply IH, by_agent_hooks_Inv, HI.
Qed.

Lemma by_agent_withAgentTelemetry_Inv t :
  exists tc st, withAgentTelemetry (initial t) = (Normal tc, st) ∧ Inv tc st ∧
                agentTraces st = [] ∧ toolSpans st = [].
Proof.
  eexists _, _. split; [unfold withAgentTelemetry; eff_unfold; simpl; reflexivity|].
  split; [|split; reflexivity].
  unfold Inv, handles. simpl. split.
  - apply NoDup_singleton.
  - constructor; [|constructor].
    eexists. split; [apply list_lookup_middle; reflexivity | reflexivity].
Qed.

Lemma by_agent_foldl_tools (es : list (JsVal * ToolEntry)) st :
  foldl (fun st e =>
           mkState (alter rec_end (span e.2)
                      (alter (rec_setStatus orphaned) (span e.2) (st_tracer st)))
                   (agentTraces st) (Map_delete e.1 (toolSpans st))
                   (currentAgentId st)) st es
  = mkState (swept_tools es (st_tracer st)) (agentTraces st)
            (delete_each es (toolSpans st)) (currentAgentId st).
Proof.
  revert st. induction es as [|[k d] es IH]; intros st; simpl.
  - now destruct st.
  - rewrite IH. simpl. unfold swept_tools, sweep. simpl.
    now rewrite list_alter_alter_eq.
Qed.

Lemma by_agent_foldl_agents (es : list (JsVal * AgentTrace)) st :
  foldl (fun st e =>
           mkState (alter rec_end (at_rootSpan e.2)
                      (alter (rec_setStatus orphaned_trace) (at_rootSpan e.2)
                         (st_tracer st)))
                   (Map_delete e.1 (agentTraces st)) (toolSpans st)
                   (currentAgentId st)) st es
  = mkState (swept_agents es (st_tracer st)) (delete_each es (agentTraces st))
            (toolSpans st) (currentAgentId st).
Proof.
  revert st. induction es as [|[k d] es IH]; intros st; simpl.
  - now destruct st.
  - rewrite IH. simpl. unfold swept_agents, sweep. simpl.
    now rewrite list_alter_alter_eq.
Qed.

(** [cleanup] returns, and this is the state it leaves: the session span
    is not among the spans it touches. *)
Lemma by_agent_cleanup_eq st :
  cleanup st =
  (Normal tt,
   mkState (swept_agents (agentTraces st) (swept_tools (toolSpans st) (st_tracer st)))
           [] [] (currentAgentId st)).
Proof.
  unfold cleanup, gets. unfold mbind at 1 2. unfold eff_bind at 1 2.
  erewrite (for_of_steps _ (fun e st =>
    mkState (alter rec_end (span e.2)
               (alter (rec_setStatus orphaned) (span e.2) (st_tracer st)))
            (agentTraces st) (Map_delete e.1 (toolSpans st)) (currentAgentId st)))
    by (intros [k d] st'; reflexivity).
  rewrite by_agent_foldl_tools, delete_each_self.
  unfold mbind at 1. unfold eff_bind at 1. cbv beta iota. simpl agentTraces.
  erewrite (for_of_steps _ (fun e st =>
    mkState (alter rec_end (at_rootSpan e.2)
               (alter (rec_setStatus orphaned_trace) (at_rootSpan e.2) (st_tracer st)))
            (Map_delete e.1 (agentTraces st)) (toolSpans st) (currentAgentId st)))
    by (intros [k d] st'; reflexivity).
  now rewrite by_agent_foldl_agents, delete_each_self.
Qed.

Lemma by_agent_swept_tools_out es t h :
  h ∉ span <$> Map_values es -> swept_tools es t !! h = t !! h.
Proof.
  intros Hout. apply sweep_lookup_out. unfold Map_values in Hout.
  now rewrite <- list_fmap_compose in Hout.
Qed.

Lemma by_agent_swept_agents_out es t h :
  h ∉ at_rootSpan <$> Map_values es -> swept_agents es t !! h = t !! h.
Proof.
  intros Hout. apply sweep_lookup_out. unfold Map_values in Hout.
  now rewrite <- list_fmap_compose in Hout.
Qed.

Lemma by_agent_swept_tools_in es t k d :
  NoDup (span <$> Map_values es) -> (k, d) ∈ es ->
  swept_tools es t !! span d = close_as orphaned <$> t !! span d.
Proof.
  intros Hnd Hin. unfold Map_values in Hnd. rewrite <- list_fmap_compose in Hnd.
  apply (sweep_lookup_in (fun e => span e.2) (fun _ => close_as orphaned)
           es t (k, d) Hnd Hin).
Qed.

Lemma by_agent_swept_agents_in es t k d :
  NoDup (at_rootSpan <$> Map_values es) -> (k, d) ∈ es ->
  swept_agents es t !! at_rootSpan d = close_as orphaned_trace <$> t !! at_rootSpan d.
Proof.
  intros Hnd Hin. unfold Map_values in Hnd. rewrite <- list_fmap_compose in Hnd.
  apply (sweep_lookup_in (fun e => at_rootSpan e.2) (fun _ => close_as orphaned_trace)
           es t (k, d) Hnd Hin).
Qed.

Lemma by_agent_Inv_NoDup tc st :
  Inv tc st ->
  NoDup (at_rootSpan <$> Map_values (agentTraces st)) ∧
  NoDup (span <$> Map_values (toolSpans st)) ∧
  (forall h, h ∈ at_rootSpan <$> Map_values (agentTraces st) ->
             h ∉ span <$> Map_values (toolSpans st)) ∧
  sessionSpan tc ∉ handles st.
Proof.
  intros [Hnd _]. apply NoDup_cons in Hnd as [Hs Hnd].
  apply NoDup_app in Hnd as (Ha & Hat & Ht). auto.
Qed.

Lemma by_agent_Inv_open tc st h : Inv tc st -> h ∈ handles st -> is_open (st_tracer st) h.
Proof.
  intros [_ Hall] Hin. rewrite Forall_forall in Hall. apply Hall. now right.
Qed.

Lemma by_agent_tool_handle st k d : Map_get k (toolSpans st) = Some d -> span d ∈ handles st.
Proof.
  intros Hget.
  apply (handles_get_in_last span (at_rootSpan <$> Map_values (agentTraces st)) k).
  exact Hget.
Qed.

Lemma by_agent_agent_handle st k d :
  Map_get k (agentTraces st) = Some d -> at_rootSpan d ∈ handles st.
Proof. intros Hget. apply (handles_get_in at_rootSpan [] _ k). exact Hget. Qed.

(** The spans in the tool registry are closed by [cleanup] as orphans. *)
Lemma by_agent_cleanup_tool_orphan tc st k d :
  Inv tc st -> (k, d) ∈ toolSpans st ->
  closed_with (st_tracer (cleanup st).2) (span d) orphaned.
Proof.
  intros HI Hin. destruct (by_agent_Inv_NoDup _ _ HI) as (Ha & Ht & Hat & Hs).
  assert (Hd : span d ∈ span <$> Map_values (toolSpans st)).
  { apply list_elem_of_fmap_2. now apply (list_elem_of_fmap_2 snd) in Hin. }
  destruct (by_agent_Inv_open tc st (span d) HI) as (r & Hr & He).
  { apply elem_of_app. now right. }
  rewrite by_agent_cleanup_eq. simpl. exists (close_as orphaned r). split; [|simpl; now rewrite He].
  rewrite by_agent_swept_agents_out by (intros Hin'; now apply (Hat _ Hin')).
  rewrite (by_agent_swept_tools_in _ _ k) by assumption. now rewrite Hr.
Qed.

(** The agent root spans in the registry are closed by [cleanup] with
    the message "Orphaned agent trace". *)
Lemma by_agent_cleanup_agent_orphan tc st k d :
  Inv tc st -> (k, d) ∈ agentTraces st ->
  closed_with (st_tracer (cleanup st).2) (at_rootSpan d) orphaned_trace.
Proof.
  intros HI Hin. destruct (by_agent_Inv_NoDup _ _ HI) as (Ha & Ht & Hat & Hs).
  assert (Hd : at_rootSpan d ∈ at_rootSpan <$> Map_values (agentTraces st)).
  { apply list_elem_of_fmap_2. now apply (list_elem_of_fmap_2 snd) in Hin. }
  destruct (by_agent_Inv_open tc st (at_rootSpan d) HI) as (r & Hr & He).
  { apply elem_of_app. now left. }
  rewrite by_agent_cleanup_eq. simpl. exists (close_as orphaned_trace r).
  split; [|simpl; now rewrite He].
  rewrite (by_agent_swept_agents_in _ _ k) by assumption.
  rewrite by_agent_swept_tools_out by now apply Hat. now rewrite Hr.
Qed.

(** [cleanup] leaves the session span as it was. *)
Lemma by_agent_cleanup_session tc st :
  Inv tc st ->
  st_tracer (cleanup st).2 !! sessionSpan tc = st_tracer st !! sessionSpan tc.
Proof.
  intros HI. destruct (by_agent_Inv_NoDup _ _ HI) as (Ha & Ht & Hat & Hs).
  rewrite by_agent_cleanup_eq. simpl. rewrite by_agent_swept_agents_out, by_agent_swept_tools_out; [reflexivity| |].
  - intros Hin. apply Hs, elem_of_app. now right.
  - intros Hin. apply Hs, elem_of_app. now left.
Qed.


Lemma by_agent_agent_stop_unknown tc input st :
  Map_get (agent_id input) (agentTraces st) = None ->
  hooks tc SubagentStop input st = (Normal (mkOutput true), st).
Proof.
  intros Hget. byagent_unfold. destruct (is_event _ _); simpl; [|reflexivity].
  now rewrite Hget.
Qed.

Lemma by_agent_tool_stop_unknown tc ev input st :
  ev = PostToolUse ∨ ev = PostToolUseFailure ->
  Map_get (tool_use_id input) (toolSpans st) = None ->
  hooks tc ev input st = (Normal (mkOutput true), st).
Proof.
  intros [-> | ->] Hget; byagent_unfold; destruct (is_event _ _); simpl;
    try reflexivity; now rewrite Hget.
Qed.

Lemma by_agent_agent_key_origin tc e st id :
  ¬ starts_agent id e ->
  Map_get id (agentTraces st) = None ->
  Map_get id (agentTraces (hooks tc (ev_hook e) (ev_input e) st).2) = None.
Proof.
  unfold starts_agent. intros Hno Hget.
  set (G := Map_get id) in *.
  destruct (ev_hook e) eqn:Hev; byagent_unfold; simpl; repeat (byagent_case; simpl);
    subst G; try exact Hget; try congruence.
  all: try (rewrite Map_get_set_ne; [exact Hget|]; intros Heq; apply Hno; now auto).
  all: destruct (decide (agent_id (ev_input e) = id)) as [->|Hne];
    [apply Map_get_delete_eq | now rewrite Map_get_delete_ne].
Qed.

Lemma by_agent_tool_key_origin tc e st id :
  ¬ starts_tool id e ->
  Map_get id (toolSpans st) = None ->
  Map_get id (toolSpans (hooks tc (ev_hook e) (ev_input e) st).2) = None.
Proof.
  unfold starts_tool. intros Hno Hget.
  set (G := Map_get id) in *.
  destruct (ev_hook e) eqn:Hev; byagent_unfold; simpl; repeat (byagent_case; simpl);
    subst G; try exact Hget; try congruence.
  all: try (rewrite Map_get_set_ne; [exact Hget|]; intros Heq; apply Hno; now auto).
  all: destruct (decide (tool_use_id (ev_input e) = id)) as [->|Hne];
    [apply Map_get_delete_eq | now rewrite Map_get_delete_ne].
Qed.

Lemma by_agent_run_agent_never_started tc events st id :
  Forall (fun e => ¬ starts_agent id e) events ->
  Map_get id (agentTraces st) = None ->
  Map_get id (agentTraces (run tc events st)) = None.
Proof.
  unfold run. intros Hall. revert st.
  induction Hall as [|e events He _ IH]; intros st Hget; simpl; [exact Hget|].
  apply IH. now apply by_agent_agent_key_origin.
Qed.

Lemma by_agent_run_tool_never_started tc events st id :
  Forall (fun e => ¬ starts_tool id e) events ->
  Map_get id (toolSpans st) = None ->
  Map_get id (toolSpans (run tc events st)) = None.
Proof.
  unfold run. intros Hall. revert st.
  induction Hall as [|e events He _ IH]; intros st Hget; simpl; [exact Hget|].
  apply IH. now apply by_agent_tool_key_origin.
Qed.

(** What the failure hook does to a registered tool span. *)
Lemma by_agent_tool_failure_found tc input st d :
  Inv tc st ->
  is_event input "PostToolUseFailure" = true ->
  Map_get (tool_use_id input) (toolSpans st) = Some d ->
  let out := hooks tc PostToolUseFailure input st in
  let failed := mkStatus ERROR (Some (truncate (error_text input) 256)) in
  out.1 = Normal (mkOutput true) ∧
  Map_get (tool_use_id input) (toolSpans out.2) = None ∧
  exists r, st_tracer out.2 !! span d = Some r ∧
    span_attributes r !! "tool.error"
      = Some (AttrJs (JString (truncate (error_text input) MAX_ATTRIBUTE_LENGTH))) ∧
    span_attributes r !! "tool.success" = Some (AttrBoolean false) ∧
    last (span_exceptions r) = Some (error_text input) ∧
    span_status r = failed ∧
    span_ended r = [failed].
Proof.
  intros HI Hev Hget.
  destruct (by_agent_Inv_open tc st (span d) HI (by_agent_tool_handle _ _ _ Hget)) as (r & Hr & He).
  unfold error_text. byagent_unfold. simpl. rewrite Hev. simpl. rewrite Hget.
  unfold js_or. destruct (truthy (error input)) eqn:Htr.
  - destruct (error input) as [|msg]; [discriminate|]. simpl.
    split; [reflexivity|]. split; [apply Map_get_delete_eq|].
    rewrite !list_lookup_alter_eq, Hr. simpl. eexists. split; [reflexivity|]. simpl.
    rewrite lookup_insert_eq, lookup_insert_ne, lookup_insert_eq by done.
    rewrite last_snoc, He. auto.
  - simpl. split; [reflexivity|]. split; [apply Map_get_delete_eq|].
    rewrite !list_lookup_alter_eq, Hr. simpl. eexists. split; [reflexivity|]. simpl.
    rewrite lookup_insert_eq, lookup_insert_ne, lookup_insert_eq by done.
    rewrite last_snoc, He. auto.
Qed.

(** What the stop hook does to a registered agent trace. *)
Lemma by_agent_agent_stop_found tc input st d :
  Inv tc st ->
  is_event input "SubagentStop" = true ->
  Map_get (agent_id input) (agentTraces st) = Some d ->
  let out := hooks tc SubagentStop input st in
  out.1 = Normal (mkOutput true) ∧
  Map_get (agent_id input) (agentTraces out.2) = None ∧
  closed_with (st_tracer out.2) (at_rootSpan d) span_OK.
Proof.
  intros HI Hev Hget.
  destruct (by_agent_Inv_open tc st (at_rootSpan d) HI (by_agent_agent_handle _ _ _ Hget)) as (r & Hr & He).
  byagent_unfold. simpl. rewrite Hev. simpl. rewrite Hget. simpl.
  destruct (bool_decide _); simpl.
  all: split; [reflexivity|]; split; [apply Map_get_delete_eq|].
  all: eexists; rewrite !list_lookup_alter_eq, Hr; simpl; split; [reflexivity|].
  all: simpl; now rewrite He.
Qed.

(** What the post-use hook does to a registered tool span, when it
    returns. *)
Lemma by_agent_tool_success_found tc input st d :
  Inv tc st ->
  is_event input "PostToolUse" = true ->
  Map_get (tool_use_id input) (toolSpans st) = Some d ->
  let out := hooks tc PostToolUse input st in
  out.1 = Normal (mkOutput true) ->
  Map_get (tool_use_id input) (toolSpans out.2) = None ∧
  closed_with (st_tracer out.2) (span d) span_OK.
Proof.
  intros HI Hev Hget.
  destruct (by_agent_Inv_open tc st (span d) HI (by_agent_tool_handle _ _ _ Hget)) as (r & Hr & He).
  byagent_unfold. simpl. rewrite Hev. simpl. rewrite Hget. simpl.
  destruct (JSON_stringify (tool_response input)); simpl;
    try (destruct (String_of (tool_response input)); simpl);
    try discriminate.
  all: intros _; split; [apply Map_get_delete_eq|].
  all: eexists; rewrite !list_lookup_alter_eq, Hr; simpl; split; [reflexivity|].
  all: simpl; now rewrite He.
Qed.

(** The span the pre-use hook starts, and what it records on it. *)
Lemma by_agent_tool_start_span tc input st :
  is_event input "PreToolUse" = true ->
  let out := hooks tc PreToolUse input st in
  let new := List.length (st_tracer st) in
  let agentId := js_or (agent_id input) (currentAgentId st) in
  exists r, st_tracer out.2 !! new = Some r ∧
    span_parent r =
      match (if truthy agentId then Map_get agentId (agentTraces st) else None) with
      | Some agentTrace => at_sessionSpanContext agentTrace
      | None => sessionSpanContext tc
      end ∧
    (forall s, serialized (tool_input input) = Some s ->
       out.1 = Normal (mkOutput true) ∧
       span_attributes r !! "tool.input"
         = Some (AttrJs (JString (truncate s MAX_ATTRIBUTE_LENGTH))) ∧
       Map_get (tool_use_id input) (toolSpans out.2)
         = Some (mkEntry new (SpanContext new) agentId)).
Proof.
  intros Hev. unfold serialized. byagent_unfold. simpl. rewrite Hev. simpl.
  destruct (JSON_stringify (tool_input input)) as [s| |] eqn:Hjson; simpl;
  [| | destruct (String_of (tool_input input)) as [s|] eqn:Hstr; simpl].
  all: destruct (truthy (js_or (agent_id input) (currentAgentId st))) eqn:Htr; simpl.
  all: eexists; rewrite ?list_lookup_alter_eq, list_lookup_middle by reflexivity; simpl.
  all: split; [reflexivity|]; split; [reflexivity|].
  all: intros s' Hs; try discriminate Hs; injection Hs as <-.
  all: split; [reflexivity|]; split; [|apply Map_get_set_eq].
  all: unfold rec_setAttributes; simpl.
  all: now rewrite ?lookup_insert_ne, lookup_insert_eq by done.
Qed.

Lemma by_agent_Inv_session_open tc st : Inv tc st -> is_open (st_tracer st) (sessionSpan tc).
Proof. intros [_ Hall]. now apply Forall_cons in Hall as [Ho _]. Qed.

(** In every run of [main] the session span is still open at the end:
    nothing calls its [end()]. *)
Lemma by_agent_main_session_open t events query_error :
  exists tc, (withAgentTelemetry (initial t)).1 = Normal tc ∧
    is_open (st_tracer (main events query_error (initial t)).2) (sessionSpan tc).
Proof.
  destruct (by_agent_withAgentTelemetry_Inv t) as (tc & st0 & Hinit & HI & _).
  exists tc. split; [now rewrite Hinit|].
  unfold main. unfold mbind at 1. unfold eff_bind at 1. rewrite Hinit.
  apply (by_agent_run_Inv tc events) in HI.
  set (st1 := run tc events st0) in *.
  unfold mbind at 1. unfold eff_bind at 1. unfold modify at 1. fold st1.
  assert (Hend : forall st2, Inv tc st2 ->
    is_open (st_tracer (cleanup st2).2) (sessionSpan tc)).
  { intros st2 HI2. destruct (by_agent_Inv_session_open tc st2 HI2) as (r & Hr & He).
    exists r. now rewrite (by_agent_cleanup_session tc). }
  destruct query_error as [msg|].
  - assert (HI2 : Inv tc
      (mkState
         (alter rec_end (List.length (st_tracer st1))
            (alter (rec_recordException msg) (List.length (st_tracer st1))
               (alter (rec_setStatus (mkStatus ERROR (Some msg)))
                  (List.length (st_tracer st1))
                  (st_tracer st1 ++ [new_span "agent.error" ROOT_CONTEXT]))))
         (agentTraces st1) (toolSpans st1) (currentAgentId st1))).
    { unfold Inv in *. pose proof (live_fresh _ _ HI) as Hfresh.
      unfold handles in *. simpl. live_peel_all. exact HI. }
    specialize (Hend _ HI2). eff_unfold. simpl. rewrite ?length_alter.
    rewrite by_agent_cleanup_eq in *. exact Hend.
  - specialize (Hend _ HI). eff_unfold. simpl. rewrite by_agent_cleanup_eq in *. exact Hend.
Qed.
End ByAgentFacts.

(** ** The individual-traces module *)

Module IndividualTracesFacts.
Import IndividualTraces.

Ltac individual_unfold :=
  unfold hooks, marker, onUserPromptSubmit, onSubagentStart, onSubagentStop,
    onPreToolUse, onPostToolUse, onPostToolUseFailure, set_agentSpans,
    set_toolSpans, Date_now;
  eff_unfold.

(** Every hook, whether it returns or throws, keeps the invariant. *)
Lemma individual_hooks_Inv ev input st : Inv st -> Inv (hooks ev input st).2.
Proof.
  unfold Inv. intros Hlive.
  pose proof (live_fresh _ _ Hlive) as Hfresh.
  destruct ev; individual_unfold; simpl; repeat (hook_case; simpl);
    try exact Hlive.
  all: rewrite ?length_alter.
  all: try (live_peel_all; exact Hlive).
  all: match goal with
    | |- live _ (handles (mkState _ (Map_set _ _ ?m) ?m' _)) =>
        unfold handles; simpl;
        live_peel; eapply live_register; [exact Hlive | reflexivity |];
        apply (handles_set span [] (span <$> Map_values m'))
    | |- live _ (handles (mkState _ ?m (Map_set _ _ _) _)) =>
        unfold handles; simpl;
        live_peel; eapply live_register; [exact Hlive | reflexivity |];
        apply (handles_set_last span (span <$> Map_values m))
    | Hget : Map_get ?k (agentSpans ?st) = Some ?s
      |- live _ (handles (mkState _ (Map_delete ?k _) _ ?c)) =>
        destruct Hlive as [Hnd Hall];
        assert (span s ∉ handles
          (mkState (st_tracer st) (Map_delete k (agentSpans st)) (toolSpans st) c))
          by (apply (handles_delete_out span [] (span <$> Map_values (toolSpans st)));
              assumption);
        live_peel; eapply live_sublist; [|split; eassumption];
        apply (handles_delete span [] (span <$> Map_values (toolSpans st)))
    | Hget : Map_get ?k (toolSpans ?st) = Some ?s
      |- live _ (handles (mkState _ _ (Map_delete ?k _) ?c)) =>
        destruct Hlive as [Hnd Hall];
        assert (span s ∉ handles
          (mkState (st_tracer st) (agentSpans st) (Map_delete k (toolSpans st)) c))
          by (apply (handles_delete_out_last span (span <$> Map_values (agentSpans st)));
              assumption);
        live_peel; eapply live_sublist; [|split; eassumption];
        apply (handles_delete_last span (span <$> Map_values (agentSpans st)))
    end.
Qed.

Lemma individual_set_clock_Inv now st : Inv st -> Inv (set_clock now st).
Proof. intros HI. exact HI. Qed.

Lemma individual_run_Inv events st : Inv st -> Inv (run events st).
Proof.
  revert st. unfold run.
  induction events as [|e events IH]; intros st HI; simpl; [exact HI|].
  apply IH, individual_hooks_Inv, individual_set_clock_Inv, HI.
Qed.

Lemma individual_initial_Inv t now : Inv (initial t now).
Proof. split; [apply NoDup_nil_2 | constructor]. Qed.

Lemma individual_foldl_tools now (es : list (JsVal * SpanData)) st :
  st_clock st = now ->
  foldl (fun st e =>
           mkState (alter rec_end (span e.2)
                      (alter (rec_setStatus orphaned) (span e.2)
                         (alter (rec_setAttribute "duration_ms"
                                   (AttrNumber (st_clock st - startTime e.2)%Z))
                            (span e.2) (st_tracer st))))
                   (agentSpans st) (Map_delete e.1 (toolSpans st)) (st_clock st)) st es
  = mkState (swept now es (st_tracer st)) (agentSpans st)
            (delete_each es (toolSpans st)) now.
Proof.
  revert st. induction es as [|[k d] es IH]; intros st Hnow; simpl.
  - destruct st. simpl in Hnow. now subst.
  - rewrite IH by exact Hnow. simpl. unfold swept, sweep. simpl.
    now rewrite !list_alter_alter_eq, Hnow.
Qed.

Lemma individual_foldl_agents now (es : list (JsVal * SpanData)) st :
  st_clock st = now ->
  foldl (fun st e =>
           mkState (alter rec_end (span e.2)
                      (alter (rec_setStatus orphaned) (span e.2)
                         (alter (rec_setAttribute "duration_ms"
                                   (AttrNumber (st_clock st - startTime e.2)%Z))
                            (span e.2) (st_tracer st))))
                   (Map_delete e.1 (agentSpans st)) (toolSpans st) (st_clock st)) st es
  = mkState (swept now es (st_tracer st)) (delete_each es (agentSpans st))
            (toolSpans st) now.
Proof.
  revert st. induction es as [|[k d] es IH]; intros st Hnow; simpl.
  - destruct st. simpl in Hnow. now subst.
  - rewrite IH by exact Hnow. simpl. unfold swept, sweep. simpl.
    now rewrite !list_alter_alter_eq, Hnow.
Qed.

(** [cleanup] returns, and this is the state it leaves. *)
Lemma individual_cleanup_eq st :
  cleanup st =
  (Normal tt,
   mkState (swept (st_clock st) (agentSpans st)
              (swept (st_clock st) (toolSpans st) (st_tracer st)))
           [] [] (st_clock st)).
Proof.
  unfold cleanup, gets. unfold mbind at 1 2. unfold eff_bind at 1 2.
  erewrite (for_of_steps _ (fun e st =>
    mkState (alter rec_end (span e.2)
               (alter (rec_setStatus orphaned) (span e.2)
                  (alter (rec_setAttribute "duration_ms"
                            (AttrNumber (st_clock st - startTime e.2)%Z))
                     (span e.2) (st_tracer st))))
            (agentSpans st) (Map_delete e.1 (toolSpans st)) (st_clock st)))
    by (intros [k d] st'; reflexivity).
  rewrite (individual_foldl_tools (st_clock st)), delete_each_self by reflexivity.
  unfold mbind at 1. unfold eff_bind at 1. cbv beta iota. simpl agentSpans.
  erewrite (for_of_steps _ (fun e st =>
    mkState (alter rec_end (span e.2)
               (alter (rec_setStatus orphaned) (span e.2)
                  (alter (rec_setAttribute "duration_ms"
                            (AttrNumber (st_clock st - startTime e.2)%Z))
                     (span e.2) (st_tracer st))))
            (Map_delete e.1 (agentSpans st)) (toolSpans st) (st_clock st)))
    by (intros [k d] st'; reflexivity).
  now rewrite (individual_foldl_agents (st_clock st)), delete_each_self by reflexivity.
Qed.

Lemma individual_swept_lookup_out now es t h :
  h ∉ span <$> Map_values es -> swept now es t !! h = t !! h.
Proof.
  intros Hout. apply sweep_lookup_out. unfold Map_values in Hout.
  now rewrite <- list_fmap_compose in Hout.
Qed.

Lemma individual_swept_lookup_in now es t k d :
  NoDup (span <$> Map_values es) -> (k, d) ∈ es ->
  swept now es t !! span d = close_orphan now d <$> t !! span d.
Proof.
  intros Hnd Hin. unfold Map_values in Hnd. rewrite <- list_fmap_compose in Hnd.
  apply (sweep_lookup_in (fun e => span e.2) (fun e => close_orphan now e.2)
           es t (k, d) Hnd Hin).
Qed.

Lemma individual_Inv_NoDup st :
  Inv st ->
  NoDup (span <$> Map_values (agentSpans st)) ∧
  NoDup (span <$> Map_values (toolSpans st)) ∧
  (forall h, h ∈ span <$> Map_values (agentSpans st) ->
             h ∉ span <$> Map_values (toolSpans st)).
Proof. intros [Hnd _]. apply NoDup_app in Hnd as (Ha & Hat & Ht). auto. Qed.

Lemma individual_Inv_open st h : Inv st -> h ∈ handles st -> is_open (st_tracer st) h.
Proof. intros [_ Hall] Hin. rewrite Forall_forall in Hall. now apply Hall. Qed.

Lemma individual_tool_handle st k d : Map_get k (toolSpans st) = Some d -> span d ∈ handles st.
Proof.
  intros Hget. apply (handles_get_in_last span (span <$> Map_values (agentSpans st)) k).
  exact Hget.
Qed.

Lemma individual_agent_handle st k d : Map_get k (agentSpans st) = Some d -> span d ∈ handles st.
Proof. intros Hget. apply (handles_get_in span [] _ k). exact Hget. Qed.

(** The spans in the tool registry are closed by [cleanup] as orphans. *)
Lemma individual_cleanup_tool_orphan st k d :
  Inv st -> (k, d) ∈ toolSpans st ->
  closed_with (st_tracer (cleanup st).2) (span d) orphaned.
Proof.
  intros HI Hin. destruct (individual_Inv_NoDup _ HI) as (Ha & Ht & Hat).
  assert (Hd : span d ∈ span <$> Map_values (toolSpans st)).
  { apply list_elem_of_fmap_2. now apply (list_elem_of_fmap_2 snd) in Hin. }
  destruct (individual_Inv_open st (span d) HI) as (r & Hr & He).
  { apply elem_of_app. now right. }
  rewrite individual_cleanup_eq. simpl. eexists. split.
  - rewrite individual_swept_lookup_out by (intros Hin'; now apply (Hat _ Hin')).
    rewrite (individual_swept_lookup_in _ _ _ k) by assumption. now rewrite Hr.
  - simpl. now rewrite He.
Qed.

Lemma individual_cleanup_agent_orphan st k d :
  Inv st -> (k, d) ∈ agentSpans st ->
  closed_with (st_tracer (cleanup st).2) (span d) orphaned.
Proof.
  intros HI Hin. destruct (individual_Inv_NoDup _ HI) as (Ha & Ht & Hat).
  assert (Hd : span d ∈ span <$> Map_values (agentSpans st)).
  { apply list_elem_of_fmap_2. now apply (list_elem_of_fmap_2 snd) in Hin. }
  destruct (individual_Inv_open st (span d) HI) as (r & Hr & He).
  { apply elem_of_app. now left. }
  rewrite individual_cleanup_eq. simpl. eexists. split.
  - rewrite (individual_swept_lookup_in _ _ _ k) by assumption.
    rewrite individual_swept_lookup_out by now apply Hat. now rewrite Hr.
  - simpl. now rewrite He.
Qed.

Lemma individual_hooks_return ev input st :
  well_formed ev input = true ->
  (hooks ev input st).1 = Normal (mkOutput true).
Proof.
  unfold well_formed, serialized. intros Hwf.
  destruct ev; individual_unfold; simpl; repeat (hook_case; simpl);
    try reflexivity; try discriminate.
Qed.

Lemma individual_agent_stop_unknown input st :
  Map_get (agent_id input) (agentSpans st) = None ->
  hooks SubagentStop input st = (Normal (mkOutput true), st).
Proof.
  intros Hget. individual_unfold. destruct (is_event _ _); simpl; [|reflexivity].
  now rewrite Hget.
Qed.

Lemma individual_tool_stop_unknown ev input st :
  ev = PostToolUse ∨ ev = PostToolUseFailure ->
  Map_get (tool_use_id input) (toolSpans st) = None ->
  hooks ev input st = (Normal (mkOutput true), st).
Proof.
  intros [-> | ->] Hget; individual_unfold; destruct (is_event _ _); simpl;
    try reflexivity; now rewrite Hget.
Qed.

Lemma individual_agent_key_origin e st id :
  ¬ starts_agent id e ->
  Map_get id (agentSpans st) = None ->
  Map_get id (agentSpans (hooks (ev_hook e) (ev_input e) st).2) = None.
Proof.
  unfold starts_agent. intros Hno Hget.
  set (G := Map_get id) in *.
  destruct (ev_hook e) eqn:Hev; individual_unfold; simpl; repeat (hook_case; simpl);
    subst G; try exact Hget; try congruence.
  all: try (rewrite Map_get_set_ne; [exact Hget|]; intros Heq; apply Hno; now auto).
  all: destruct (decide (agent_id (ev_input e) = id)) as [->|Hne];
    [apply Map_get_delete_eq | now rewrite Map_get_delete_ne].
Qed.

Lemma individual_tool_key_origin e st id :
  ¬ starts_tool id e ->
  Map_get id (toolSpans st) = None ->
  Map_get id (toolSpans (hooks (ev_hook e) (ev_input e) st).2) = None.
Proof.
  unfold starts_tool. intros Hno Hget.
  set (G := Map_get id) in *.
  destruct (ev_hook e) eqn:Hev; individual_unfold; simpl; repeat (hook_case; simpl);
    subst G; try exact Hget; try congruence.
  all: try (rewrite Map_get_set_ne; [exact Hget|]; intros Heq; apply Hno; now auto).
  all: destruct (decide (tool_use_id (ev_input e) = id)) as [->|Hne];
    [apply Map_get_delete_eq | now rewrite Map_get_delete_ne].
Qed.

Lemma individual_run_agent_never_started events st id :
  Forall (fun e => ¬ starts_agent id e) events ->
  Map_get id (agentSpans st) = None ->
  Map_get id (agentSpans (run events st)) = None.
Proof.
  unfold run. intros Hall. revert st.
  induction Hall as [|e events He _ IH]; intros st Hget; simpl; [exact Hget|].
  apply IH. now apply individual_agent_key_origin.
Qed.

Lemma individual_run_tool_never_started events st id :
  Forall (fun e => ¬ starts_tool id e) events ->
  Map_get id (toolSpans st) = None ->
  Map_get id (toolSpans (run events st)) = None.
Proof.
  unfold run. intros Hall. revert st.
  induction Hall as [|e events He _ IH]; intros st Hget; simpl; [exact Hget|].
  apply IH. now apply individual_tool_key_origin.
Qed.

(** What the failure hook does to a registered tool span: it neither
    records the error text nor an exception. *)
Lemma individual_tool_failure_found input st d :
  Inv st ->
  is_event input "PostToolUseFailure" = true ->
  Map_get (tool_use_id input) (toolSpans st) = Some d ->
  let out := hooks PostToolUseFailure input st in
  out.1 = Normal (mkOutput true) ∧
  Map_get (tool_use_id input) (toolSpans out.2) = None ∧
  exists r0 r, st_tracer st !! span d = Some r0 ∧
    st_tracer out.2 !! span d = Some r ∧
    span_attributes r !! "duration_ms"
      = Some (AttrNumber (st_clock st - startTime d)%Z) ∧
    span_attributes r !! "tool.success" = Some (AttrBoolean false) ∧
    span_attributes r !! "tool.error" = span_attributes r0 !! "tool.error" ∧
    span_exceptions r = span_exceptions r0 ∧
    span_status r = tool_failed ∧
    span_ended r = [tool_failed].
Proof.
  intros HI Hev Hget.
  destruct (individual_Inv_open st (span d) HI (individual_tool_handle _ _ _ Hget)) as (r & Hr & He).
  individual_unfold. simpl. rewrite Hev. simpl. rewrite Hget. simpl.
  split; [reflexivity|]. split; [apply Map_get_delete_eq|].
  rewrite !list_lookup_alter_eq, Hr. simpl. eexists _, _.
  split; [reflexivity|]. split; [reflexivity|]. simpl.
  rewrite He. repeat split.
  - now rewrite lookup_insert_ne, lookup_insert_eq by done.
  - now rewrite lookup_insert_eq.
  - now rewrite !lookup_insert_ne by done.
Qed.

Lemma individual_agent_stop_found input st d :
  Inv st ->
  is_event input "SubagentStop" = true ->
  Map_get (agent_id input) (agentSpans st) = Some d ->
  let out := hooks SubagentStop input st in
  out.1 = Normal (mkOutput true) ∧
  Map_get (agent_id input) (agentSpans out.2) = None ∧
  closed_with (st_tracer out.2) (span d) span_OK.
Proof.
  intros HI Hev Hget.
  destruct (individual_Inv_open st (span d) HI (individual_agent_handle _ _ _ Hget)) as (r & Hr & He).
  individual_unfold. simpl. rewrite Hev. simpl. rewrite Hget. simpl.
  split; [reflexivity|]. split; [apply Map_get_delete_eq|].
  eexists. rewrite !list_lookup_alter_eq, Hr. simpl. split; [reflexivity|].
  simpl. now rewrite He.
Qed.

Lemma individual_tool_success_found input st d :
  Inv st ->
  is_event input "PostToolUse" = true ->
  Map_get (tool_use_id input) (toolSpans st) = Some d ->
  let out := hooks PostToolUse input st in
  out.1 = Normal (mkOutput true) ->
  Map_get (tool_use_id input) (toolSpans out.2) = None ∧
  closed_with (st_tracer out.2) (span d) span_OK.
Proof.
  intros HI Hev Hget.
  destruct (individual_Inv_open st (span d) HI (individual_tool_handle _ _ _ Hget)) as (r & Hr & He).
  individual_unfold. simpl. rewrite Hev. simpl. rewrite Hget. simpl.
  destruct (JSON_stringify (tool_response input)); simpl;
    try (destruct (String_of (tool_response input)); simpl);
    try discriminate.
  all: intros _; split; [apply Map_get_delete_eq|].
  all: eexists; rewrite !list_lookup_alter_eq, Hr; simpl; split; [reflexivity|].
  all: simpl; now rewrite He.
Qed.

(** The span the pre-use hook starts, and what it records on it. *)
Lemma individual_tool_start_span input st :
  is_event input "PreToolUse" = true ->
  let out := hooks PreToolUse input st in
  let new := List.length (st_tracer st) in
  exists r, st_tracer out.2 !! new = Some r ∧
    span_parent r = ROOT_CONTEXT ∧
    (forall s, serialized (tool_input input) = Some s ->
       out.1 = Normal (mkOutput true) ∧
       span_attributes r !! "tool.input"
         = Some (AttrJs (JString (truncate s MAX_ATTRIBUTE_LENGTH))) ∧
       Map_get (tool_use_id input) (toolSpans out.2)
         = Some (mkData new (st_clock st))).
Proof.
  intros Hev. unfold serialized. individual_unfold. simpl. rewrite Hev. simpl.
  destruct (JSON_stringify (tool_input input)) as [s| |] eqn:Hjson; simpl;
  [| | destruct (String_of (tool_input input)) as [s|] eqn:Hstr; simpl].
  all: eexists; rewrite ?list_lookup_alter_eq, list_lookup_middle by reflexivity; simpl.
  all: split; [reflexivity|]; split; [reflexivity|].
  all: intros s' Hs; try discriminate Hs; injection Hs as <-.
  all: split; [reflexivity|]; split; [|apply Map_get_set_eq].
  all: unfold rec_setAttributes; simpl.
  all: now rewrite ?lookup_insert_ne, lookup_insert_eq by done.
Qed.
End IndividualTracesFacts.

(** * The claims *)

Lemma single_reached_Inv t events tc st :
  SingleTrace.reached t events = Some (tc, st) -> SingleTrace.Inv tc st.
Proof.
  unfold SingleTrace.reached.
  destruct (SingleTraceFacts.single_withAgentTelemetry_Inv t) as (tc0 & st0 & -> & HI & _).
  intros [= <- <-]. now apply SingleTraceFacts.single_run_Inv.
Qed.

Lemma single_reached_total t events :
  exists tc st, SingleTrace.reached t events = Some (tc, st).
Proof.
  unfold SingleTrace.reached.
  destruct (SingleTraceFacts.single_withAgentTelemetry_Inv t) as (tc0 & st0 & -> & _).
  eauto.
Qed.

Lemma by_agent_reached_Inv t events tc st :
  ByAgent.reached t events = Some (tc, st) -> ByAgent.Inv tc st.
Proof.
  unfold ByAgent.reached.
  destruct (ByAgentFacts.by_agent_withAgentTelemetry_Inv t) as (tc0 & st0 & -> & HI & _).
  intros [= <- <-]. now apply ByAgentFacts.by_agent_run_Inv.
Qed.

Lemma by_agent_reached_total t events :
  exists tc st, ByAgent.reached t events = Some (tc, st).
Proof.
  unfold ByAgent.reached.
  destruct (ByAgentFacts.by_agent_withAgentTelemetry_Inv t) as (tc0 & st0 & -> & _).
  eauto.
Qed.

Lemma individual_reached_Inv t events :
  IndividualTraces.Inv (IndividualTraces.reached t events).
Proof. apply IndividualTracesFacts.individual_run_Inv, IndividualTracesFacts.individual_initial_Inv. Qed.

(** C1. The claim is that every span the tracker opens, the root and
    session spans included, has [end()] called exactly once across the
    hooks, [cleanup] and the entry point.  In the single-trace module the
    root span is ended by [withAgentTelemetry] as soon as it is created and
    ended again by the [finally] block of [main]: whatever the events and
    whether or not the query fails, [end()] has run twice on the root span
    when [main] is done. *)
Theorem single_trace_root_span_ended_twice
    (t : list SpanRecord) (events : list Event) (query_error : option string) :
  exists tc,
    (SingleTrace.withAgentTelemetry (SingleTrace.initial t)).1 = Normal tc ∧
    end_count
      (SingleTrace.st_tracer
         (SingleTrace.main events query_error (SingleTrace.initial t)).2)
      (SingleTrace.rootSpan tc) = 2.
Proof. apply SingleTraceFacts.single_main_root_end_count. Qed.

(** C2. After [cleanup] both registries are empty, in each of the three
    modules, from the state reached by any sequence of hook invocations,
    matched or not; and [cleanup] returns. *)
Theorem cleanup_empties_registries (events : list Event) :
  (forall tc st0,
     let out := SingleTrace.cleanup tc (SingleTrace.run tc events st0) in
     out.1 = Normal tt ∧
     SingleTrace.agentSpans out.2 = [] ∧ SingleTrace.toolSpans out.2 = []) ∧
  (forall tc st0,
     let out := ByAgent.cleanup (ByAgent.run tc events st0) in
     out.1 = Normal tt ∧
     ByAgent.agentTraces out.2 = [] ∧ ByAgent.toolSpans out.2 = []) ∧
  (forall st0,
     let out := IndividualTraces.cleanup (IndividualTraces.run events st0) in
     out.1 = Normal tt ∧
     IndividualTraces.agentSpans out.2 = [] ∧ IndividualTraces.toolSpans out.2 = []).
Proof.
  split; [|split].
  - intros tc st0. simpl. rewrite SingleTraceFacts.single_cleanup_eq. auto.
  - intros tc st0. simpl. rewrite ByAgentFacts.by_agent_cleanup_eq. auto.
  - intros st0. simpl. rewrite IndividualTracesFacts.individual_cleanup_eq. auto.
Qed.

(** C6. The claim is that [cleanup] closes the long-lived session span
    with status OK in every module that keeps one.  The by-agent module
    keeps a session span, and neither its [cleanup] nor its [main] ever
    ends it: whatever the events, the session span is still open when
    [main] is done. *)
Theorem by_agent_session_span_left_open
    (t : list SpanRecord) (events : list Event) (query_error : option string) :
  exists tc,
    (ByAgent.withAgentTelemetry (ByAgent.initial t)).1 = Normal tc ∧
    is_open
      (ByAgent.st_tracer (ByAgent.main events query_error (ByAgent.initial t)).2)
      (ByAgent.sessionSpan tc).
Proof. apply ByAgentFacts.by_agent_main_session_open. Qed.

(** C3, as stated, fails: in the by-agent module an agent span that is
    still registered when [cleanup] runs is closed with the message
    "Orphaned agent trace". *)
Lemma orphaned_agent_trace_message :
  exists tc st d,
    ByAgent.reached [] [agent_start "A1" "code-reviewer"] = Some (tc, st) ∧
    (JString "A1", d) ∈ ByAgent.agentTraces st ∧
    ¬ closed_with (ByAgent.st_tracer (ByAgent.cleanup st).2) (ByAgent.at_rootSpan d)
        (mkStatus ERROR (Some "Orphaned span")).
Proof.
  eexists _, _, _. split; [reflexivity|]. split; [left|].
  intros (r & Hr & He). vm_compute in Hr. injection Hr as <-. discriminate He.
Qed.

(** C3, amended.  From the state reached by any events: every span that
    [cleanup] finds in a registry is closed exactly once, with status ERROR
    and the message "Orphaned span" -- except the agent spans of the
    by-agent module, whose message is "Orphaned agent trace".  A span
    closed by its own stop or post-use event is closed with status OK and no
    message; one closed by its failure event is closed with status ERROR and
    the event's error text cut at 256 characters (single-trace, by-agent) or
    the fixed message "Tool execution failed" (individual traces). *)
Theorem orphan_marking (t : list SpanRecord) (events : list Event) :
  (forall tc st, SingleTrace.reached t events = Some (tc, st) ->
     (forall k d,
        (k, d) ∈ SingleTrace.toolSpans st ∨ (k, d) ∈ SingleTrace.agentSpans st ->
        closed_with (SingleTrace.st_tracer (SingleTrace.cleanup tc st).2)
          (SingleTrace.span d) (mkStatus ERROR (Some "Orphaned span"))) ∧
     (forall input d,
        is_event input "SubagentStop" = true ->
        Map_get (agent_id input) (SingleTrace.agentSpans st) = Some d ->
        closed_with
          (SingleTrace.st_tracer (SingleTrace.hooks tc SubagentStop input st).2)
          (SingleTrace.span d) (mkStatus OK None)) ∧
     (forall input d,
        is_event input "PostToolUse" = true ->
        Map_get (tool_use_id input) (SingleTrace.toolSpans st) = Some d ->
        (SingleTrace.hooks tc PostToolUse input st).1 = Normal (mkOutput true) ->
        closed_with
          (SingleTrace.st_tracer (SingleTrace.hooks tc PostToolUse input st).2)
          (SingleTrace.span d) (mkStatus OK None)) ∧
     (forall input d,
        is_event input "PostToolUseFailure" = true ->
        Map_get (tool_use_id input) (SingleTrace.toolSpans st) = Some d ->
        closed_with
          (SingleTrace.st_tracer (SingleTrace.hooks tc PostToolUseFailure input st).2)
          (SingleTrace.span d)
          (mkStatus ERROR (Some (truncate (error_text input) 256))))) ∧
  (forall tc st, ByAgent.reached t events = Some (tc, st) ->
     (forall k d, (k, d) ∈ ByAgent.toolSpans st ->
        closed_with (ByAgent.st_tracer (ByAgent.cleanup st).2)
          (ByAgent.span d) (mkStatus ERROR (Some "Orphaned span"))) ∧
     (forall k d, (k, d) ∈ ByAgent.agentTraces st ->
        closed_with (ByAgent.st_tracer (ByAgent.cleanup st).2)
          (ByAgent.at_rootSpan d) (mkStatus ERROR (Some "Orphaned agent trace"))) ∧
     (forall input d,
        is_event input "SubagentStop" = true ->
        Map_get (agent_id input) (ByAgent.agentTraces st) = Some d ->
        closed_with (ByAgent.st_tracer (ByAgent.hooks tc SubagentStop input st).2)
          (ByAgent.at_rootSpan d) (mkStatus OK None)) ∧
     (forall input d,
        is_event input "PostToolUse" = true ->
        Map_get (tool_use_id input) (ByAgent.toolSpans st) = Some d ->
        (ByAgent.hooks tc PostToolUse input st).1 = Normal (mkOutput true) ->
        closed_with (ByAgent.st_tracer (ByAgent.hooks tc PostToolUse input st).2)
          (ByAgent.span d) (mkStatus OK None)) ∧
     (forall input d,
        is_event input "PostToolUseFailure" = true ->
        Map_get (tool_use_id input) (ByAgent.toolSpans st) = Some d ->
        closed_with
          (ByAgent.st_tracer (ByAgent.hooks tc PostToolUseFailure input st).2)
          (ByAgent.span d)
          (mkStatus ERROR (Some (truncate (error_text input) 256))))) ∧
  (let st := IndividualTraces.reached t events in
     (forall k d,
        (k, d) ∈ IndividualTraces.toolSpans st ∨
        (k, d) ∈ IndividualTraces.agentSpans st ->
        closed_with (IndividualTraces.st_tracer (IndividualTraces.cleanup st).2)
          (IndividualTraces.span d) (mkStatus ERROR (Some "Orphaned span"))) ∧
     (forall input d,
        is_event input "SubagentStop" = true ->
        Map_get (agent_id input) (IndividualTraces.agentSpans st) = Some d ->
        closed_with
          (IndividualTraces.st_tracer (IndividualTraces.hooks SubagentStop input st).2)
          (IndividualTraces.span d) (mkStatus OK None)) ∧
     (forall input d,
        is_event input "PostToolUse" = true ->
        Map_get (tool_use_id input) (IndividualTraces.toolSpans st) = Some d ->
        (IndividualTraces.hooks PostToolUse input st).1 = Normal (mkOutput true) ->
        closed_with
          (IndividualTraces.st_tracer (IndividualTraces.hooks PostToolUse input st).2)
          (IndividualTraces.span d) (mkStatus OK None)) ∧
     (forall input d,
        is_event input "PostToolUseFailure" = true ->
        Map_get (tool_use_id input) (IndividualTraces.toolSpans st) = Some d ->
        closed_with
          (IndividualTraces.st_tracer
             (IndividualTraces.hooks PostToolUseFailure input st).2)
          (IndividualTraces.span d)
          (mkStatus ERROR (Some "Tool execution failed")))).
Proof.
  split; [|split].
  - intros tc st Hreach. apply single_reached_Inv in Hreach.
    split; [|split; [|split]].
    + intros k d [Hin | Hin].
      * now apply (SingleTraceFacts.single_cleanup_tool_orphan tc st k).
      * now apply (SingleTraceFacts.single_cleanup_agent_orphan tc st k).
    + intros input d Hev Hget.
      now apply (SingleTraceFacts.single_agent_stop_found tc input st d).
    + intros input d Hev Hget Hret.
      now apply (SingleTraceFacts.single_tool_success_found tc input st d).
    + intros input d Hev Hget.
      destruct (SingleTraceFacts.single_tool_failure_found tc input st d Hreach Hev Hget)
        as (_ & _ & r & Hr & _ & _ & _ & _ & He).
      now exists r.
  - intros tc st Hreach. apply by_agent_reached_Inv in Hreach.
    split; [|split; [|split; [|split]]].
    + intros k d Hin. now apply (ByAgentFacts.by_agent_cleanup_tool_orphan tc st k).
    + intros k d Hin. now apply (ByAgentFacts.by_agent_cleanup_agent_orphan tc st k).
    + intros input d Hev Hget.
      now apply (ByAgentFacts.by_agent_agent_stop_found tc input st d).
    + intros input d Hev Hget Hret.
      now apply (ByAgentFacts.by_agent_tool_success_found tc input st d).
    + intros input d Hev Hget.
      destruct (ByAgentFacts.by_agent_tool_failure_found tc input st d Hreach Hev Hget)
        as (_ & _ & r & Hr & _ & _ & _ & _ & He).
      now exists r.
  - pose proof (individual_reached_Inv t events) as Hreach. simpl.
    split; [|split; [|split]].
    + intros k d [Hin | Hin].
      * now apply (IndividualTracesFacts.individual_cleanup_tool_orphan _ k).
      * now apply (IndividualTracesFacts.individual_cleanup_agent_orphan _ k).
    + intros input d Hev Hget.
      now apply (IndividualTracesFacts.individual_agent_stop_found input _ d).
    + intros input d Hev Hget Hret.
      now apply (IndividualTracesFacts.individual_tool_success_found input _ d).
    + intros input d Hev Hget.
      destruct (IndividualTracesFacts.individual_tool_failure_found input _ d Hreach Hev Hget)
        as (_ & _ & r0 & r & _ & Hr & _ & _ & _ & _ & _ & He).
      now exists r.
Qed.

(** A run in which a tool and its agent are both left open: [cleanup]
    closes the tool span as an orphan. *)
Lemma orphan_marking_witness :
  closed_with
    (SingleTrace.st_tracer
       (SingleTrace.cleanup (SingleTrace.mkContext 0 (SpanContext 0) 1 (SpanContext 1))
          (SingleTrace.run (SingleTrace.mkContext 0 (SpanContext 0) 1 (SpanContext 1))
             [agent_start "A1" "code-reviewer";
              tool_pre "U1" "Bash" JUndefined (js_json "{}")]
             (SingleTrace.withAgentTelemetry (SingleTrace.initial [])).2)).2)
    3 (mkStatus ERROR (Some "Orphaned span")).
Proof.
  destruct (orphan_marking []
              [agent_start "A1" "code-reviewer";
               tool_pre "U1" "Bash" JUndefined (js_json "{}")]) as [Hsingle _].
  destruct (Hsingle (SingleTrace.mkContext 0 (SpanContext 0) 1 (SpanContext 1)) _ eq_refl)
    as [Horphan _].
  apply (Horphan (JString "U1") (SingleTrace.mkEntry 3 (SpanContext 3))).
  left. vm_compute. left.
Defined.

(** C4, as stated, fails: with agent A1 open and current, a tool that
    names an agent id that is not registered is parented under the session
    span, not under A1. *)
Lemma unknown_agent_id_parents_under_session :
  exists tc st a r,
    ByAgent.reached [] [agent_start "A1" "code-reviewer"] = Some (tc, st) ∧
    ByAgent.currentAgentId st = JString "A1" ∧
    Map_get (JString "A1") (ByAgent.agentTraces st) = Some a ∧
    Map_get (JString "ghost") (ByAgent.agentTraces st) = None ∧
    ByAgent.st_tracer
      (ByAgent.hooks tc PreToolUse
         (ev_input (tool_pre "U1" "Bash" (JString "ghost") (js_json "{}"))) st).2
      !! List.length (ByAgent.st_tracer st) = Some r ∧
    span_parent r = ByAgent.sessionSpanContext tc ∧
    span_parent r ≠ ByAgent.at_sessionSpanContext a.
Proof.
  eexists _, _, _, _. split; [reflexivity|].
  split; [reflexivity|]. split; [reflexivity|]. split; [reflexivity|].
  split; [reflexivity|]. split; [reflexivity | discriminate].
Qed.

Lemma by_agent_start_state tc input st :
  is_event input "SubagentStart" = true ->
  let st1 := (ByAgent.hooks tc SubagentStart input st).2 in
  ByAgent.currentAgentId st1 = agent_id input ∧
  Map_get (agent_id input) (ByAgent.agentTraces st1)
    = Some (ByAgent.mkAgentTrace (List.length (ByAgent.st_tracer st))
              (SpanContext (List.length (ByAgent.st_tracer st)))
              (agent_id input) (agent_type input)).
Proof.
  intros Hev. ByAgentFacts.byagent_unfold. simpl. rewrite Hev. simpl.
  split; [reflexivity | apply Map_get_set_eq].
Qed.

Lemma by_agent_pre_tool_keeps_agents tc input st :
  let st1 := (ByAgent.hooks tc PreToolUse input st).2 in
  ByAgent.currentAgentId st1 = ByAgent.currentAgentId st ∧
  ByAgent.agentTraces st1 = ByAgent.agentTraces st.
Proof.
  ByAgentFacts.byagent_unfold. simpl.
  repeat (ByAgentFacts.byagent_case; simpl); split; reflexivity.
Qed.

Lemma by_agent_stop_clears_current tc input st a :
  is_event input "SubagentStop" = true ->
  ByAgent.currentAgentId st = agent_id input ->
  Map_get (agent_id input) (ByAgent.agentTraces st) = Some a ->
  ByAgent.currentAgentId (ByAgent.hooks tc SubagentStop input st).2 = JUndefined.
Proof.
  intros Hev Hcur Hget. ByAgentFacts.byagent_unfold. simpl. rewrite Hev. simpl.
  rewrite Hget. simpl. rewrite Hcur. now rewrite bool_decide_eq_true_2.
Qed.

Lemma single_start_state tc input st :
  is_event input "SubagentStart" = true ->
  SingleTrace.agentSpans st = [] ->
  SingleTrace.agentSpans (SingleTrace.hooks tc SubagentStart input st).2
    = [(agent_id input,
        SingleTrace.mkEntry (List.length (SingleTrace.st_tracer st))
          (SpanContext (List.length (SingleTrace.st_tracer st))))].
Proof.
  intros Hev Hnil. SingleTraceFacts.single_unfold. simpl. rewrite Hev. simpl.
  now rewrite Hnil.
Qed.

Lemma single_pre_tool_keeps_agents tc input st :
  SingleTrace.agentSpans (SingleTrace.hooks tc PreToolUse input st).2
    = SingleTrace.agentSpans st.
Proof.
  SingleTraceFacts.single_unfold. simpl. repeat (hook_case; simpl); reflexivity.
Qed.

Lemma single_stop_only_agent tc input st e :
  is_event input "SubagentStop" = true ->
  SingleTrace.agentSpans st = [(agent_id input, e)] ->
  SingleTrace.agentSpans (SingleTrace.hooks tc SubagentStop input st).2 = [].
Proof.
  intros Hev Hone. SingleTraceFacts.single_unfold. simpl. rewrite Hev. simpl.
  rewrite Hone. simpl. rewrite decide_True by reflexivity. simpl.
  unfold Map_delete. rewrite Hone, filter_cons. simpl.
  now rewrite decide_False by (intros Hne; now apply Hne).
Qed.

(** C4, amended.  By-agent module: the tool span is parented under the
    agent named by the explicit agent id when that id is supplied, and
    otherwise by the current-agent pointer; when the id so chosen is not
    registered -- also when it was supplied explicitly and another agent is
    current -- the parent is the session context.  Single-trace module: the
    explicit agent id is not consulted; the parent is the context of the
    agent most recently added to the registry and still in it, and the
    session context when the registry is empty.  In both modules: with agent
    A just started, a tool started with no agent id is parented under A, and
    once A is stopped (no other agent being open in the single-trace
    module) the next such tool is parented under the session context. *)
Theorem tool_parent_resolution :
  (forall tc st input,
     is_event input "PreToolUse" = true ->
     exists r,
       ByAgent.st_tracer (ByAgent.hooks tc PreToolUse input st).2
         !! List.length (ByAgent.st_tracer st) = Some r ∧
       let chosen := if truthy (agent_id input) then agent_id input
                     else ByAgent.currentAgentId st in
       (truthy chosen = true ->
        forall a, Map_get chosen (ByAgent.agentTraces st) = Some a ->
                  span_parent r = ByAgent.at_sessionSpanContext a) ∧
       (truthy chosen = false ∨ Map_get chosen (ByAgent.agentTraces st) = None ->
        span_parent r = ByAgent.sessionSpanContext tc)) ∧
  (forall tc st input,
     is_event input "PreToolUse" = true ->
     exists r,
       SingleTrace.st_tracer (SingleTrace.hooks tc PreToolUse input st).2
         !! List.length (SingleTrace.st_tracer st) = Some r ∧
       (forall e, last (Map_values (SingleTrace.agentSpans st)) = Some e ->
                  span_parent r = SingleTrace.context e) ∧
       (SingleTrace.agentSpans st = [] ->
        span_parent r = SingleTrace.sessionSpanContext tc)) ∧
  (forall tc st iA iT1 iS iT2,
     is_event iA "SubagentStart" = true -> truthy (agent_id iA) = true ->
     is_event iT1 "PreToolUse" = true -> agent_id iT1 = JUndefined ->
     is_event iS "SubagentStop" = true -> agent_id iS = agent_id iA ->
     is_event iT2 "PreToolUse" = true -> agent_id iT2 = JUndefined ->
     let st1 := (ByAgent.hooks tc SubagentStart iA st).2 in
     let st2 := (ByAgent.hooks tc PreToolUse iT1 st1).2 in
     let st3 := (ByAgent.hooks tc SubagentStop iS st2).2 in
     let st4 := (ByAgent.hooks tc PreToolUse iT2 st3).2 in
     exists a r1 r2,
       Map_get (agent_id iA) (ByAgent.agentTraces st1) = Some a ∧
       ByAgent.st_tracer st2 !! List.length (ByAgent.st_tracer st1) = Some r1 ∧
       span_parent r1 = ByAgent.at_sessionSpanContext a ∧
       ByAgent.st_tracer st4 !! List.length (ByAgent.st_tracer st3) = Some r2 ∧
       span_parent r2 = ByAgent.sessionSpanContext tc) ∧
  (forall tc st iA iT1 iS iT2,
     SingleTrace.agentSpans st = [] ->
     is_event iA "SubagentStart" = true ->
     is_event iT1 "PreToolUse" = true ->
     is_event iS "SubagentStop" = true -> agent_id iS = agent_id iA ->
     is_event iT2 "PreToolUse" = true ->
     let st1 := (SingleTrace.hooks tc SubagentStart iA st).2 in
     let st2 := (SingleTrace.hooks tc PreToolUse iT1 st1).2 in
     let st3 := (SingleTrace.hooks tc SubagentStop iS st2).2 in
     let st4 := (SingleTrace.hooks tc PreToolUse iT2 st3).2 in
     exists a r1 r2,
       Map_get (agent_id iA) (SingleTrace.agentSpans st1) = Some a ∧
       SingleTrace.st_tracer st2 !! List.length (SingleTrace.st_tracer st1) = Some r1 ∧
       span_parent r1 = SingleTrace.context a ∧
       SingleTrace.st_tracer st4 !! List.length (SingleTrace.st_tracer st3) = Some r2 ∧
       span_parent r2 = SingleTrace.sessionSpanContext tc).
Proof.
  split; [|split; [|split]].
  - intros tc st input Hev.
    destruct (ByAgentFacts.by_agent_tool_start_span tc input st Hev) as (r & Hr & Hp & _).
    exists r. split; [exact Hr|]. unfold js_or in Hp. simpl. split.
    + intros Htr a Hget. rewrite Hp, Htr, Hget. reflexivity.
    + intros [Htr | Hget]; rewrite Hp.
      * now rewrite Htr.
      * rewrite Hget. now destruct (truthy _).
  - intros tc st input Hev.
    destruct (SingleTraceFacts.single_tool_start_span tc input st Hev) as (r & Hr & Hp & _).
    exists r. split; [exact Hr|]. split.
    + intros e Hlast. now rewrite Hp, Hlast.
    + intros Hnil. now rewrite Hp, Hnil.
  - intros tc st iA iT1 iS iT2 HevA HtrA HevT1 HidT1 HevS HidS HevT2 HidT2.
    intros st1 st2 st3 st4.
    destruct (by_agent_start_state tc iA st HevA) as [Hcur1 Hget1].
    fold st1 in Hcur1, Hget1.
    destruct (by_agent_pre_tool_keeps_agents tc iT1 st1) as [Hcur2 Hag2].
    fold st2 in Hcur2, Hag2.
    destruct (ByAgentFacts.by_agent_tool_start_span tc iT1 st1 HevT1) as (r1 & Hr1 & Hp1 & _).
    fold st2 in Hr1.
    assert (Hcur3 : ByAgent.currentAgentId st3 = JUndefined).
    { eapply by_agent_stop_clears_current; [exact HevS | |].
      - now rewrite Hcur2, Hcur1, HidS.
      - rewrite Hag2, HidS. exact Hget1. }
    destruct (ByAgentFacts.by_agent_tool_start_span tc iT2 st3 HevT2) as (r2 & Hr2 & Hp2 & _).
    fold st4 in Hr2.
    eexists _, r1, r2. split; [exact Hget1|]. split; [exact Hr1|].
    split; [|split; [exact Hr2|]].
    + rewrite Hp1, HidT1, Hcur1. unfold js_or. simpl. now rewrite HtrA, Hget1.
    + rewrite Hp2, HidT2, Hcur3. reflexivity.
  - intros tc st iA iT1 iS iT2 Hnil HevA HevT1 HevS HidS HevT2.
    intros st1 st2 st3 st4.
    pose proof (single_start_state tc iA st HevA Hnil) as Hag1. fold st1 in Hag1.
    pose proof (single_pre_tool_keeps_agents tc iT1 st1) as Hag2. fold st2 in Hag2.
    destruct (SingleTraceFacts.single_tool_start_span tc iT1 st1 HevT1) as (r1 & Hr1 & Hp1 & _).
    fold st2 in Hr1.
    assert (Hag3 : SingleTrace.agentSpans st3 = []).
    { eapply single_stop_only_agent; [exact HevS|]. rewrite Hag2, Hag1, HidS. reflexivity. }
    destruct (SingleTraceFacts.single_tool_start_span tc iT2 st3 HevT2) as (r2 & Hr2 & Hp2 & _).
    fold st4 in Hr2.
    eexists _, r1, r2. split; [|split; [exact Hr1|split; [|split; [exact Hr2|]]]].
    + rewrite Hag1. simpl. now rewrite decide_True by reflexivity.
    + rewrite Hp1, Hag1. reflexivity.
    + rewrite Hp2, Hag3. reflexivity.
Qed.

(** The scenario on concrete events: A1 starts, U1 starts under it, A1
    stops, U2 starts under the session. *)
Lemma tool_parent_resolution_witness :
  let tc := ByAgent.mkContext 0 (SpanContext 0) in
  let st := (ByAgent.withAgentTelemetry (ByAgent.initial [])).2 in
  let st1 := (ByAgent.hooks tc SubagentStart
                (ev_input (agent_start "A1" "code-reviewer")) st).2 in
  let st2 := (ByAgent.hooks tc PreToolUse
                (ev_input (tool_pre "U1" "Bash" JUndefined (js_json "{}"))) st1).2 in
  let st3 := (ByAgent.hooks tc SubagentStop (ev_input (agent_stop "A1")) st2).2 in
  let st4 := (ByAgent.hooks tc PreToolUse
                (ev_input (tool_pre "U2" "Read" JUndefined (js_json "{}"))) st3).2 in
  exists a r1 r2,
    Map_get (JString "A1") (ByAgent.agentTraces st1) = Some a ∧
    ByAgent.st_tracer st2 !! List.length (ByAgent.st_tracer st1) = Some r1 ∧
    span_parent r1 = ByAgent.at_sessionSpanContext a ∧
    ByAgent.st_tracer st4 !! List.length (ByAgent.st_tracer st3) = Some r2 ∧
    span_parent r2 = SpanContext 0.
Proof.
  destruct tool_parent_resolution as (_ & _ & Hscenario & _).
  apply (Hscenario (ByAgent.mkContext 0 (SpanContext 0))
           (ByAgent.withAgentTelemetry (ByAgent.initial [])).2
           (ev_input (agent_start "A1" "code-reviewer"))
           (ev_input (tool_pre "U1" "Bash" JUndefined (js_json "{}")))
           (ev_input (agent_stop "A1"))
           (ev_input (tool_pre "U2" "Read" JUndefined (js_json "{}"))));
    reflexivity.
Defined.


Lemma single_hooks_any_typed tc ev input :
  SingleTrace.hooks_any tc ev (typed input) = SingleTrace.hooks tc ev input.
Proof. destruct ev; reflexivity. Qed.

Lemma by_agent_hooks_any_typed tc ev input :
  ByAgent.hooks_any tc ev (typed input) = ByAgent.hooks tc ev input.
Proof. destruct ev; reflexivity. Qed.






(** The condition on the error of a failure event cannot be dropped.  On
    an error that is a truthy value other than a string -- an object, a
    number -- the failure hook of the single-trace and by-agent modules,
    for a tool that is registered, marks [tool.success] false and throws a
    [TypeError] in [truncateAttribute]: the span is not closed and the tool
    stays registered.  The hook of the individual-traces module does not
    read the error, and returns. *)
Theorem other_error_value_throws (p : Payload) (text : string) :
  is_event (payload_input p) "PostToolUseFailure" = true ->
  payload_error p = ErrorOther text ->
  (forall tc st d,
     SingleTrace.Inv tc st ->
     Map_get (tool_use_id (payload_input p)) (SingleTrace.toolSpans st) = Some d ->
     let out := SingleTrace.hooks_any tc PostToolUseFailure p st in
     out.1 = Abrupt TypeError ∧
     SingleTrace.toolSpans out.2 = SingleTrace.toolSpans st ∧
     is_open (SingleTrace.st_tracer out.2) (SingleTrace.span d)) ∧
  (forall tc st d,
     ByAgent.Inv tc st ->
     Map_get (tool_use_id (payload_input p)) (ByAgent.toolSpans st) = Some d ->
     let out := ByAgent.hooks_any tc PostToolUseFailure p st in
     out.1 = Abrupt TypeError ∧
     ByAgent.toolSpans out.2 = ByAgent.toolSpans st ∧
     is_open (ByAgent.st_tracer out.2) (ByAgent.span d)) ∧
  (forall st,
     (IndividualTraces.hooks_any PostToolUseFailure p st).1 = Normal (mkOutput true)).
Proof.
  intros Hev Herr. split; [|split].
  - intros tc st d HI Hget.
    pose proof (SingleTraceFacts.single_Inv_open tc st _ HI
                  (SingleTraceFacts.single_tool_handle _ _ _ Hget)) as Hopen.
    unfold SingleTrace.hooks_any, SingleTrace.onPostToolUseFailure_any.
    rewrite Herr, Hev. unfold error_or_unknown, truncateAttribute_any.
    eff_unfold. simpl. rewrite Hget. simpl.
    split; [reflexivity|]. split; [reflexivity|].
    now apply is_open_alter_keep.
  - intros tc st d HI Hget.
    pose proof (ByAgentFacts.by_agent_Inv_open tc st _ HI
                  (ByAgentFacts.by_agent_tool_handle _ _ _ Hget)) as Hopen.
    unfold ByAgent.hooks_any, ByAgent.onPostToolUseFailure_any.
    rewrite Herr, Hev. unfold error_or_unknown, truncateAttribute_any.
    eff_unfold. simpl. rewrite Hget. simpl.
    split; [reflexivity|]. split; [reflexivity|].
    now apply is_open_alter_keep.
  - intros st. now apply IndividualTracesFacts.individual_hooks_return.
Qed.

(** A failure event whose error is the object [{ code: 500 }], for a tool
    that is registered: the single-trace hook throws. *)
Lemma other_error_value_throws_witness :
  let tc := SingleTrace.mkContext 0 (SpanContext 0) 1 (SpanContext 1) in
  let st := SingleTrace.run tc [tool_pre "U1" "Bash" JUndefined (js_json "{}")]
              (SingleTrace.withAgentTelemetry (SingleTrace.initial [])).2 in
  let p := mkPayload (ev_input (tool_fail "U1" JUndefined))
             (ErrorOther "[object Object]") in
  (SingleTrace.hooks_any tc PostToolUseFailure p st).1 = Abrupt TypeError ∧
  is_open (SingleTrace.st_tracer (SingleTrace.hooks_any tc PostToolUseFailure p st).2) 2.
Proof.
  destruct (proj1 (other_error_value_throws
              (mkPayload (ev_input (tool_fail "U1" JUndefined))
                 (ErrorOther "[object Object]")) "[object Object]" eq_refl eq_refl)
            (SingleTrace.mkContext 0 (SpanContext 0) 1 (SpanContext 1))
            (SingleTrace.run (SingleTrace.mkContext 0 (SpanContext 0) 1 (SpanContext 1))
               [tool_pre "U1" "Bash" JUndefined (js_json "{}")]
               (SingleTrace.withAgentTelemetry (SingleTrace.initial [])).2)
            (SingleTrace.mkEntry 2 (SpanContext 2))
            (single_reached_Inv [] [tool_pre "U1" "Bash" JUndefined (js_json "{}")] _ _
               eq_refl)
            eq_refl) as (Hthrow & _ & Hopen).
  split; [exact Hthrow | exact Hopen].
Defined.

Lemma truncate_capped (limit : nat) (s : string) :
  truncate s limit = capped_at limit s.
Proof.
  unfold truncate, capped_at.
  destruct (Nat.leb_spec (String.length s) limit) as [Hle | Hlt];
    destruct (Nat.ltb_spec limit (String.length s)) as [Hlt' | Hle'];
    try reflexivity; lia.
Qed.

Lemma single_prompt_stored tc st input p :
  SingleTrace.Inv tc st ->
  is_event input "UserPromptSubmit" = true ->
  prompt input = JString p ->
  exists r,
    SingleTrace.st_tracer (SingleTrace.hooks tc UserPromptSubmit input st).2
      !! SingleTrace.sessionSpan tc = Some r ∧
    span_attributes r !! "prompt"
      = Some (AttrJs (JString (truncate p MAX_ATTRIBUTE_LENGTH))).
Proof.
  intros [[_ Hall] _] Hev Hp. apply Forall_cons in Hall as [(r & Hr & _) _].
  pose proof (lookup_lt_Some _ _ _ Hr) as Hlt.
  SingleTraceFacts.single_unfold. simpl. rewrite Hev. simpl. rewrite Hp. simpl.
  rewrite ?length_alter.
  rewrite !list_lookup_alter_ne by lia.
  rewrite lookup_app_l by (rewrite ?length_alter; lia).
  rewrite !list_lookup_alter_eq, Hr. simpl. eexists. split; [reflexivity|]. simpl.
  now rewrite !lookup_insert_ne, lookup_insert_eq by done.
Qed.

Lemma by_agent_prompt_stored tc st input p :
  ByAgent.Inv tc st ->
  is_event input "UserPromptSubmit" = true ->
  prompt input = JString p ->
  exists r,
    ByAgent.st_tracer (ByAgent.hooks tc UserPromptSubmit input st).2
      !! ByAgent.sessionSpan tc = Some r ∧
    span_attributes r !! "prompt"
      = Some (AttrJs (JString (truncate p MAX_ATTRIBUTE_LENGTH))).
Proof.
  intros [_ Hall] Hev Hp. apply Forall_cons in Hall as [(r & Hr & _) _].
  pose proof (lookup_lt_Some _ _ _ Hr) as Hlt.
  ByAgentFacts.byagent_unfold. simpl. rewrite Hev. simpl. rewrite Hp. simpl.
  rewrite ?length_alter.
  rewrite !list_lookup_alter_ne by lia.
  rewrite lookup_app_l by (rewrite ?length_alter; lia).
  rewrite !list_lookup_alter_eq, Hr. simpl. eexists. split; [reflexivity|]. simpl.
  now rewrite !lookup_insert_ne, lookup_insert_eq by done.
Qed.

Lemma individual_prompt_stored st input p :
  is_event input "UserPromptSubmit" = true ->
  prompt input = JString p ->
  exists r,
    IndividualTraces.st_tracer (IndividualTraces.hooks UserPromptSubmit input st).2
      !! List.length (IndividualTraces.st_tracer st) = Some r ∧
    span_attributes r !! "prompt"
      = Some (AttrJs (JString (truncate p MAX_ATTRIBUTE_LENGTH))).
Proof.
  intros Hev Hp.
  IndividualTracesFacts.individual_unfold. simpl. rewrite Hev. simpl. rewrite Hp. simpl.
  rewrite !list_lookup_alter_eq, list_lookup_middle by reflexivity.
  simpl. eexists. split; [reflexivity|]. unfold rec_setAttributes. simpl.
  now rewrite !lookup_insert_ne, lookup_insert_eq by done.
Qed.

(** C7.  [truncateAttribute] with its default limit follows the rule of
    the specification, and so does every attribute the hooks store through
    it: the serialized tool input, the prompt, and the error text of a
    failed tool.  A string [s] longer than 10,000 characters is stored as
    its first 10,000 characters followed by "... [truncated]"; any other
    string is stored unchanged. *)
Theorem payload_attributes_truncated (s : string) :
  truncate s MAX_ATTRIBUTE_LENGTH = capped_at 10000 s ∧
  (10000 < String.length s ->
   capped_at 10000 s = String.substring 0 10000 s +:+ "... [truncated]") ∧
  (String.length s <= 10000 -> capped_at 10000 s = s) ∧
  (forall input,
     is_event input "PreToolUse" = true ->
     serialized (tool_input input) = Some s ->
     (forall tc st, exists r,
        SingleTrace.st_tracer (SingleTrace.hooks tc PreToolUse input st).2
          !! List.length (SingleTrace.st_tracer st) = Some r ∧
        span_attributes r !! "tool.input" = Some (AttrJs (JString (capped_at 10000 s)))) ∧
     (forall tc st, exists r,
        ByAgent.st_tracer (ByAgent.hooks tc PreToolUse input st).2
          !! List.length (ByAgent.st_tracer st) = Some r ∧
        span_attributes r !! "tool.input" = Some (AttrJs (JString (capped_at 10000 s)))) ∧
     (forall st, exists r,
        IndividualTraces.st_tracer (IndividualTraces.hooks PreToolUse input st).2
          !! List.length (IndividualTraces.st_tracer st) = Some r ∧
        span_attributes r !! "tool.input" = Some (AttrJs (JString (capped_at 10000 s))))) ∧
  (forall input,
     is_event input "UserPromptSubmit" = true ->
     prompt input = JString s ->
     (forall t events tc st,
        SingleTrace.reached t events = Some (tc, st) ->
        exists r,
          SingleTrace.st_tracer (SingleTrace.hooks tc UserPromptSubmit input st).2
            !! SingleTrace.sessionSpan tc = Some r ∧
          span_attributes r !! "prompt" = Some (AttrJs (JString (capped_at 10000 s)))) ∧
     (forall t events tc st,
        ByAgent.reached t events = Some (tc, st) ->
        exists r,
          ByAgent.st_tracer (ByAgent.hooks tc UserPromptSubmit input st).2
            !! ByAgent.sessionSpan tc = Some r ∧
          span_attributes r !! "prompt" = Some (AttrJs (JString (capped_at 10000 s)))) ∧
     (forall st, exists r,
        IndividualTraces.st_tracer (IndividualTraces.hooks UserPromptSubmit input st).2
          !! List.length (IndividualTraces.st_tracer st) = Some r ∧
        span_attributes r !! "prompt" = Some (AttrJs (JString (capped_at 10000 s))))) ∧
  (forall input,
     is_event input "PostToolUseFailure" = true ->
     error_text input = s ->
     (forall t events tc st d,
        SingleTrace.reached t events = Some (tc, st) ->
        Map_get (tool_use_id input) (SingleTrace.toolSpans st) = Some d ->
        exists r,
          SingleTrace.st_tracer (SingleTrace.hooks tc PostToolUseFailure input st).2
            !! SingleTrace.span d = Some r ∧
          span_attributes r !! "tool.error" = Some (AttrJs (JString (capped_at 10000 s)))) ∧
     (forall t events tc st d,
        ByAgent.reached t events = Some (tc, st) ->
        Map_get (tool_use_id input) (ByAgent.toolSpans st) = Some d ->
        exists r,
          ByAgent.st_tracer (ByAgent.hooks tc PostToolUseFailure input st).2
            !! ByAgent.span d = Some r ∧
          span_attributes r !! "tool.error" = Some (AttrJs (JString (capped_at 10000 s))))).
Proof.
  pose proof (truncate_capped 10000 s) as Hcap.
  change 10000 with MAX_ATTRIBUTE_LENGTH in Hcap at 1.
  split; [exact Hcap|]. split; [|split; [|split; [|split]]].
  - intros Hlong. rewrite <- Hcap. now apply truncate_long.
  - intros Hshort. rewrite <- Hcap. now apply truncate_short.
  - intros input Hev Hjson. split; [|split].
    + intros tc st.
      destruct (SingleTraceFacts.single_tool_start_span tc input st Hev) as (r & Hr & _ & Hs).
      destruct (Hs s Hjson) as (_ & Hattr & _). exists r. now rewrite <- Hcap.
    + intros tc st.
      destruct (ByAgentFacts.by_agent_tool_start_span tc input st Hev) as (r & Hr & _ & Hs).
      destruct (Hs s Hjson) as (_ & Hattr & _). exists r. now rewrite <- Hcap.
    + intros st.
      destruct (IndividualTracesFacts.individual_tool_start_span input st Hev) as (r & Hr & _ & Hs).
      destruct (Hs s Hjson) as (_ & Hattr & _). exists r. now rewrite <- Hcap.
  - intros input Hev Hp. split; [|split].
    + intros t events tc st Hreach. apply single_reached_Inv in Hreach.
      rewrite <- Hcap. now apply single_prompt_stored.
    + intros t events tc st Hreach. apply by_agent_reached_Inv in Hreach.
      rewrite <- Hcap. now apply by_agent_prompt_stored.
    + intros st. rewrite <- Hcap. now apply individual_prompt_stored.
  - intros input Hev Herr. split.
    + intros t events tc st d Hreach Hget. apply single_reached_Inv in Hreach.
      destruct (SingleTraceFacts.single_tool_failure_found tc input st d Hreach Hev Hget)
        as (_ & _ & r & Hr & Hattr & _).
      exists r. now rewrite <- Hcap, <- Herr.
    + intros t events tc st d Hreach Hget. apply by_agent_reached_Inv in Hreach.
      destruct (ByAgentFacts.by_agent_tool_failure_found tc input st d Hreach Hev Hget)
        as (_ & _ & r & Hr & Hattr & _).
      exists r. now rewrite <- Hcap, <- Herr.
Qed.

(** A tool input of 10,001 characters is stored cut to 10,000 characters
    and the marker. *)
Lemma payload_attributes_truncated_witness :
  10000 < String.length (letters 10001) ∧
  exists r,
    IndividualTraces.st_tracer
      (IndividualTraces.hooks PreToolUse
         (ev_input (tool_pre "U1" "Bash" JUndefined (js_json (letters 10001))))
         (IndividualTraces.initial [] 0)).2 !! 0 = Some r ∧
    span_attributes r !! "tool.input"
      = Some (AttrJs (JString (String.substring 0 10000 (letters 10001)
                                 +:+ "... [truncated]"))).
Proof.
  assert (Hlong : 10000 < String.length (letters 10001)) by (vm_compute; lia).
  split; [exact Hlong|].
  destruct (payload_attributes_truncated (letters 10001))
    as (_ & Hcut & _ & Htool & _).
  destruct (Htool (ev_input (tool_pre "U1" "Bash" JUndefined (js_json (letters 10001))))
              eq_refl eq_refl) as (_ & _ & Hind).
  destruct (Hind (IndividualTraces.initial [] 0)) as (r & Hr & Hattr).
  exists r. split; [exact Hr|]. rewrite <- (Hcut Hlong). exact Hattr.
Defined.

(** C8, as stated, fails: the failure hook of the individual-traces module
    records neither the error text nor an exception on the tool span. *)
Lemma individual_failure_drops_error_text :
  let st := IndividualTraces.reached [] [tool_pre "U1" "Bash" JUndefined (js_json "{}")] in
  exists d r,
    Map_get (JString "U1") (IndividualTraces.toolSpans st) = Some d ∧
    IndividualTraces.st_tracer
      (IndividualTraces.hooks PostToolUseFailure
         (ev_input (tool_fail "U1" (JString "boom"))) st).2
      !! IndividualTraces.span d = Some r ∧
    span_attributes r !! "tool.error" = None ∧
    span_exceptions r = [].
Proof.
  eexists _, _. split; [reflexivity|]. split; [reflexivity|].
  split; [vm_compute; reflexivity | reflexivity].
Qed.

(** C8, amended.  For a failure event whose tool use id is registered, in
    a state reached by any events.  Single-trace and by-agent modules: the
    hook returns, stores the error text cut at 10,000 characters as
    [tool.error], marks [tool.success] false, records an exception carrying
    the error text, sets status ERROR (with the error text cut at 256
    characters as message), closes the span, and removes the id from the
    registry.  Individual-traces module: the hook returns, stores the
    duration, marks [tool.success] false, sets status ERROR with the fixed
    message "Tool execution failed", closes the span and removes the id; it
    leaves [tool.error] and the exceptions of the span as they were. *)
Theorem tool_failure_handling (t : list SpanRecord) (events : list Event)
    (input : HookInput) :
  is_event input "PostToolUseFailure" = true ->
  (forall tc st d,
     SingleTrace.reached t events = Some (tc, st) ->
     Map_get (tool_use_id input) (SingleTrace.toolSpans st) = Some d ->
     let out := SingleTrace.hooks tc PostToolUseFailure input st in
     let failed := mkStatus ERROR (Some (truncate (error_text input) 256)) in
     out.1 = Normal (mkOutput true) ∧
     Map_get (tool_use_id input) (SingleTrace.toolSpans out.2) = None ∧
     exists r, SingleTrace.st_tracer out.2 !! SingleTrace.span d = Some r ∧
       span_attributes r !! "tool.error"
         = Some (AttrJs (JString (truncate (error_text input) MAX_ATTRIBUTE_LENGTH))) ∧
       span_attributes r !! "tool.success" = Some (AttrBoolean false) ∧
       last (span_exceptions r) = Some (error_text input) ∧
       span_status r = failed ∧
       span_ended r = [failed]) ∧
  (forall tc st d,
     ByAgent.reached t events = Some (tc, st) ->
     Map_get (tool_use_id input) (ByAgent.toolSpans st) = Some d ->
     let out := ByAgent.hooks tc PostToolUseFailure input st in
     let failed := mkStatus ERROR (Some (truncate (error_text input) 256)) in
     out.1 = Normal (mkOutput true) ∧
     Map_get (tool_use_id input) (ByAgent.toolSpans out.2) = None ∧
     exists r, ByAgent.st_tracer out.2 !! ByAgent.span d = Some r ∧
       span_attributes r !! "tool.error"
         = Some (AttrJs (JString (truncate (error_text input) MAX_ATTRIBUTE_LENGTH))) ∧
       span_attributes r !! "tool.success" = Some (AttrBoolean false) ∧
       last (span_exceptions r) = Some (error_text input) ∧
       span_status r = failed ∧
       span_ended r = [failed]) ∧
  (forall d,
     let st := IndividualTraces.reached t events in
     Map_get (tool_use_id input) (IndividualTraces.toolSpans st) = Some d ->
     let out := IndividualTraces.hooks PostToolUseFailure input st in
     let failed := mkStatus ERROR (Some "Tool execution failed") in
     out.1 = Normal (mkOutput true) ∧
     Map_get (tool_use_id input) (IndividualTraces.toolSpans out.2) = None ∧
     exists r0 r,
       IndividualTraces.st_tracer st !! IndividualTraces.span d = Some r0 ∧
       IndividualTraces.st_tracer out.2 !! IndividualTraces.span d = Some r ∧
       span_attributes r !! "duration_ms"
         = Some (AttrNumber
                   (IndividualTraces.st_clock st - IndividualTraces.startTime d)%Z) ∧
       span_attributes r !! "tool.success" = Some (AttrBoolean false) ∧
       span_attributes r !! "tool.error" = span_attributes r0 !! "tool.error" ∧
       span_exceptions r = span_exceptions r0 ∧
       span_status r = failed ∧
       span_ended r = [failed]).
Proof.
  intros Hev. split; [|split].
  - intros tc st d Hreach Hget. apply single_reached_Inv in Hreach.
    now apply SingleTraceFacts.single_tool_failure_found.
  - intros tc st d Hreach Hget. apply by_agent_reached_Inv in Hreach.
    now apply ByAgentFacts.by_agent_tool_failure_found.
  - intros d st Hget.
    apply IndividualTracesFacts.individual_tool_failure_found;
      [apply individual_reached_Inv | exact Hev | exact Hget].
Qed.

(** Tool U1 starts and fails with the error "boom". *)
Lemma tool_failure_handling_witness :
  let tc := SingleTrace.mkContext 0 (SpanContext 0) 1 (SpanContext 1) in
  let st := SingleTrace.run tc [tool_pre "U1" "Bash" JUndefined (js_json "{}")]
              (SingleTrace.withAgentTelemetry (SingleTrace.initial [])).2 in
  let out := SingleTrace.hooks tc PostToolUseFailure
               (ev_input (tool_fail "U1" (JString "boom"))) st in
  out.1 = Normal (mkOutput true) ∧
  Map_get (JString "U1") (SingleTrace.toolSpans out.2) = None ∧
  exists r, SingleTrace.st_tracer out.2 !! 2 = Some r ∧
    span_attributes r !! "tool.error" = Some (AttrJs (JString "boom")) ∧
    span_attributes r !! "tool.success" = Some (AttrBoolean false) ∧
    last (span_exceptions r) = Some "boom" ∧
    span_status r = mkStatus ERROR (Some "boom") ∧
    span_ended r = [mkStatus ERROR (Some "boom")].
Proof.
  destruct (tool_failure_handling []
              [tool_pre "U1" "Bash" JUndefined (js_json "{}")]
              (ev_input (tool_fail "U1" (JString "boom"))) eq_refl) as [Hsingle _].
  exact (Hsingle (SingleTrace.mkContext 0 (SpanContext 0) 1 (SpanContext 1)) _
           (SingleTrace.mkEntry 2 (SpanContext 2)) eq_refl eq_refl).
Defined.

Lemma single_reached_registries t tc st0 :
  SingleTrace.withAgentTelemetry (SingleTrace.initial t) = (Normal tc, st0) ->
  SingleTrace.agentSpans st0 = [] ∧ SingleTrace.toolSpans st0 = [].
Proof.
  destruct (SingleTraceFacts.single_withAgentTelemetry_Inv t) as (tc' & st' & -> & _ & Ha & Ht).
  now intros [= <- <-].
Qed.

Lemma by_agent_reached_registries t tc st0 :
  ByAgent.withAgentTelemetry (ByAgent.initial t) = (Normal tc, st0) ->
  ByAgent.agentTraces st0 = [] ∧ ByAgent.toolSpans st0 = [].
Proof.
  destruct (ByAgentFacts.by_agent_withAgentTelemetry_Inv t) as (tc' & st' & -> & _ & Ha & Ht).
  now intros [= <- <-].
Qed.

(** C9.  A stop, post-use or failure event whose id was never opened by a
    start event among the events so far leaves the whole state of the
    tracker -- tracer, registries, current-agent pointer -- as it was, and
    the hook returns. *)
Theorem unknown_id_is_ignored (t : list SpanRecord) (events : list Event)
    (id : JsVal) (input : HookInput) :
  (Forall (fun e => ¬ starts_agent id e) events ->
   agent_id input = id ->
   (forall tc st, SingleTrace.reached t events = Some (tc, st) ->
      SingleTrace.hooks tc SubagentStop input st = (Normal (mkOutput true), st)) ∧
   (forall tc st, ByAgent.reached t events = Some (tc, st) ->
      ByAgent.hooks tc SubagentStop input st = (Normal (mkOutput true), st)) ∧
   (forall now,
      let st := IndividualTraces.set_clock now (IndividualTraces.reached t events) in
      IndividualTraces.hooks SubagentStop input st = (Normal (mkOutput true), st))) ∧
  (Forall (fun e => ¬ starts_tool id e) events ->
   tool_use_id input = id ->
   forall ev, ev = PostToolUse ∨ ev = PostToolUseFailure ->
   (forall tc st, SingleTrace.reached t events = Some (tc, st) ->
      SingleTrace.hooks tc ev input st = (Normal (mkOutput true), st)) ∧
   (forall tc st, ByAgent.reached t events = Some (tc, st) ->
      ByAgent.hooks tc ev input st = (Normal (mkOutput true), st)) ∧
   (forall now,
      let st := IndividualTraces.set_clock now (IndividualTraces.reached t events) in
      IndividualTraces.hooks ev input st = (Normal (mkOutput true), st))).
Proof.
  split.
  - intros Hnever <-. split; [|split].
    + intros tc st. unfold SingleTrace.reached.
      destruct (SingleTrace.withAgentTelemetry _) as [[tc0|] st0] eqn:Hinit; [|discriminate].
      intros [= <- <-]. apply SingleTraceFacts.single_agent_stop_unknown.
      apply SingleTraceFacts.single_run_agent_never_started; [exact Hnever|].
      destruct (single_reached_registries _ _ _ Hinit) as [-> _]. reflexivity.
    + intros tc st. unfold ByAgent.reached.
      destruct (ByAgent.withAgentTelemetry _) as [[tc0|] st0] eqn:Hinit; [|discriminate].
      intros [= <- <-]. apply ByAgentFacts.by_agent_agent_stop_unknown.
      apply ByAgentFacts.by_agent_run_agent_never_started; [exact Hnever|].
      destruct (by_agent_reached_registries _ _ _ Hinit) as [-> _]. reflexivity.
    + intros now st. apply IndividualTracesFacts.individual_agent_stop_unknown.
      now apply IndividualTracesFacts.individual_run_agent_never_started.
  - intros Hnever <- ev Hev. split; [|split].
    + intros tc st. unfold SingleTrace.reached.
      destruct (SingleTrace.withAgentTelemetry _) as [[tc0|] st0] eqn:Hinit; [|discriminate].
      intros [= <- <-]. apply SingleTraceFacts.single_tool_stop_unknown; [exact Hev|].
      apply SingleTraceFacts.single_run_tool_never_started; [exact Hnever|].
      destruct (single_reached_registries _ _ _ Hinit) as [_ ->]. reflexivity.
    + intros tc st. unfold ByAgent.reached.
      destruct (ByAgent.withAgentTelemetry _) as [[tc0|] st0] eqn:Hinit; [|discriminate].
      intros [= <- <-]. apply ByAgentFacts.by_agent_tool_stop_unknown; [exact Hev|].
      apply ByAgentFacts.by_agent_run_tool_never_started; [exact Hnever|].
      destruct (by_agent_reached_registries _ _ _ Hinit) as [_ ->]. reflexivity.
    + intros now st. apply IndividualTracesFacts.individual_tool_stop_unknown; [exact Hev|].
      now apply IndividualTracesFacts.individual_run_tool_never_started.
Qed.

(** A post-use event for "nonexistent-id" after A1 and U1 were started. *)
Lemma unknown_id_is_ignored_witness :
  let tc := SingleTrace.mkContext 0 (SpanContext 0) 1 (SpanContext 1) in
  let st := SingleTrace.run tc
              [agent_start "A1" "code-reviewer";
               tool_pre "U1" "Bash" JUndefined (js_json "{}")]
              (SingleTrace.withAgentTelemetry (SingleTrace.initial [])).2 in
  SingleTrace.hooks tc PostToolUse
    (ev_input (tool_post "nonexistent-id" (js_json "{}"))) st
    = (Normal (mkOutput true), st).
Proof.
  destruct (unknown_id_is_ignored []
              [agent_start "A1" "code-reviewer";
               tool_pre "U1" "Bash" JUndefined (js_json "{}")]
              (JString "nonexistent-id")
              (ev_input (tool_post "nonexistent-id" (js_json "{}")))) as [_ Htool].
  refine (proj1 (Htool _ eq_refl PostToolUse (or_introl eq_refl)) _ _ eq_refl).
  repeat constructor; intros (Hhook & _ & Hid); discriminate.
Defined.

(** C10.  In the failure hook of the single-trace and by-agent modules the
    same error text is cut twice: at 256 characters for the message of the
    ERROR status, at 10,000 characters for the [tool.error] attribute. *)
Theorem failure_status_and_attribute_caps (t : list SpanRecord) (events : list Event)
    (input : HookInput) :
  is_event input "PostToolUseFailure" = true ->
  (forall tc st d,
     SingleTrace.reached t events = Some (tc, st) ->
     Map_get (tool_use_id input) (SingleTrace.toolSpans st) = Some d ->
     exists r,
       SingleTrace.st_tracer (SingleTrace.hooks tc PostToolUseFailure input st).2
         !! SingleTrace.span d = Some r ∧
       span_status r = mkStatus ERROR (Some (capped_at 256 (error_text input))) ∧
       span_ended r = [mkStatus ERROR (Some (capped_at 256 (error_text input)))] ∧
       span_attributes r !! "tool.error"
         = Some (AttrJs (JString (capped_at 10000 (error_text input))))) ∧
  (forall tc st d,
     ByAgent.reached t events = Some (tc, st) ->
     Map_get (tool_use_id input) (ByAgent.toolSpans st) = Some d ->
     exists r,
       ByAgent.st_tracer (ByAgent.hooks tc PostToolUseFailure input st).2
         !! ByAgent.span d = Some r ∧
       span_status r = mkStatus ERROR (Some (capped_at 256 (error_text input))) ∧
       span_ended r = [mkStatus ERROR (Some (capped_at 256 (error_text input)))] ∧
       span_attributes r !! "tool.error"
         = Some (AttrJs (JString (capped_at 10000 (error_text input))))).
Proof.
  intros Hev. split.
  - intros tc st d Hreach Hget. apply single_reached_Inv in Hreach.
    destruct (SingleTraceFacts.single_tool_failure_found tc input st d Hreach Hev Hget)
      as (_ & _ & r & Hr & Hattr & _ & _ & Hstatus & Hended).
    exists r. rewrite <- !truncate_capped. auto.
  - intros tc st d Hreach Hget. apply by_agent_reached_Inv in Hreach.
    destruct (ByAgentFacts.by_agent_tool_failure_found tc input st d Hreach Hev Hget)
      as (_ & _ & r & Hr & Hattr & _ & _ & Hstatus & Hended).
    exists r. rewrite <- !truncate_capped. auto.
Qed.

(** An error text of 300 characters: the status message is cut, the
    attribute is not. *)
Lemma failure_status_and_attribute_caps_witness :
  let tc := ByAgent.mkContext 0 (SpanContext 0) in
  let st := ByAgent.run tc [tool_pre "U1" "Bash" JUndefined (js_json "{}")]
              (ByAgent.withAgentTelemetry (ByAgent.initial [])).2 in
  exists r,
    ByAgent.st_tracer
      (ByAgent.hooks tc PostToolUseFailure
         (ev_input (tool_fail "U1" (JString (letters 300)))) st).2 !! 1 = Some r ∧
    span_status r
      = mkStatus ERROR (Some (letters 256 +:+ "... [truncated]")) ∧
    span_attributes r !! "tool.error" = Some (AttrJs (JString (letters 300))).
Proof.
  destruct (failure_status_and_attribute_caps []
              [tool_pre "U1" "Bash" JUndefined (js_json "{}")]
              (ev_input (tool_fail "U1" (JString (letters 300)))) eq_refl)
    as [_ Hby].
  destruct (Hby (ByAgent.mkContext 0 (SpanContext 0)) _
              (ByAgent.mkEntry 1 (SpanContext 1) JUndefined) eq_refl eq_refl)
    as (r & Hr & Hstatus & _ & Hattr).
  exists r. split; [exact Hr|]. split.
  - rewrite Hstatus. vm_compute. reflexivity.
  - rewrite Hattr. vm_compute. reflexivity.
Defined.

(** * Further properties of the hooks *)

(** X1. A callback invoked with an input whose [hook_event_name] is not
    the name it is registered under does nothing: it returns
    [{ continue: true }] and the state is unchanged. *)
Theorem mismatched_event_name_is_ignored (ev : HookEvent) (input : HookInput) :
  is_event input (hook_name ev) = false ->
  (forall tc st, SingleTrace.hooks tc ev input st = (Normal (mkOutput true), st)) ∧
  (forall tc st, ByAgent.hooks tc ev input st = (Normal (mkOutput true), st)) ∧
  (forall st, IndividualTraces.hooks ev input st = (Normal (mkOutput true), st)).
Proof.
  intros Hname. split; [|split]; intros; destruct ev; simpl in Hname.
  all: try (SingleTraceFacts.single_unfold; simpl; now rewrite Hname).
  all: try (ByAgentFacts.byagent_unfold; simpl; now rewrite Hname).
  all: IndividualTracesFacts.individual_unfold; simpl; now rewrite Hname.
Qed.

(** A stop event delivered to the post-use callback of a state with a
    registered tool. *)
Lemma mismatched_event_name_is_ignored_witness :
  let tc := SingleTrace.mkContext 0 (SpanContext 0) 1 (SpanContext 1) in
  let st := SingleTrace.run tc [tool_pre "U1" "Bash" JUndefined (js_json "{}")]
              (SingleTrace.withAgentTelemetry (SingleTrace.initial [])).2 in
  SingleTrace.hooks tc PostToolUse (ev_input (agent_stop "U1")) st
    = (Normal (mkOutput true), st).
Proof.
  intros tc st.
  destruct (mismatched_event_name_is_ignored PostToolUse (ev_input (agent_stop "U1")) eq_refl)
    as [Hsingle _].
  apply Hsingle.
Defined.

(** X2. When a tool response can neither be serialized nor coerced to a
    string, the post-use hook of a registered tool throws before it touches
    the span: the state is unchanged, the tool stays registered. *)
Theorem unmeasurable_response_throws (input : HookInput) :
  is_event input "PostToolUse" = true ->
  response_size (tool_response input) = None ->
  (forall tc st d,
     Map_get (tool_use_id input) (SingleTrace.toolSpans st) = Some d ->
     SingleTrace.hooks tc PostToolUse input st = (Abrupt TypeError, st)) ∧
  (forall tc st d,
     Map_get (tool_use_id input) (ByAgent.toolSpans st) = Some d ->
     ByAgent.hooks tc PostToolUse input st = (Abrupt TypeError, st)) ∧
  (forall st d,
     Map_get (tool_use_id input) (IndividualTraces.toolSpans st) = Some d ->
     IndividualTraces.hooks PostToolUse input st = (Abrupt TypeError, st)).
Proof.
  unfold response_size. intros Hev Hsize. split; [|split].
  - intros tc st d Hget. SingleTraceFacts.single_unfold. simpl.
    rewrite Hev. simpl. rewrite Hget. simpl.
    destruct (JSON_stringify (tool_response input)); try discriminate;
      destruct (String_of (tool_response input)); try discriminate; reflexivity.
  - intros tc st d Hget. ByAgentFacts.byagent_unfold. simpl.
    rewrite Hev. simpl. rewrite Hget. simpl.
    destruct (JSON_stringify (tool_response input)); try discriminate;
      destruct (String_of (tool_response input)); try discriminate; reflexivity.
  - intros st d Hget. IndividualTracesFacts.individual_unfold. simpl.
    rewrite Hev. simpl. rewrite Hget. simpl.
    destruct (JSON_stringify (tool_response input)); try discriminate;
      destruct (String_of (tool_response input)); try discriminate; reflexivity.
Qed.

Lemma unmeasurable_response_throws_witness :
  let tc := ByAgent.mkContext 0 (SpanContext 0) in
  let st := ByAgent.run tc [tool_pre "U1" "Bash" JUndefined (js_json "{}")]
              (ByAgent.withAgentTelemetry (ByAgent.initial [])).2 in
  ByAgent.hooks tc PostToolUse
    (ev_input (tool_post "U1" (mkJsAny StringifyThrows None))) st
    = (Abrupt TypeError, st).
Proof.
  intros tc st.
  destruct (unmeasurable_response_throws
              (ev_input (tool_post "U1" (mkJsAny StringifyThrows None)))
              eq_refl eq_refl) as (_ & Hby & _).
  exact (Hby tc st (ByAgent.mkEntry 1 (SpanContext 1) JUndefined) eq_refl).
Defined.

Lemma single_response_size_recorded tc input st d n :
  SingleTrace.Inv tc st ->
  is_event input "PostToolUse" = true ->
  Map_get (tool_use_id input) (SingleTrace.toolSpans st) = Some d ->
  response_size (tool_response input) = Some n ->
  exists r,
    SingleTrace.st_tracer (SingleTrace.hooks tc PostToolUse input st).2
      !! SingleTrace.span d = Some r ∧
    span_attributes r !! "tool.response.size_bytes" = Some (AttrNumber (Z.of_nat n)) ∧
    span_attributes r !! "tool.success" = Some (AttrBoolean true).
Proof.
  intros HI Hev Hget Hsize.
  destruct (SingleTraceFacts.single_Inv_open tc st _ HI
              (SingleTraceFacts.single_tool_handle _ _ _ Hget)) as (r & Hr & He).
  unfold response_size in Hsize.
  SingleTraceFacts.single_unfold. simpl. rewrite Hev. simpl. rewrite Hget. simpl.
  destruct (JSON_stringify (tool_response input));
    [injection Hsize as <- | |];
    try (destruct (String_of (tool_response input)); [injection Hsize as <- | discriminate]).
  all: simpl; rewrite !list_lookup_alter_eq, Hr; simpl.
  all: eexists; split; [reflexivity|]; simpl.
  all: now rewrite lookup_insert_eq, lookup_insert_ne, lookup_insert_eq by done.
Qed.

Lemma by_agent_response_size_recorded tc input st d n :
  ByAgent.Inv tc st ->
  is_event input "PostToolUse" = true ->
  Map_get (tool_use_id input) (ByAgent.toolSpans st) = Some d ->
  response_size (tool_response input) = Some n ->
  exists r,
    ByAgent.st_tracer (ByAgent.hooks tc PostToolUse input st).2
      !! ByAgent.span d = Some r ∧
    span_attributes r !! "tool.response.size_bytes" = Some (AttrNumber (Z.of_nat n)) ∧
    span_attributes r !! "tool.success" = Some (AttrBoolean true).
Proof.
  intros HI Hev Hget Hsize.
  destruct (ByAgentFacts.by_agent_Inv_open tc st _ HI
              (ByAgentFacts.by_agent_tool_handle _ _ _ Hget)) as (r & Hr & He).
  unfold response_size in Hsize.
  ByAgentFacts.byagent_unfold. simpl. rewrite Hev. simpl. rewrite Hget. simpl.
  destruct (JSON_stringify (tool_response input));
    [injection Hsize as <- | |];
    try (destruct (String_of (tool_response input)); [injection Hsize as <- | discriminate]).
  all: simpl; rewrite !list_lookup_alter_eq, Hr; simpl.
  all: eexists; split; [reflexivity|]; simpl.
  all: now rewrite lookup_insert_eq, lookup_insert_ne, lookup_insert_eq by done.
Qed.

Lemma individual_response_size_recorded input st d n :
  IndividualTraces.Inv st ->
  is_event input "PostToolUse" = true ->
  Map_get (tool_use_id input) (IndividualTraces.toolSpans st) = Some d ->
  response_size (tool_response input) = Some n ->
  exists r,
    IndividualTraces.st_tracer (IndividualTraces.hooks PostToolUse input st).2
      !! IndividualTraces.span d = Some r ∧
    span_attributes r !! "tool.response.size_bytes" = Some (AttrNumber (Z.of_nat n)) ∧
    span_attributes r !! "tool.success" = Some (AttrBoolean true) ∧
    span_attributes r !! "duration_ms"
      = Some (AttrNumber (IndividualTraces.st_clock st - IndividualTraces.startTime d)%Z).
Proof.
  intros HI Hev Hget Hsize.
  destruct (IndividualTracesFacts.individual_Inv_open st _ HI
              (IndividualTracesFacts.individual_tool_handle _ _ _ Hget)) as (r & Hr & He).
  unfold response_size in Hsize.
  IndividualTracesFacts.individual_unfold. simpl. rewrite Hev. simpl. rewrite Hget. simpl.
  destruct (JSON_stringify (tool_response input));
    [injection Hsize as <- | |];
    try (destruct (String_of (tool_response input)); [injection Hsize as <- | discriminate]).
  all: simpl; rewrite !list_lookup_alter_eq, Hr; simpl.
  all: eexists; split; [reflexivity|]; simpl.
  all: repeat split.
  all: try now rewrite lookup_insert_ne, lookup_insert_eq by done.
  all: try now rewrite lookup_insert_eq.
  all: now rewrite !lookup_insert_ne, lookup_insert_eq by done.
Qed.

(** X3. For a registered tool, the post-use hook records as
    [tool.response.size_bytes] the length of the serialized response -- the
    length of [String] of the response when [JSON.stringify] throws or
    returns [undefined], for instance 9 for a missing response -- and marks
    [tool.success] true. *)
Theorem response_size_recorded (t : list SpanRecord) (events : list Event)
    (input : HookInput) (n : nat) :
  is_event input "PostToolUse" = true ->
  response_size (tool_response input) = Some n ->
  (forall tc st d,
     SingleTrace.reached t events = Some (tc, st) ->
     Map_get (tool_use_id input) (SingleTrace.toolSpans st) = Some d ->
     exists r,
       SingleTrace.st_tracer (SingleTrace.hooks tc PostToolUse input st).2
         !! SingleTrace.span d = Some r ∧
       span_attributes r !! "tool.response.size_bytes" = Some (AttrNumber (Z.of_nat n)) ∧
       span_attributes r !! "tool.success" = Some (AttrBoolean true)) ∧
  (forall tc st d,
     ByAgent.reached t events = Some (tc, st) ->
     Map_get (tool_use_id input) (ByAgent.toolSpans st) = Some d ->
     exists r,
       ByAgent.st_tracer (ByAgent.hooks tc PostToolUse input st).2
         !! ByAgent.span d = Some r ∧
       span_attributes r !! "tool.response.size_bytes" = Some (AttrNumber (Z.of_nat n)) ∧
       span_attributes r !! "tool.success" = Some (AttrBoolean true)) ∧
  (forall d,
     let st := IndividualTraces.reached t events in
     Map_get (tool_use_id input) (IndividualTraces.toolSpans st) = Some d ->
     exists r,
       IndividualTraces.st_tracer (IndividualTraces.hooks PostToolUse input st).2
         !! IndividualTraces.span d = Some r ∧
       span_attributes r !! "tool.response.size_bytes" = Some (AttrNumber (Z.of_nat n)) ∧
       span_attributes r !! "tool.success" = Some (AttrBoolean true)).
Proof.
  intros Hev Hsize. split; [|split].
  - intros tc st d Hreach Hget. apply single_reached_Inv in Hreach.
    now apply single_response_size_recorded.
  - intros tc st d Hreach Hget. apply by_agent_reached_Inv in Hreach.
    now apply by_agent_response_size_recorded.
  - intros d st Hget.
    destruct (individual_response_size_recorded input st d n
                (individual_reached_Inv t events) Hev Hget Hsize)
      as (r & Hr & Hsz & Hok & _).
    now exists r.
Qed.

(** A post-use event with no response: the size recorded is that of the
    text "undefined". *)
Lemma response_size_recorded_witness :
  let tc := SingleTrace.mkContext 0 (SpanContext 0) 1 (SpanContext 1) in
  let st := SingleTrace.run tc [tool_pre "U1" "Bash" JUndefined (js_json "{}")]
              (SingleTrace.withAgentTelemetry (SingleTrace.initial [])).2 in
  exists r,
    SingleTrace.st_tracer
      (SingleTrace.hooks tc PostToolUse (ev_input (tool_post "U1" js_undefined)) st).2
      !! 2 = Some r ∧
    span_attributes r !! "tool.response.size_bytes" = Some (AttrNumber 9) ∧
    span_attributes r !! "tool.success" = Some (AttrBoolean true).
Proof.
  intros tc st.
  destruct (response_size_recorded []
              [tool_pre "U1" "Bash" JUndefined (js_json "{}")]
              (ev_input (tool_post "U1" js_undefined)) 9 eq_refl eq_refl)
    as [Hsingle _].
  exact (Hsingle tc st (SingleTrace.mkEntry 2 (SpanContext 2)) eq_refl eq_refl).
Defined.

(** ** No span is closed twice *)

Section AtMostOnce.
Variable exempt : option nat.

Lemma once_snoc (t : list SpanRecord) x :
  span_ended x = [] ->
  closed_at_most_once_but exempt t -> closed_at_most_once_but exempt (t ++ [x]).
Proof.
  intros Hx Ht h Hh. specialize (Ht h Hh). unfold end_count in *.
  destruct (decide (h < List.length t)) as [Hlt|Hge].
  - now rewrite lookup_app_l.
  - rewrite lookup_app_r by lia.
    destruct (h - List.length t) as [|k]; simpl; [rewrite Hx; simpl; lia|lia].
Qed.

Lemma once_alter_keep (t : list SpanRecord) f h0 :
  (forall r, span_ended (f r) = span_ended r) ->
  closed_at_most_once_but exempt t -> closed_at_most_once_but exempt (alter f h0 t).
Proof. intros Hf Ht h Hh. rewrite end_count_alter_keep by exact Hf. now apply Ht. Qed.

Lemma once_alter_end (t : list SpanRecord) h0 :
  is_open t h0 ->
  closed_at_most_once_but exempt t ->
  closed_at_most_once_but exempt (alter rec_end h0 t).
Proof.
  intros (r & Hr & He) Ht h Hh. destruct (decide (h0 = h)) as [->|Hne].
  - unfold end_count. rewrite list_lookup_alter_eq, Hr. simpl. rewrite He. simpl. lia.
  - rewrite end_count_alter_ne by exact Hne. now apply Ht.
Qed.

Lemma once_sweep {E} (hd : E -> nat) (s : E -> SpanStatus)
    (f : E -> SpanRecord -> SpanRecord) es (t : list SpanRecord) :
  (forall e r, span_ended (f e r) = span_ended r) ->
  NoDup (hd <$> es) ->
  Forall (fun e => is_open t (hd e)) es ->
  closed_at_most_once_but exempt t ->
  closed_at_most_once_but exempt (sweep hd (fun e r => close_as (s e) (f e r)) es t).
Proof.
  intros Hf Hnd Hopen Ht h Hh.
  destruct (decide (h ∈ hd <$> es)) as [Hin|Hout].
  - apply list_elem_of_fmap in Hin as (e & -> & Hin).
    rewrite Forall_forall in Hopen. destruct (Hopen e Hin) as (r & Hr & He).
    unfold end_count. rewrite sweep_lookup_in by assumption.
    rewrite Hr. simpl. rewrite Hf, He. simpl. lia.
  - unfold end_count. rewrite sweep_lookup_out by exact Hout. now apply Ht.
Qed.
End AtMostOnce.

Lemma is_open_fresh (t : list SpanRecord) x n :
  List.length t = n -> span_ended x = [] -> is_open (t ++ [x]) n.
Proof.
  intros <- Hx. exists x. split; [|exact Hx]. now apply list_lookup_middle.
Qed.

Lemma is_open_sweep_out {E} (hd : E -> nat) g es (t : list SpanRecord) h :
  h ∉ hd <$> es -> is_open t h -> is_open (sweep hd g es t) h.
Proof.
  intros Hout (r & Hr & He). exists r. split; [|exact He].
  now rewrite sweep_lookup_out.
Qed.

Ltac open_solve :=
  repeat (apply is_open_alter_keep; [keeps_ended|]);
  first [ assumption
        | apply is_open_fresh; [by rewrite ?length_alter | reflexivity]
        | apply is_open_snoc; assumption ].

Ltac once_peel :=
  rewrite ?length_alter;
  repeat first
    [ apply once_alter_keep; [keeps_ended|]
    | apply once_alter_end; [open_solve|]
    | apply once_snoc; [reflexivity|] ];
  try assumption.

Ltac open_handles inv_open tool_handle agent_handle HI :=
  repeat match goal with
  | Hget : Map_get _ _ = Some ?d |- _ =>
      first [ pose proof (inv_open _ _ _ HI (tool_handle _ _ _ Hget))
            | pose proof (inv_open _ _ _ HI (agent_handle _ _ _ Hget)) ];
      revert Hget
  end; intros.

Lemma single_hooks_once x tc ev input st :
  SingleTrace.Inv tc st ->
  closed_at_most_once_but x (SingleTrace.st_tracer st) ->
  closed_at_most_once_but x (SingleTrace.st_tracer (SingleTrace.hooks tc ev input st).2).
Proof.
  intros HI Hone.
  assert (Hsess : is_open (SingleTrace.st_tracer st) (SingleTrace.sessionSpan tc)).
  { destruct HI as [[_ Hall] _]. now apply Forall_cons in Hall as [Ho _]. }
  destruct ev; SingleTraceFacts.single_unfold; simpl; repeat (hook_case; simpl);
    try exact Hone.
  all: open_handles SingleTraceFacts.single_Inv_open SingleTraceFacts.single_tool_handle
         SingleTraceFacts.single_agent_handle HI.
  all: once_peel.
Qed.

Lemma by_agent_hooks_once x tc ev input st :
  ByAgent.Inv tc st ->
  closed_at_most_once_but x (ByAgent.st_tracer st) ->
  closed_at_most_once_but x (ByAgent.st_tracer (ByAgent.hooks tc ev input st).2).
Proof.
  intros HI Hone.
  destruct ev; ByAgentFacts.byagent_unfold; simpl;
    repeat (ByAgentFacts.byagent_case; simpl); try exact Hone.
  all: open_handles ByAgentFacts.by_agent_Inv_open ByAgentFacts.by_agent_tool_handle
         ByAgentFacts.by_agent_agent_handle HI.
  all: once_peel.
Qed.

Lemma individual_hooks_once x ev input st :
  IndividualTraces.Inv st ->
  closed_at_most_once_but x (IndividualTraces.st_tracer st) ->
  closed_at_most_once_but x
    (IndividualTraces.st_tracer (IndividualTraces.hooks ev input st).2).
Proof.
  intros HI Hone.
  destruct ev; IndividualTracesFacts.individual_unfold; simpl;
    repeat (hook_case; simpl); try exact Hone.
  all: repeat match goal with
  | Hget : Map_get _ _ = Some ?d |- _ =>
      first [ pose proof (IndividualTracesFacts.individual_Inv_open _ _ HI
                            (IndividualTracesFacts.individual_tool_handle _ _ _ Hget))
            | pose proof (IndividualTracesFacts.individual_Inv_open _ _ HI
                            (IndividualTracesFacts.individual_agent_handle _ _ _ Hget)) ];
      revert Hget
  end; intros.
  all: once_peel.
Qed.

Lemma single_run_once x tc events st :
  SingleTrace.Inv tc st ->
  closed_at_most_once_but x (SingleTrace.st_tracer st) ->
  closed_at_most_once_but x (SingleTrace.st_tracer (SingleTrace.run tc events st)).
Proof.
  unfold SingleTrace.run. revert st.
  induction events as [|e events IH]; intros st HI Hone; simpl; [exact Hone|].
  apply IH; [now apply SingleTraceFacts.single_hooks_Inv | now apply single_hooks_once].
Qed.

Lemma by_agent_run_once x tc events st :
  ByAgent.Inv tc st ->
  closed_at_most_once_but x (ByAgent.st_tracer st) ->
  closed_at_most_once_but x (ByAgent.st_tracer (ByAgent.run tc events st)).
Proof.
  unfold ByAgent.run. revert st.
  induction events as [|e events IH]; intros st HI Hone; simpl; [exact Hone|].
  apply IH; [now apply ByAgentFacts.by_agent_hooks_Inv | now apply by_agent_hooks_once].
Qed.

Lemma individual_run_once x events st :
  IndividualTraces.Inv st ->
  closed_at_most_once_but x (IndividualTraces.st_tracer st) ->
  closed_at_most_once_but x (IndividualTraces.st_tracer (IndividualTraces.run events st)).
Proof.
  unfold IndividualTraces.run. revert st.
  induction events as [|e events IH]; intros st HI Hone; simpl; [exact Hone|].
  apply IH.
  - apply IndividualTracesFacts.individual_hooks_Inv.
    now apply IndividualTracesFacts.individual_set_clock_Inv.
  - apply (individual_hooks_once x _ _ (IndividualTraces.set_clock (ev_time e) st));
      [now apply IndividualTracesFacts.individual_set_clock_Inv | exact Hone].
Qed.

Lemma once_alter_exempt (t : list SpanRecord) f h0 :
  closed_at_most_once_but (Some h0) t -> closed_at_most_once_but (Some h0) (alter f h0 t).
Proof.
  intros Ht h Hh. rewrite end_count_alter_ne by congruence. now apply Ht.
Qed.

Lemma once_weaken x (t : list SpanRecord) :
  closed_at_most_once_but None t -> closed_at_most_once_but x t.
Proof. intros Ht h _. now apply Ht. Qed.

Lemma once_alter_close x (t : list SpanRecord) s h0 :
  is_open t h0 ->
  closed_at_most_once_but x t -> closed_at_most_once_but x (alter (close_as s) h0 t).
Proof.
  intros (r & Hr & He) Ht h Hh. destruct (decide (h0 = h)) as [->|Hne].
  - unfold end_count. rewrite list_lookup_alter_eq, Hr. simpl. rewrite He. simpl. lia.
  - rewrite end_count_alter_ne by exact Hne. now apply Ht.
Qed.

Lemma live_open_all {E} (hd : E -> nat) (t : list SpanRecord) (es : list E) :
  (forall h, h ∈ hd <$> es -> is_open t h) -> Forall (fun e => is_open t (hd e)) es.
Proof.
  intros Hall. apply Forall_forall. intros e Hin. apply Hall.
  now apply list_elem_of_fmap_2.
Qed.

Lemma single_cleanup_once x tc st :
  SingleTrace.Inv tc st ->
  closed_at_most_once_but x (SingleTrace.st_tracer st) ->
  closed_at_most_once_but x (SingleTrace.st_tracer (SingleTrace.cleanup tc st).2).
Proof.
  intros HI Hone.
  destruct (SingleTraceFacts.single_Inv_NoDup _ _ HI) as (Ha & Ht & Hat & Hs).
  assert (Hsess : is_open (SingleTrace.st_tracer st) (SingleTrace.sessionSpan tc)).
  { destruct HI as [[_ Hall] _]. now apply Forall_cons in Hall as [Ho _]. }
  pose proof (fun h => SingleTraceFacts.single_Inv_open tc st h HI) as Hopen.
  unfold SingleTrace.handles in Hopen, Hs. unfold Map_values in *.
  rewrite <- !list_fmap_compose in *.
  rewrite SingleTraceFacts.single_cleanup_eq. simpl. unfold SingleTrace.swept.
  apply once_alter_close.
  { apply is_open_sweep_out; [intros Hin; apply Hs, elem_of_app; now left|].
    apply is_open_sweep_out; [intros Hin; apply Hs, elem_of_app; now right|].
    exact Hsess. }
  apply (once_sweep x (fun e => SingleTrace.span e.2) (fun _ => SingleTrace.orphaned)
           (fun _ r => r)); [reflexivity | exact Ha | |].
  { apply (live_open_all (fun e => SingleTrace.span e.2)). intros h Hin.
    apply is_open_sweep_out; [now apply Hat|]. apply Hopen, elem_of_app. now left. }
  apply (once_sweep x (fun e => SingleTrace.span e.2) (fun _ => SingleTrace.orphaned)
           (fun _ r => r)); [reflexivity | exact Ht | | exact Hone].
  apply (live_open_all (fun e => SingleTrace.span e.2)). intros h Hin.
  apply Hopen, elem_of_app. now right.
Qed.

Lemma by_agent_cleanup_once x tc st :
  ByAgent.Inv tc st ->
  closed_at_most_once_but x (ByAgent.st_tracer st) ->
  closed_at_most_once_but x (ByAgent.st_tracer (ByAgent.cleanup st).2).
Proof.
  intros HI Hone.
  destruct (ByAgentFacts.by_agent_Inv_NoDup _ _ HI) as (Ha & Ht & Hat & Hs).
  pose proof (fun h => ByAgentFacts.by_agent_Inv_open tc st h HI) as Hopen.
  unfold ByAgent.handles in Hopen, Hs. unfold Map_values in *.
  rewrite <- !list_fmap_compose in *.
  rewrite ByAgentFacts.by_agent_cleanup_eq. simpl.
  unfold ByAgent.swept_agents, ByAgent.swept_tools.
  apply (once_sweep x (fun e => ByAgent.at_rootSpan e.2) (fun _ => ByAgent.orphaned_trace)
           (fun _ r => r)); [reflexivity | exact Ha | |].
  { apply (live_open_all (fun e => ByAgent.at_rootSpan e.2)). intros h Hin.
    apply is_open_sweep_out; [now apply Hat|]. apply Hopen, elem_of_app. now left. }
  apply (once_sweep x (fun e => ByAgent.span e.2) (fun _ => ByAgent.orphaned)
           (fun _ r => r)); [reflexivity | exact Ht | | exact Hone].
  apply (live_open_all (fun e => ByAgent.span e.2)). intros h Hin.
  apply Hopen, elem_of_app. now right.
Qed.

Lemma individual_cleanup_once x st :
  IndividualTraces.Inv st ->
  closed_at_most_once_but x (IndividualTraces.st_tracer st) ->
  closed_at_most_once_but x (IndividualTraces.st_tracer (IndividualTraces.cleanup st).2).
Proof.
  intros HI Hone.
  destruct (IndividualTracesFacts.individual_Inv_NoDup _ HI) as (Ha & Ht & Hat).
  pose proof (fun h => IndividualTracesFacts.individual_Inv_open st h HI) as Hopen.
  unfold IndividualTraces.handles in Hopen. unfold Map_values in *.
  rewrite <- !list_fmap_compose in *.
  rewrite IndividualTracesFacts.individual_cleanup_eq. simpl.
  unfold IndividualTraces.swept, IndividualTraces.close_orphan.
  apply (once_sweep x (fun e => IndividualTraces.span e.2)
           (fun _ => IndividualTraces.orphaned)
           (fun e => rec_setAttribute "duration_ms"
              (AttrNumber (IndividualTraces.st_clock st - IndividualTraces.startTime e.2)%Z)));
    [reflexivity | exact Ha | |].
  { apply (live_open_all (fun e => IndividualTraces.span e.2)). intros h Hin.
    apply is_open_sweep_out; [now apply Hat|]. apply Hopen, elem_of_app. now left. }
  apply (once_sweep x (fun e => IndividualTraces.span e.2)
           (fun _ => IndividualTraces.orphaned)
           (fun e => rec_setAttribute "duration_ms"
              (AttrNumber (IndividualTraces.st_clock st - IndividualTraces.startTime e.2)%Z)));
    [reflexivity | exact Ht | | exact Hone].
  apply (live_open_all (fun e => IndividualTraces.span e.2)). intros h Hin.
  apply Hopen, elem_of_app. now right.
Qed.

Lemma single_main_once t events query_error tc :
  (SingleTrace.withAgentTelemetry (SingleTrace.initial t)).1 = Normal tc ->
  closed_at_most_once_but None t ->
  closed_at_most_once_but (Some (SingleTrace.rootSpan tc))
    (SingleTrace.st_tracer (SingleTrace.main events query_error (SingleTrace.initial t)).2).
Proof.
  intros Htc Hone.
  destruct (SingleTraceFacts.single_withAgentTelemetry_Inv t)
    as (tc' & st0 & Hinit & HI & _).
  rewrite Hinit in Htc. simpl in Htc. injection Htc as ->.
  assert (Hone0 : closed_at_most_once_but (Some (SingleTrace.rootSpan tc))
                    (SingleTrace.st_tracer st0)).
  { revert Hinit. unfold SingleTrace.withAgentTelemetry. eff_unfold. simpl.
    intros [= <- <-]. simpl.
    apply once_snoc; [reflexivity|]. apply once_alter_exempt.
    apply once_snoc; [reflexivity|]. now apply once_weaken. }
  unfold SingleTrace.main. unfold mbind at 1. unfold eff_bind at 1. rewrite Hinit.
  apply (single_run_once _ tc events) in Hone0; [|exact HI].
  apply (SingleTraceFacts.single_run_Inv tc events) in HI.
  set (st1 := SingleTrace.run tc events st0) in *.
  unfold mbind at 1. unfold eff_bind at 1. unfold modify at 1. fold st1.
  assert (Hend : forall st2, SingleTrace.Inv tc st2 ->
    closed_at_most_once_but (Some (SingleTrace.rootSpan tc)) (SingleTrace.st_tracer st2) ->
    closed_at_most_once_but (Some (SingleTrace.rootSpan tc))
      (alter rec_end (SingleTrace.rootSpan tc)
         (SingleTrace.st_tracer (SingleTrace.cleanup tc st2).2))).
  { intros st2 HI2 H2. apply once_alter_exempt. now apply single_cleanup_once. }
  destruct query_error as [msg|].
  - pose proof (SingleTraceFacts.single_Inv_annotate_root tc st1
      (rec_recordException (stripAnsiCodes_string msg)
         ∘ rec_setStatus (mkStatus ERROR (Some (stripAnsiCodes_string msg))))
      (fun _ => eq_refl) HI) as HI2.
    specialize (Hend _ HI2). simpl in Hend.
    eff_unfold. simpl. rewrite SingleTraceFacts.single_cleanup_eq in *. simpl in *.
    rewrite list_alter_alter_eq. apply Hend. now apply once_alter_exempt.
  - pose proof (SingleTraceFacts.single_Inv_annotate_root tc st1 (rec_setStatus span_OK)
      (fun _ => eq_refl) HI) as HI2.
    specialize (Hend _ HI2). simpl in Hend.
    eff_unfold. simpl. rewrite SingleTraceFacts.single_cleanup_eq in *. simpl in *.
    apply Hend. now apply once_alter_exempt.
Qed.

Lemma by_agent_main_once t events query_error :
  closed_at_most_once_but None t ->
  closed_at_most_once_but None
    (ByAgent.st_tracer (ByAgent.main events query_error (ByAgent.initial t)).2).
Proof.
  intros Hone.
  destruct (ByAgentFacts.by_agent_withAgentTelemetry_Inv t) as (tc & st0 & Hinit & HI & _).
  assert (Hone0 : closed_at_most_once_but None (ByAgent.st_tracer st0)).
  { revert Hinit. unfold ByAgent.withAgentTelemetry. eff_unfold. simpl.
    intros [= <- <-]. simpl. now apply once_snoc. }
  unfold ByAgent.main. unfold mbind at 1. unfold eff_bind at 1. rewrite Hinit.
  apply (by_agent_run_once _ tc events) in Hone0; [|exact HI].
  apply (ByAgentFacts.by_agent_run_Inv tc events) in HI.
  set (st1 := ByAgent.run tc events st0) in *.
  unfold mbind at 1. unfold eff_bind at 1. unfold modify at 1. fold st1.
  destruct query_error as [msg|].
  - assert (HI2 : ByAgent.Inv tc
      (ByAgent.mkState
         (alter rec_end (List.length (ByAgent.st_tracer st1))
            (alter (rec_recordException msg) (List.length (ByAgent.st_tracer st1))
               (alter (rec_setStatus (mkStatus ERROR (Some msg)))
                  (List.length (ByAgent.st_tracer st1))
                  (ByAgent.st_tracer st1 ++ [new_span "agent.error" ROOT_CONTEXT]))))
         (ByAgent.agentTraces st1) (ByAgent.toolSpans st1) (ByAgent.currentAgentId st1))).
    { unfold ByAgent.Inv in *. pose proof (live_fresh _ _ HI) as Hfresh.
      unfold ByAgent.handles in *. simpl. live_peel_all. exact HI. }
    pose proof (by_agent_cleanup_once None tc _ HI2) as Hend. simpl in Hend.
    eff_unfold. simpl. rewrite ?length_alter.
    rewrite ByAgentFacts.by_agent_cleanup_eq in *. simpl in *.
    apply Hend. once_peel.
  - pose proof (by_agent_cleanup_once None tc _ HI Hone0) as Hend.
    eff_unfold. simpl. rewrite ByAgentFacts.by_agent_cleanup_eq in *. exact Hend.
Qed.

Lemma individual_main_once t now events query_error :
  closed_at_most_once_but None t ->
  closed_at_most_once_but None
    (IndividualTraces.st_tracer
       (IndividualTraces.main events query_error (IndividualTraces.initial t now)).2).
Proof.
  intros Hone.
  pose proof (IndividualTracesFacts.individual_initial_Inv t now) as HI.
  apply (IndividualTracesFacts.individual_run_Inv events) in HI.
  apply (individual_run_once None events (IndividualTraces.initial t now)) in Hone;
    [|apply IndividualTracesFacts.individual_initial_Inv].
  unfold IndividualTraces.main.
  unfold mbind at 1. unfold eff_bind at 1. unfold modify at 1.
  set (st1 := IndividualTraces.run events (IndividualTraces.initial t now)) in *.
  destruct query_error as [msg|].
  - assert (HI2 : IndividualTraces.Inv
      (IndividualTraces.mkState
         (alter rec_end (List.length (IndividualTraces.st_tracer st1))
            (alter (rec_recordException msg) (List.length (IndividualTraces.st_tracer st1))
               (alter (rec_setStatus (mkStatus ERROR (Some msg)))
                  (List.length (IndividualTraces.st_tracer st1))
                  (IndividualTraces.st_tracer st1 ++ [new_span "agent.error" ROOT_CONTEXT]))))
         (IndividualTraces.agentSpans st1) (IndividualTraces.toolSpans st1)
         (IndividualTraces.st_clock st1))).
    { unfold IndividualTraces.Inv in *. pose proof (live_fresh _ _ HI) as Hfresh.
      unfold IndividualTraces.handles in *. simpl. live_peel_all. exact HI. }
    pose proof (individual_cleanup_once None _ HI2) as Hend. simpl in Hend.
    eff_unfold. simpl. rewrite ?length_alter.
    rewrite IndividualTracesFacts.individual_cleanup_eq in *. simpl in *.
    apply Hend. once_peel.
  - pose proof (individual_cleanup_once None _ HI Hone) as Hend.
    eff_unfold. simpl. rewrite IndividualTracesFacts.individual_cleanup_eq in *. exact Hend.
Qed.

(** X5. Across a whole run of an entry point -- the context set up, any
    hooks invoked in any order, the error path or not, the cleanup -- no
    span that was not already closed twice is closed more than once, the
    root span of the single-trace module apart: every other [end()] in
    the three modules is called on a span that is still open. *)
Theorem no_span_is_closed_twice (t : Tracer) (events : list Event)
    (query_error : option string) :
  closed_at_most_once_but None t ->
  (forall tc, (SingleTrace.withAgentTelemetry (SingleTrace.initial t)).1 = Normal tc ->
     closed_at_most_once_but (Some (SingleTrace.rootSpan tc))
       (SingleTrace.st_tracer
          (SingleTrace.main events query_error (SingleTrace.initial t)).2)) ∧
  closed_at_most_once_but None
    (ByAgent.st_tracer (ByAgent.main events query_error (ByAgent.initial t)).2) ∧
  (forall now, closed_at_most_once_but None
     (IndividualTraces.st_tracer
        (IndividualTraces.main events query_error (IndividualTraces.initial t now)).2)).
Proof.
  intros Hone. split; [|split].
  - intros tc Htc. now apply single_main_once.
  - now apply by_agent_main_once.
  - intros now. now apply individual_main_once.
Qed.

Lemma no_span_is_closed_twice_witness :
  let events := [agent_start "a1" "planner"; tool_pre "t1" "Read" JUndefined js_undefined;
                 tool_post "t1" js_undefined; tool_pre "t2" "Bash" JUndefined js_undefined] in
  closed_at_most_once_but None [] ∧
  closed_at_most_once_but (Some 0)
    (SingleTrace.st_tracer (SingleTrace.main events (Some "boom") (SingleTrace.initial [])).2) ∧
  closed_at_most_once_but None
    (ByAgent.st_tracer (ByAgent.main events (Some "boom") (ByAgent.initial [])).2).
Proof.
  assert (H : closed_at_most_once_but None []).
  { intros h _. unfold end_count. simpl. lia. }
  split; [exact H|]. split.
  - apply (proj1 (no_span_is_closed_twice [] _ (Some "boom") H)
             (SingleTrace.mkContext 0 (SpanContext 0) 1 (SpanContext 1))).
    reflexivity.
  - apply (no_span_is_closed_twice [] _ (Some "boom") H).
Defined.

(** * telemetry.ts *)

Lemma num_le_false_pos (n : JsNumber) :
  isNaN n || num_le n (Finite 0) = false ->
  n = PosInfinity ∨ exists z, n = Finite z ∧ (0 < z)%Z.
Proof.
  destruct n as [|z| |]; simpl; try discriminate; [|now left].
  intros H. right. exists z. split; [reflexivity|]. apply Z.leb_gt in H. lia.
Qed.

(** X6. Whatever [parseInt] makes of the environment variable -- NaN, a
    negative number, zero, an infinity, any integer -- an export interval
    computed from a valid default is valid, that is a number from 100 to
    3,600,000; and a positive integer is clamped to that range. *)
Theorem export_interval_is_valid (parseInt : string -> JsNumber)
    (envName : string) (envValue : JsVal) (defaultValue : JsNumber) :
  valid_interval defaultValue ->
  valid_interval (parseExportInterval parseInt envName envValue defaultValue) ∧
  (forall z, truthy envValue = true ->
     parseInt (template envValue) = Finite z -> (0 < z)%Z ->
     parseExportInterval parseInt envName envValue defaultValue =
     Finite (Z.max MIN_METRIC_INTERVAL (Z.min MAX_METRIC_INTERVAL z))).
Proof.
  intros Hdef. unfold parseExportInterval, valid_interval in *. split.
  - destruct (truthy envValue); simpl; [|exact Hdef].
    destruct (isNaN _ || num_le _ _) eqn:Hbad; [exact Hdef|].
    apply num_le_false_pos in Hbad as [-> | (z & -> & Hz)]; simpl.
    + exists MAX_METRIC_INTERVAL. split; [reflexivity|].
      unfold MIN_METRIC_INTERVAL, MAX_METRIC_INTERVAL. lia.
    + unfold MIN_METRIC_INTERVAL, MAX_METRIC_INTERVAL.
      destruct (Z.ltb_spec z 100); [eexists; split; [reflexivity|lia]|].
      destruct (Z.ltb_spec 3600000 z); eexists; (split; [reflexivity|lia]).
  - intros z -> -> Hz. simpl.
    unfold MIN_METRIC_INTERVAL, MAX_METRIC_INTERVAL.
    destruct (Z.leb_spec z 0); [lia|]. simpl.
    destruct (Z.ltb_spec z 100); [f_equal; lia|].
    destruct (Z.ltb_spec 3600000 z); f_equal; lia.
Qed.

(** A variable set to a digit string too long for a double: [parseInt]
    answers [Infinity], and the interval is still valid. *)
Lemma export_interval_is_valid_witness :
  valid_interval (Finite DEFAULT_METRIC_INTERVAL) ∧
  valid_interval
    (parseExportInterval (fun _ => PosInfinity) "OTEL_METRIC_EXPORT_INTERVAL"
       (JString "9999") (Finite DEFAULT_METRIC_INTERVAL)).
Proof.
  assert (H : valid_interval (Finite DEFAULT_METRIC_INTERVAL)).
  { exists DEFAULT_METRIC_INTERVAL. split; [reflexivity|].
    unfold DEFAULT_METRIC_INTERVAL, MIN_METRIC_INTERVAL, MAX_METRIC_INTERVAL. lia. }
  split; [exact H|].
  apply (export_interval_is_valid (fun _ => PosInfinity)
    "OTEL_METRIC_EXPORT_INTERVAL" (JString "9999") _ H).
Defined.

(** * truncateAttribute *)

Lemma substring_prefix_append (n : nat) (s t : string) :
  n <= String.length s ->
  String.substring 0 n (String.substring 0 n s +:+ t) = String.substring 0 n s.
Proof.
  revert s. induction n as [|n IH]; intros s; simpl; intros Hle.
  - now destruct (String.substring 0 0 s +:+ t), s.
  - destruct s as [|c s]; simpl in *; [lia|]. rewrite IH; [reflexivity | lia].
Qed.

(** X7. The result of [truncateAttribute] is at most 15 characters longer
    than the limit; a value over the limit comes out exactly 15 characters
    longer than the limit, so a value less than 15 characters over it comes
    out longer than it went in; and truncating twice is truncating once. *)
Theorem truncation_adds_a_suffix (s : string) (n : nat) :
  String.length (truncate s n) <= n + 15 ∧
  (n < String.length s -> String.length (truncate s n) = n + 15) ∧
  (n < String.length s < n + 15 -> String.length s < String.length (truncate s n)) ∧
  truncate (truncate s n) n = truncate s n.
Proof.
  assert (Hlong : n < String.length s -> String.length (truncate s n) = n + 15).
  { intros Hlt. rewrite truncate_long by exact Hlt.
    rewrite string_length_append, string_length_substring0 by lia. reflexivity. }
  split; [|split; [exact Hlong|split]].
  - destruct (decide (String.length s <= n)) as [Hle|Hgt].
    + rewrite truncate_short by exact Hle. lia.
    + rewrite Hlong by lia. lia.
  - intros [Hlt Hlt']. rewrite Hlong by exact Hlt. lia.
  - destruct (decide (String.length s <= n)) as [Hle|Hgt].
    + now rewrite !truncate_short by (rewrite ?truncate_short; assumption).
    + rewrite (truncate_long (truncate s n)) by (rewrite Hlong; lia).
      rewrite (truncate_long s) by lia.
      rewrite substring_prefix_append by lia. reflexivity.
Qed.

(** A value one character over a limit of 5 grows from 6 characters to 20. *)
Lemma truncation_adds_a_suffix_witness :
  5 < String.length "abcdef" < 5 + 15 ∧
  String.length "abcdef" < String.length (truncate "abcdef" 5).
Proof.
  assert (H : 5 < String.length "abcdef" < 5 + 15) by (simpl; lia).
  split; [exact H|].
  apply (proj1 (proj2 (proj2 (truncation_adds_a_suffix "abcdef" 5))) H).
Defined.

(** * errorUtils.ts *)

Lemma not_control_plain (c : N) : is_stripped_control c = false -> is_plain c.
Proof. intros Hc. split; [|exact Hc]. intros ->. discriminate. Qed.

(** *** Each pass only removes or replaces *)

Lemma remove_sequences_length (k : nat) (l : list N) :
  List.length (remove_sequences k l) <= List.length l.
Proof.
  revert k. induction l as [|c l IH]; intros k; simpl; [lia|].
  destruct k as [|k]; [|specialize (IH k); lia].
  destruct (c =? ESC)%N; [|specialize (IH 0); simpl; lia].
  destruct (csi_match l) as [n|]; [specialize (IH n); lia|].
  specialize (IH 0). simpl. lia.
Qed.

Lemma collapse_spaces_length (l : list N) :
  List.length (collapse_spaces l) <= List.length l.
Proof.
  induction l as [|c l IH]; [simpl; lia|].
  destruct l as [|c' l']; [simpl; lia|].
  change (collapse_spaces (c :: c' :: l')) with
    (if (c =? SPACE)%N && (c' =? SPACE)%N then collapse_spaces (c' :: l')
     else c :: collapse_spaces (c' :: l')).
  destruct ((c =? SPACE)%N && (c' =? SPACE)%N); simpl in *; lia.
Qed.

Lemma collapse_spaces_subset (l : list N) (x : N) :
  x ∈ collapse_spaces l -> x ∈ l.
Proof.
  induction l as [|c l IH]; [simpl; auto|].
  destruct l as [|c' l']; [simpl; auto|].
  change (collapse_spaces (c :: c' :: l')) with
    (if (c =? SPACE)%N && (c' =? SPACE)%N then collapse_spaces (c' :: l')
     else c :: collapse_spaces (c' :: l')).
  destruct ((c =? SPACE)%N && (c' =? SPACE)%N).
  - intros Hin. right. now apply IH.
  - intros [->|Hin]%elem_of_cons; [now left|]. right. now apply IH.
Qed.

Lemma trim_start_suffix (l : list N) : exists a, l = a ++ trim_start l.
Proof.
  induction l as [|c l (a & IH)]; [now exists []|]. simpl.
  destruct (is_white_space c); [|now exists []].
  exists (c :: a). simpl. now rewrite <- IH.
Qed.

Lemma trim_infix (l : list N) : exists a b, l = a ++ trim l ++ b.
Proof.
  unfold trim. destruct (trim_start_suffix l) as (a & Ha).
  destruct (trim_start_suffix (reverse (trim_start l))) as (b & Hb).
  exists a, (reverse b). rewrite <- reverse_app, <- Hb, reverse_involutive. exact Ha.
Qed.

Lemma stripAnsiCodes_length (text : list N) :
  List.length (stripAnsiCodes text) <= List.length text.
Proof.
  unfold stripAnsiCodes.
  set (l1 := remove_sequences 0 text).
  set (l2 := remove_escapes l1). set (l3 := tabs_to_spaces l2).
  set (l4 := remove_controls l3). set (l5 := collapse_spaces l4).
  pose proof (remove_sequences_length 0 text) as H1. fold l1 in H1.
  assert (H2 : List.length l2 <= List.length l1) by apply length_filter.
  assert (H3 : List.length l3 = List.length l2) by apply length_fmap.
  assert (H4 : List.length l4 <= List.length l3) by apply length_filter.
  pose proof (collapse_spaces_length l4) as H5. fold l5 in H5.
  destruct (trim_infix l5) as (a & b & H6).
  apply (f_equal List.length) in H6. rewrite !length_app in H6. lia.
Qed.

(** *** The result is clean *)

Lemma collapse_spaces_head (l : list N) : head (collapse_spaces l) = head l.
Proof.
  induction l as [|c l IH]; [reflexivity|].
  destruct l as [|c' l']; [reflexivity|].
  change (collapse_spaces (c :: c' :: l')) with
    (if (c =? SPACE)%N && (c' =? SPACE)%N then collapse_spaces (c' :: l')
     else c :: collapse_spaces (c' :: l')).
  destruct (N.eqb_spec c SPACE) as [Hc|Hc], (N.eqb_spec c' SPACE) as [Hc'|Hc'];
    try reflexivity.
  cbv beta iota delta [andb]. rewrite IH. simpl. congruence.
Qed.

Lemma collapse_spaces_single_spaced (l : list N) : single_spaced (collapse_spaces l).
Proof.
  induction l as [|c l IH]; [exact I|].
  destruct l as [|c' l']; [exact I|].
  change (collapse_spaces (c :: c' :: l')) with
    (if (c =? SPACE)%N && (c' =? SPACE)%N then collapse_spaces (c' :: l')
     else c :: collapse_spaces (c' :: l')).
  destruct ((c =? SPACE)%N && (c' =? SPACE)%N) eqn:Hsp; [exact IH|].
  pose proof (collapse_spaces_head (c' :: l')) as Hhead.
  destruct (collapse_spaces (c' :: l')) as [|x X]; [exact I|].
  simpl in Hhead. injection Hhead as ->.
  split; [|exact IH]. intros [-> ->]. discriminate.
Qed.

Lemma single_spaced_app_r (a b : list N) : single_spaced (a ++ b) -> single_spaced b.
Proof.
  induction a as [|c a IH]; [auto|]. simpl.
  destruct (a ++ b) as [|c' ab] eqn:Hab.
  - intros _. apply app_eq_nil in Hab as [_ ->]. exact I.
  - intros [_ H]. now apply IH.
Qed.

Lemma single_spaced_app_l (a b : list N) : single_spaced (a ++ b) -> single_spaced a.
Proof.
  induction a as [|c a IH]; [intros; exact I|]. simpl.
  destruct a as [|c' a']; [intros; exact I|]. simpl in *.
  intros [Hne H]. split; [exact Hne|]. now apply IH.
Qed.

Lemma trim_start_head (l : list N) (c : N) :
  head (trim_start l) = Some c -> is_white_space c = false.
Proof.
  induction l as [|x l IH]; [discriminate|]. simpl.
  destruct (is_white_space x) eqn:Hx; [exact IH|]. simpl. now intros [= <-].
Qed.

Lemma last_suffix (a b : list N) (c : N) : last b = Some c -> last (a ++ b) = Some c.
Proof.
  intros Hb. destruct b as [|x b] using rev_ind; [discriminate|].
  rewrite last_snoc in Hb. now rewrite app_assoc, last_snoc.
Qed.

Lemma trim_trimmed (l : list N) : trimmed (trim l).
Proof.
  unfold trim, trimmed. set (x := trim_start l).
  set (y := trim_start (reverse x)). split; intros c Hc.
  - rewrite head_reverse in Hc.
    destruct (trim_start_suffix (reverse x)) as (a & Ha). fold y in Ha.
    apply (last_suffix a) in Hc. rewrite <- Ha, last_reverse in Hc.
    now apply (trim_start_head l).
  - rewrite last_reverse in Hc. now apply (trim_start_head (reverse x)).
Qed.

Lemma stripAnsiCodes_clean (text : list N) : clean_text (stripAnsiCodes text).
Proof.
  unfold stripAnsiCodes.
  set (l3 := tabs_to_spaces (remove_escapes (remove_sequences 0 text))).
  set (l5 := collapse_spaces (remove_controls l3)).
  destruct (trim_infix l5) as (a & b & Hinfix).
  split; [|split].
  - apply Forall_forall. intros c Hin. apply not_control_plain.
    assert (Hin5 : c ∈ l5).
    { rewrite Hinfix, !elem_of_app. auto. }
    apply collapse_spaces_subset in Hin5.
    unfold remove_controls in Hin5. apply list_elem_of_filter in Hin5. tauto.
  - pose proof (collapse_spaces_single_spaced (remove_controls l3)) as Hs.
    fold l5 in Hs. rewrite Hinfix in Hs.
    now apply single_spaced_app_r, single_spaced_app_l in Hs.
  - apply trim_trimmed.
Qed.

(** *** Clean text is left alone *)

Lemma remove_sequences_plain (l : list N) :
  Forall (fun c => c ≠ ESC) l -> remove_sequences 0 l = l.
Proof.
  induction 1 as [|c l Hc _ IH]; [reflexivity|]. simpl.
  destruct (N.eqb_spec c ESC); [contradiction|]. now rewrite IH.
Qed.

Lemma filter_all {A} (P : A -> Prop) `{forall x, Decision (P x)} (l : list A) :
  Forall P l -> filter P l = l.
Proof.
  induction 1 as [|c l Hc _ IH]; [reflexivity|].
  rewrite filter_cons_True by exact Hc. now rewrite IH.
Qed.

Lemma tabs_to_spaces_plain (l : list N) :
  Forall (fun c => c ≠ TAB) l -> tabs_to_spaces l = l.
Proof.
  unfold tabs_to_spaces.
  induction 1 as [|c l Hc _ IH]; [reflexivity|]. rewrite fmap_cons, IH.
  now destruct (N.eqb_spec c TAB).
Qed.

Lemma collapse_spaces_plain (l : list N) : single_spaced l -> collapse_spaces l = l.
Proof.
  induction l as [|c l IH]; [reflexivity|].
  destruct l as [|c' l']; [reflexivity|].
  change (collapse_spaces (c :: c' :: l')) with
    (if (c =? SPACE)%N && (c' =? SPACE)%N then collapse_spaces (c' :: l')
     else c :: collapse_spaces (c' :: l')).
  intros [Hne Hs].
  destruct (N.eqb_spec c SPACE), (N.eqb_spec c' SPACE);
    cbv beta iota delta [andb]; try (now rewrite IH by exact Hs). tauto.
Qed.

Lemma trim_start_plain (l : list N) :
  (forall c, head l = Some c -> is_white_space c = false) -> trim_start l = l.
Proof.
  destruct l as [|c l]; [reflexivity|]. simpl. intros Hc.
  now rewrite (Hc c eq_refl).
Qed.

Lemma trim_plain (l : list N) : trimmed l -> trim l = l.
Proof.
  intros [Hh Hl]. unfold trim. rewrite (trim_start_plain l) by exact Hh.
  rewrite trim_start_plain; [apply reverse_involutive|].
  intros c. rewrite head_reverse. apply Hl.
Qed.

Lemma stripAnsiCodes_plain (l : list N) : clean_text l -> stripAnsiCodes l = l.
Proof.
  intros (Hplain & Hs & Ht). unfold stripAnsiCodes.
  rewrite remove_sequences_plain
    by (eapply Forall_impl; [exact Hplain | now intros c [Hc _]]).
  unfold remove_escapes. rewrite filter_all
    by (eapply Forall_impl; [exact Hplain | now intros c [Hc _]]).
  rewrite tabs_to_spaces_plain
    by (eapply Forall_impl; [exact Hplain | intros c [_ Hc] ->; discriminate]).
  unfold remove_controls. rewrite filter_all
    by (eapply Forall_impl; [exact Hplain | now intros c [_ Hc]]).
  rewrite collapse_spaces_plain by exact Hs. now apply trim_plain.
Qed.

(** *** Escape sequences *)

Lemma csi_classes_disjoint (c : N) : is_csi_parameter c = true -> is_ascii_letter c = false.
Proof.
  unfold is_csi_parameter, is_ascii_letter.
  destruct (N.leb_spec 48 c), (N.leb_spec c 57), (N.eqb_spec c 59),
    (N.leb_spec 65 c), (N.leb_spec c 90), (N.leb_spec 97 c), (N.leb_spec c 122);
    simpl; intros; try reflexivity; try discriminate; lia.
Qed.

Lemma csi_tail_sequence (params : list N) (final : N) (rest : list N) :
  Forall (fun c => is_csi_parameter c = true) params ->
  is_ascii_letter final = true ->
  csi_tail (params ++ final :: rest) = Some (S (List.length params)).
Proof.
  intros Hp Hf. induction Hp as [|c params Hc _ IH]; simpl.
  - now rewrite Hf.
  - rewrite (csi_classes_disjoint c Hc), Hc, IH. reflexivity.
Qed.

Lemma remove_sequences_skip (x rest : list N) :
  remove_sequences (List.length x) (x ++ rest) = remove_sequences 0 rest.
Proof. induction x as [|c x IH]; [reflexivity | exact IH]. Qed.

Lemma remove_sequences_csi (params : list N) (final : N) (rest : list N) :
  Forall (fun c => is_csi_parameter c = true) params ->
  is_ascii_letter final = true ->
  remove_sequences 0 (csi_sequence params final ++ rest) = remove_sequences 0 rest.
Proof.
  intros Hp Hf. unfold csi_sequence. simpl.
  rewrite <- app_assoc. simpl. rewrite csi_tail_sequence by assumption. simpl.
  replace (S (List.length params)) with (List.length (params ++ [final]))
    by (rewrite length_app; simpl; lia).
  replace (params ++ final :: rest) with ((params ++ [final]) ++ rest)
    by (now rewrite <- app_assoc).
  apply remove_sequences_skip.
Qed.

Lemma remove_sequences_app_plain (a rest : list N) :
  Forall (fun c => c ≠ ESC) a ->
  remove_sequences 0 (a ++ rest) = a ++ remove_sequences 0 rest.
Proof.
  induction 1 as [|c a Hc _ IH]; [reflexivity|]. simpl.
  destruct (N.eqb_spec c ESC); [contradiction|]. now rewrite IH.
Qed.

(** X8. Whatever the text, what [stripAnsiCodes] returns holds no ESC,
    no tab and no control character other than LF and CR, has no two spaces
    in a row and no white space at either end, and is not longer than the
    text. *)
Theorem stripped_text_is_clean (text : list N) :
  clean_text (stripAnsiCodes text) ∧
  List.length (stripAnsiCodes text) <= List.length text.
Proof. split; [apply stripAnsiCodes_clean | apply stripAnsiCodes_length]. Qed.

(** X9. The texts [stripAnsiCodes] returns unchanged are exactly the clean
    ones; so cleaning a second time changes nothing. *)
Theorem stripping_is_idempotent (text : list N) :
  (stripAnsiCodes text = text <-> clean_text text) ∧
  stripAnsiCodes (stripAnsiCodes text) = stripAnsiCodes text.
Proof.
  split; [split|].
  - intros <-. apply stripAnsiCodes_clean.
  - apply stripAnsiCodes_plain.
  - apply stripAnsiCodes_plain, stripAnsiCodes_clean.
Qed.

(** X10. An escape sequence -- ESC, an opening bracket, digits and
    semicolons, a letter -- that follows text without ESC is removed whole:
    the result is that of the text without the sequence. *)
Theorem escape_sequence_is_removed (before params : list N) (final : N) (rest : list N) :
  Forall (fun c => c ≠ ESC) before ->
  Forall (fun c => is_csi_parameter c = true) params ->
  is_ascii_letter final = true ->
  stripAnsiCodes (before ++ csi_sequence params final ++ rest) =
  stripAnsiCodes (before ++ rest).
Proof.
  intros Hb Hp Hf. unfold stripAnsiCodes.
  rewrite (remove_sequences_app_plain before rest) by exact Hb.
  rewrite (remove_sequences_app_plain before (csi_sequence params final ++ rest))
    by exact Hb.
  rewrite remove_sequences_csi by assumption. reflexivity.
Qed.

(** "ok " followed by the colour sequence ESC [ 3 1 m and "red". *)
Lemma escape_sequence_is_removed_witness :
  stripAnsiCodes ([111; 107; 32] ++ csi_sequence [51; 49] 109 ++ [114; 101; 100])%N =
  stripAnsiCodes ([111; 107; 32] ++ [114; 101; 100])%N.
Proof.
  apply escape_sequence_is_removed.
  - repeat constructor; discriminate.
  - repeat constructor.
  - reflexivity.
Defined.

(** * Spans the registries do not hold *)

(** The hooks close registered spans only: a span that is open and that
    neither registry holds stays so. *)
Lemma single_hooks_frame tc ev input st h :
  live (SingleTrace.st_tracer st)
       (h :: SingleTrace.sessionSpan tc :: SingleTrace.handles st) ->
  live (SingleTrace.st_tracer (SingleTrace.hooks tc ev input st).2)
       (h :: SingleTrace.sessionSpan tc ::
        SingleTrace.handles (SingleTrace.hooks tc ev input st).2).
Proof.
  intros Hlive.
  pose proof (live_fresh _ _ Hlive) as Hfresh.
  destruct ev; SingleTraceFacts.single_unfold; simpl; repeat (hook_case; simpl);
    try exact Hlive.
  all: rewrite ?length_alter.
  all: try (live_peel_all; exact Hlive).
  all: match goal with
    | |- live _ (_ :: _ :: SingleTrace.handles (SingleTrace.mkState _ (Map_set _ _ ?m) ?m')) =>
        unfold SingleTrace.handles; simpl;
        live_peel; eapply live_register; [exact Hlive | reflexivity |];
        apply (handles_set SingleTrace.span [h; SingleTrace.sessionSpan tc]
                 (SingleTrace.span <$> Map_values m'))
    | |- live _ (_ :: _ :: SingleTrace.handles (SingleTrace.mkState _ ?m (Map_set _ _ _))) =>
        unfold SingleTrace.handles; simpl;
        live_peel; eapply live_register; [exact Hlive | reflexivity |];
        apply (handles_set_last SingleTrace.span
                 (h :: SingleTrace.sessionSpan tc :: (SingleTrace.span <$> Map_values m)))
    | Hget : Map_get ?k (SingleTrace.agentSpans ?st) = Some ?s
      |- live _ (_ :: _ :: SingleTrace.handles (SingleTrace.mkState _ (Map_delete ?k _) _)) =>
        destruct Hlive as [Hnd Hall];
        assert (SingleTrace.span s ∉ h :: SingleTrace.sessionSpan tc :: SingleTrace.handles
          (SingleTrace.mkState (SingleTrace.st_tracer st)
             (Map_delete k (SingleTrace.agentSpans st)) (SingleTrace.toolSpans st)))
          by (apply (handles_delete_out SingleTrace.span [h; SingleTrace.sessionSpan tc]
                       (SingleTrace.span <$> Map_values (SingleTrace.toolSpans st)));
              assumption);
        live_peel; eapply live_sublist; [|split; eassumption];
        apply (handles_delete SingleTrace.span [h; SingleTrace.sessionSpan tc]
                 (SingleTrace.span <$> Map_values (SingleTrace.toolSpans st)))
    | Hget : Map_get ?k (SingleTrace.toolSpans ?st) = Some ?s
      |- live _ (_ :: _ :: SingleTrace.handles (SingleTrace.mkState _ _ (Map_delete ?k _))) =>
        destruct Hlive as [Hnd Hall];
        assert (SingleTrace.span s ∉ h :: SingleTrace.sessionSpan tc :: SingleTrace.handles
          (SingleTrace.mkState (SingleTrace.st_tracer st)
             (SingleTrace.agentSpans st) (Map_delete k (SingleTrace.toolSpans st))))
          by (apply (handles_delete_out_last SingleTrace.span
                       (h :: SingleTrace.sessionSpan tc ::
                        (SingleTrace.span <$> Map_values (SingleTrace.agentSpans st))));
              assumption);
        live_peel; eapply live_sublist; [|split; eassumption];
        apply (handles_delete_last SingleTrace.span
                 (h :: SingleTrace.sessionSpan tc ::
                  (SingleTrace.span <$> Map_values (SingleTrace.agentSpans st))))
    end.
Qed.

Lemma by_agent_hooks_frame tc ev input st h :
  live (ByAgent.st_tracer st) (h :: ByAgent.sessionSpan tc :: ByAgent.handles st) ->
  live (ByAgent.st_tracer (ByAgent.hooks tc ev input st).2)
       (h :: ByAgent.sessionSpan tc :: ByAgent.handles (ByAgent.hooks tc ev input st).2).
Proof.
  intros Hlive.
  pose proof (live_fresh _ _ Hlive) as Hfresh.
  destruct ev; ByAgentFacts.byagent_unfold; simpl;
    repeat (ByAgentFacts.byagent_case; simpl); try exact Hlive.
  all: rewrite ?length_alter.
  all: try (live_peel_all; exact Hlive).
  all: match goal with
    | |- live _ (_ :: _ :: ByAgent.handles (ByAgent.mkState _ (Map_set _ _ ?m) ?m' _)) =>
        unfold ByAgent.handles; simpl;
        live_peel; eapply live_register; [exact Hlive | reflexivity |];
        apply (handles_set ByAgent.at_rootSpan [h; ByAgent.sessionSpan tc]
                 (ByAgent.span <$> Map_values m'))
    | |- live _ (_ :: _ :: ByAgent.handles (ByAgent.mkState _ ?m (Map_set _ _ _) _)) =>
        unfold ByAgent.handles; simpl;
        live_peel; eapply live_register; [exact Hlive | reflexivity |];
        apply (handles_set_last ByAgent.span
                 (h :: ByAgent.sessionSpan tc :: (ByAgent.at_rootSpan <$> Map_values m)))
    | Hget : Map_get ?k (ByAgent.agentTraces ?st) = Some ?s
      |- live _ (_ :: _ :: ByAgent.handles (ByAgent.mkState _ (Map_delete ?k _) _ ?c)) =>
        destruct Hlive as [Hnd Hall];
        assert (ByAgent.at_rootSpan s ∉ h :: ByAgent.sessionSpan tc :: ByAgent.handles
          (ByAgent.mkState (ByAgent.st_tracer st)
             (Map_delete k (ByAgent.agentTraces st)) (ByAgent.toolSpans st) c))
          by (apply (handles_delete_out ByAgent.at_rootSpan [h; ByAgent.sessionSpan tc]
                       (ByAgent.span <$> Map_values (ByAgent.toolSpans st))); assumption);
        live_peel; eapply live_sublist; [|split; eassumption];
        apply (handles_delete ByAgent.at_rootSpan [h; ByAgent.sessionSpan tc]
                 (ByAgent.span <$> Map_values (ByAgent.toolSpans st)))
    | Hget : Map_get ?k (ByAgent.toolSpans ?st) = Some ?s
      |- live _ (_ :: _ :: ByAgent.handles (ByAgent.mkState _ _ (Map_delete ?k _) ?c)) =>
        destruct Hlive as [Hnd Hall];
        assert (ByAgent.span s ∉ h :: ByAgent.sessionSpan tc :: ByAgent.handles
          (ByAgent.mkState (ByAgent.st_tracer st)
             (ByAgent.agentTraces st) (Map_delete k (ByAgent.toolSpans st)) c))
          by (apply (handles_delete_out_last ByAgent.span
                       (h :: ByAgent.sessionSpan tc ::
                        (ByAgent.at_rootSpan <$> Map_values (ByAgent.agentTraces st))));
              assumption);
        live_peel; eapply live_sublist; [|split; eassumption];
        apply (handles_delete_last ByAgent.span
                 (h :: ByAgent.sessionSpan tc ::
                  (ByAgent.at_rootSpan <$> Map_values (ByAgent.agentTraces st))))
    end.
Qed.

Lemma individual_hooks_frame ev input st h :
  live (IndividualTraces.st_tracer st) (h :: IndividualTraces.handles st) ->
  live (IndividualTraces.st_tracer (IndividualTraces.hooks ev input st).2)
       (h :: IndividualTraces.handles (IndividualTraces.hooks ev input st).2).
Proof.
  intros Hlive.
  pose proof (live_fresh _ _ Hlive) as Hfresh.
  destruct ev; IndividualTracesFacts.individual_unfold; simpl;
    repeat (hook_case; simpl); try exact Hlive.
  all: rewrite ?length_alter.
  all: try (live_peel_all; exact Hlive).
  all: match goal with
    | |- live _ (_ :: IndividualTraces.handles
                        (IndividualTraces.mkState _ (Map_set _ _ ?m) ?m' _)) =>
        unfold IndividualTraces.handles; simpl;
        live_peel; eapply live_register; [exact Hlive | reflexivity |];
        apply (handles_set IndividualTraces.span [h]
                 (IndividualTraces.span <$> Map_values m'))
    | |- live _ (_ :: IndividualTraces.handles
                        (IndividualTraces.mkState _ ?m (Map_set _ _ _) _)) =>
        unfold IndividualTraces.handles; simpl;
        live_peel; eapply live_register; [exact Hlive | reflexivity |];
        apply (handles_set_last IndividualTraces.span
                 (h :: (IndividualTraces.span <$> Map_values m)))
    | Hget : Map_get ?k (IndividualTraces.agentSpans ?st) = Some ?s
      |- live _ (_ :: IndividualTraces.handles
                        (IndividualTraces.mkState _ (Map_delete ?k _) _ ?c)) =>
        destruct Hlive as [Hnd Hall];
        assert (IndividualTraces.span s ∉ h :: IndividualTraces.handles
          (IndividualTraces.mkState (IndividualTraces.st_tracer st)
             (Map_delete k (IndividualTraces.agentSpans st))
             (IndividualTraces.toolSpans st) c))
          by (apply (handles_delete_out IndividualTraces.span [h]
                       (IndividualTraces.span <$> Map_values (IndividualTraces.toolSpans st)));
              assumption);
        live_peel; eapply live_sublist; [|split; eassumption];
        apply (handles_delete IndividualTraces.span [h]
                 (IndividualTraces.span <$> Map_values (IndividualTraces.toolSpans st)))
    | Hget : Map_get ?k (IndividualTraces.toolSpans ?st) = Some ?s
      |- live _ (_ :: IndividualTraces.handles
                        (IndividualTraces.mkState _ _ (Map_delete ?k _) ?c)) =>
        destruct Hlive as [Hnd Hall];
        assert (IndividualTraces.span s ∉ h :: IndividualTraces.handles
          (IndividualTraces.mkState (IndividualTraces.st_tracer st)
             (IndividualTraces.agentSpans st)
             (Map_delete k (IndividualTraces.toolSpans st)) c))
          by (apply (handles_delete_out_last IndividualTraces.span
                       (h :: (IndividualTraces.span <$>
                              Map_values (IndividualTraces.agentSpans st))));
              assumption);
        live_peel; eapply live_sublist; [|split; eassumption];
        apply (handles_delete_last IndividualTraces.span
                 (h :: (IndividualTraces.span <$>
                        Map_values (IndividualTraces.agentSpans st))))
    end.
Qed.

Lemma single_run_frame tc events st h :
  live (SingleTrace.st_tracer st)
       (h :: SingleTrace.sessionSpan tc :: SingleTrace.handles st) ->
  live (SingleTrace.st_tracer (SingleTrace.run tc events st))
       (h :: SingleTrace.sessionSpan tc ::
        SingleTrace.handles (SingleTrace.run tc events st)).
Proof.
  unfold SingleTrace.run. revert st.
  induction events as [|e events IH]; intros st Hlive; simpl; [exact Hlive|].
  now apply IH, single_hooks_frame.
Qed.

Lemma by_agent_run_frame tc events st h :
  live (ByAgent.st_tracer st) (h :: ByAgent.sessionSpan tc :: ByAgent.handles st) ->
  live (ByAgent.st_tracer (ByAgent.run tc events st))
       (h :: ByAgent.sessionSpan tc :: ByAgent.handles (ByAgent.run tc events st)).
Proof.
  unfold ByAgent.run. revert st.
  induction events as [|e events IH]; intros st Hlive; simpl; [exact Hlive|].
  now apply IH, by_agent_hooks_frame.
Qed.

Lemma individual_run_frame events st h :
  live (IndividualTraces.st_tracer st) (h :: IndividualTraces.handles st) ->
  live (IndividualTraces.st_tracer (IndividualTraces.run events st))
       (h :: IndividualTraces.handles (IndividualTraces.run events st)).
Proof.
  unfold IndividualTraces.run. revert st.
  induction events as [|e events IH]; intros st Hlive; simpl; [exact Hlive|].
  apply IH.
  apply (individual_hooks_frame _ _ (IndividualTraces.set_clock (ev_time e) st)).
  exact Hlive.
Qed.

Lemma live_head_split (t : list SpanRecord) h hs :
  live t (h :: hs) -> is_open t h ∧ h ∉ hs.
Proof.
  intros [Hnd Hall]. apply NoDup_cons in Hnd as [Hout _].
  apply Forall_cons in Hall as [Ho _]. auto.
Qed.

Lemma single_cleanup_frame tc st h :
  live (SingleTrace.st_tracer st)
       (h :: SingleTrace.sessionSpan tc :: SingleTrace.handles st) ->
  SingleTrace.st_tracer (SingleTrace.cleanup tc st).2 !! h = SingleTrace.st_tracer st !! h.
Proof.
  intros [Ho Hout]%live_head_split.
  rewrite SingleTraceFacts.single_cleanup_eq. simpl.
  apply not_elem_of_cons in Hout as [Hne Hout]. unfold SingleTrace.handles in Hout.
  apply not_elem_of_app in Hout as [Ha Ht].
  rewrite list_lookup_alter_ne by congruence.
  now rewrite !SingleTraceFacts.single_swept_lookup_out.
Qed.

Lemma by_agent_cleanup_frame tc st h :
  live (ByAgent.st_tracer st) (h :: ByAgent.sessionSpan tc :: ByAgent.handles st) ->
  ByAgent.st_tracer (ByAgent.cleanup st).2 !! h = ByAgent.st_tracer st !! h.
Proof.
  intros [Ho Hout]%live_head_split.
  rewrite ByAgentFacts.by_agent_cleanup_eq. simpl.
  apply not_elem_of_cons in Hout as [Hne Hout]. unfold ByAgent.handles in Hout.
  apply not_elem_of_app in Hout as [Ha Ht].
  rewrite ByAgentFacts.by_agent_swept_agents_out by exact Ha.
  now rewrite ByAgentFacts.by_agent_swept_tools_out.
Qed.

Lemma individual_cleanup_frame st h :
  live (IndividualTraces.st_tracer st) (h :: IndividualTraces.handles st) ->
  IndividualTraces.st_tracer (IndividualTraces.cleanup st).2 !! h =
  IndividualTraces.st_tracer st !! h.
Proof.
  intros [Ho Hout]%live_head_split.
  rewrite IndividualTracesFacts.individual_cleanup_eq. simpl.
  unfold IndividualTraces.handles in Hout.
  apply not_elem_of_app in Hout as [Ha Ht].
  now rewrite !IndividualTracesFacts.individual_swept_lookup_out.
Qed.

Lemma is_open_lookup (t t' : list SpanRecord) h :
  t' !! h = t !! h -> is_open t h -> is_open t' h.
Proof. intros Heq (r & Hr & He). exists r. now rewrite Heq. Qed.

(** X11. A span that is open and that neither registry holds -- nor is
    the session span -- is never closed: not by any hooks the engine
    invokes afterwards, in any order and on any payload, and not by
    [cleanup]. *)
Theorem unregistered_span_is_never_closed (events : list Event) (h : Span) :
  (forall tc st,
     live (SingleTrace.st_tracer st)
          (h :: SingleTrace.sessionSpan tc :: SingleTrace.handles st) ->
     is_open (SingleTrace.st_tracer
                (SingleTrace.cleanup tc (SingleTrace.run tc events st)).2) h) ∧
  (forall tc st,
     live (ByAgent.st_tracer st) (h :: ByAgent.sessionSpan tc :: ByAgent.handles st) ->
     is_open (ByAgent.st_tracer (ByAgent.cleanup (ByAgent.run tc events st)).2) h) ∧
  (forall st,
     live (IndividualTraces.st_tracer st) (h :: IndividualTraces.handles st) ->
     is_open (IndividualTraces.st_tracer
                (IndividualTraces.cleanup (IndividualTraces.run events st)).2) h).
Proof.
  split; [|split].
  - intros tc st Hlive. apply (single_run_frame tc events) in Hlive.
    eapply is_open_lookup; [now apply single_cleanup_frame|].
    now apply live_head_split in Hlive.
  - intros tc st Hlive. apply (by_agent_run_frame tc events) in Hlive.
    eapply is_open_lookup; [now apply (by_agent_cleanup_frame tc)|].
    now apply live_head_split in Hlive.
  - intros st Hlive. apply (individual_run_frame events) in Hlive.
    eapply is_open_lookup; [now apply individual_cleanup_frame|].
    now apply live_head_split in Hlive.
Qed.

Lemma Map_set_replace {V} (k : JsVal) (v d : V) (m : list (JsVal * V)) :
  Map_get k m = Some d ->
  exists m1 m2, m = m1 ++ (k, d) :: m2 ∧ Map_set k v m = m1 ++ (k, v) :: m2.
Proof.
  induction m as [|[k' v'] m IH]; simpl; [discriminate|].
  destruct (decide (k = k')) as [->|Hne].
  - intros [= ->]. now exists [], m.
  - intros Hget. destruct (IH Hget) as (m1 & m2 & -> & ->).
    now exists ((k', v') :: m1), m2.
Qed.

(** Registering a fresh span under a key that is taken: the span the key
    held is still open, and no longer among the registered ones. *)
Lemma live_replace {V} (f : V -> nat) (P Y : list nat) (k : JsVal) (v d : V)
    (m : list (JsVal * V)) (t : list SpanRecord) (r : SpanRecord) :
  live t (P ++ (f <$> Map_values m) ++ Y) -> Map_get k m = Some d ->
  f v = List.length t -> span_ended r = [] ->
  live (t ++ [r]) (f d :: P ++ (f <$> Map_values (Map_set k v m)) ++ Y).
Proof.
  intros Hlive Hget Hv Hr.
  destruct (Map_set_replace k v d m Hget) as (m1 & m2 & Hm & Hset).
  eapply live_register; [exact Hlive | exact Hr |].
  exists (P ++ (f <$> Map_values m) ++ Y). split; [|reflexivity].
  rewrite Hset, Hm. unfold Map_values.
  rewrite !fmap_app, !fmap_cons. simpl. rewrite Hv.
  rewrite <- !app_assoc. simpl.
  rewrite !(app_assoc P). set (A := P ++ (f <$> m1.*2)).
  rewrite <- !Permutation_middle. apply perm_swap.
Qed.

Lemma live_replace_last {V} (f : V -> nat) (P : list nat) (k : JsVal) (v d : V)
    (m : list (JsVal * V)) (t : list SpanRecord) (r : SpanRecord) :
  live t (P ++ (f <$> Map_values m)) -> Map_get k m = Some d ->
  f v = List.length t -> span_ended r = [] ->
  live (t ++ [r]) (f d :: P ++ (f <$> Map_values (Map_set k v m))).
Proof.
  intros Hlive Hget Hv Hr.
  pose proof (live_replace f P [] k v d m t r) as H.
  rewrite !app_nil_r in H. now apply H.
Qed.

Lemma single_duplicate_agent tc st input d :
  SingleTrace.Inv tc st ->
  is_event input "SubagentStart" = true ->
  Map_get (agent_id input) (SingleTrace.agentSpans st) = Some d ->
  live (SingleTrace.st_tracer (SingleTrace.hooks tc SubagentStart input st).2)
       (SingleTrace.span d :: SingleTrace.sessionSpan tc ::
        SingleTrace.handles (SingleTrace.hooks tc SubagentStart input st).2).
Proof.
  intros [Hlive _] Hev Hget. SingleTraceFacts.single_unfold. rewrite Hev. simpl.
  unfold SingleTrace.handles in *. simpl. live_peel.
  apply (live_replace SingleTrace.span [SingleTrace.sessionSpan tc]
           (SingleTrace.span <$> Map_values (SingleTrace.toolSpans st)));
    [exact Hlive | exact Hget | reflexivity | reflexivity].
Qed.

Lemma by_agent_duplicate_agent tc st input d :
  ByAgent.Inv tc st ->
  is_event input "SubagentStart" = true ->
  Map_get (agent_id input) (ByAgent.agentTraces st) = Some d ->
  live (ByAgent.st_tracer (ByAgent.hooks tc SubagentStart input st).2)
       (ByAgent.at_rootSpan d :: ByAgent.sessionSpan tc ::
        ByAgent.handles (ByAgent.hooks tc SubagentStart input st).2).
Proof.
  intros Hlive Hev Hget. ByAgentFacts.byagent_unfold. rewrite Hev. simpl.
  unfold ByAgent.Inv, ByAgent.handles in *. simpl. live_peel.
  apply (live_replace ByAgent.at_rootSpan [ByAgent.sessionSpan tc]
           (ByAgent.span <$> Map_values (ByAgent.toolSpans st)));
    [exact Hlive | exact Hget | reflexivity | reflexivity].
Qed.

Lemma individual_duplicate_agent st input d :
  IndividualTraces.Inv st ->
  is_event input "SubagentStart" = true ->
  Map_get (agent_id input) (IndividualTraces.agentSpans st) = Some d ->
  live (IndividualTraces.st_tracer (IndividualTraces.hooks SubagentStart input st).2)
       (IndividualTraces.span d ::
        IndividualTraces.handles (IndividualTraces.hooks SubagentStart input st).2).
Proof.
  intros Hlive Hev Hget. IndividualTracesFacts.individual_unfold. rewrite Hev. simpl.
  unfold IndividualTraces.Inv, IndividualTraces.handles in *. simpl. live_peel.
  apply (live_replace IndividualTraces.span []
           (IndividualTraces.span <$> Map_values (IndividualTraces.toolSpans st)));
    [exact Hlive | exact Hget | reflexivity | reflexivity].
Qed.

Lemma single_duplicate_tool tc st input d :
  SingleTrace.Inv tc st ->
  is_event input "PreToolUse" = true ->
  well_formed PreToolUse input = true ->
  Map_get (tool_use_id input) (SingleTrace.toolSpans st) = Some d ->
  live (SingleTrace.st_tracer (SingleTrace.hooks tc PreToolUse input st).2)
       (SingleTrace.span d :: SingleTrace.sessionSpan tc ::
        SingleTrace.handles (SingleTrace.hooks tc PreToolUse input st).2).
Proof.
  intros [Hlive _] Hev Hwf Hget. revert Hwf. unfold well_formed, serialized.
  SingleTraceFacts.single_unfold. rewrite Hev. simpl.
  repeat (hook_case; simpl); intros Hwf; try discriminate Hwf.
  all: unfold SingleTrace.handles in *; simpl; rewrite ?length_alter; live_peel.
  all: apply (live_replace_last SingleTrace.span
           (SingleTrace.sessionSpan tc ::
            (SingleTrace.span <$> Map_values (SingleTrace.agentSpans st))));
    [exact Hlive | exact Hget | reflexivity | reflexivity].
Qed.

Lemma by_agent_duplicate_tool tc st input d :
  ByAgent.Inv tc st ->
  is_event input "PreToolUse" = true ->
  well_formed PreToolUse input = true ->
  Map_get (tool_use_id input) (ByAgent.toolSpans st) = Some d ->
  live (ByAgent.st_tracer (ByAgent.hooks tc PreToolUse input st).2)
       (ByAgent.span d :: ByAgent.sessionSpan tc ::
        ByAgent.handles (ByAgent.hooks tc PreToolUse input st).2).
Proof.
  intros Hlive Hev Hwf Hget. revert Hwf. unfold well_formed, serialized.
  ByAgentFacts.byagent_unfold. rewrite Hev. simpl.
  repeat (ByAgentFacts.byagent_case; simpl); intros Hwf; try discriminate Hwf.
  all: unfold ByAgent.Inv, ByAgent.handles in *; simpl; rewrite ?length_alter; live_peel.
  all: apply (live_replace_last ByAgent.span
           (ByAgent.sessionSpan tc ::
            (ByAgent.at_rootSpan <$> Map_values (ByAgent.agentTraces st))));
    [exact Hlive | exact Hget | reflexivity | reflexivity].
Qed.

Lemma individual_duplicate_tool st input d :
  IndividualTraces.Inv st ->
  is_event input "PreToolUse" = true ->
  well_formed PreToolUse input = true ->
  Map_get (tool_use_id input) (IndividualTraces.toolSpans st) = Some d ->
  live (IndividualTraces.st_tracer (IndividualTraces.hooks PreToolUse input st).2)
       (IndividualTraces.span d ::
        IndividualTraces.handles (IndividualTraces.hooks PreToolUse input st).2).
Proof.
  intros Hlive Hev Hwf Hget. revert Hwf. unfold well_formed, serialized.
  IndividualTracesFacts.individual_unfold. rewrite Hev. simpl.
  repeat (hook_case; simpl); intros Hwf; try discriminate Hwf.
  all: unfold IndividualTraces.Inv, IndividualTraces.handles in *; simpl;
    rewrite ?length_alter; live_peel.
  all: apply (live_replace_last IndividualTraces.span
           (IndividualTraces.span <$> Map_values (IndividualTraces.agentSpans st)));
    [exact Hlive | exact Hget | reflexivity | reflexivity].
Qed.

(** X12. A start event for an id that is already registered replaces the
    registry entry, and the span the entry held is lost: whatever hooks the
    engine invokes afterwards, that span is still open after [cleanup].
    This holds for agents, and for tools started on a well-formed payload,
    in the three modules. *)
Theorem duplicate_start_leaks_the_earlier_span (t : Tracer) (before after : list Event)
    (input : HookInput) :
  (is_event input "SubagentStart" = true ->
   (forall tc st d,
      SingleTrace.reached t before = Some (tc, st) ->
      Map_get (agent_id input) (SingleTrace.agentSpans st) = Some d ->
      is_open (SingleTrace.st_tracer
                 (SingleTrace.cleanup tc
                    (SingleTrace.run tc after
                       (SingleTrace.hooks tc SubagentStart input st).2)).2)
              (SingleTrace.span d)) ∧
   (forall tc st d,
      ByAgent.reached t before = Some (tc, st) ->
      Map_get (agent_id input) (ByAgent.agentTraces st) = Some d ->
      is_open (ByAgent.st_tracer
                 (ByAgent.cleanup
                    (ByAgent.run tc after (ByAgent.hooks tc SubagentStart input st).2)).2)
              (ByAgent.at_rootSpan d)) ∧
   (forall d,
      Map_get (agent_id input)
        (IndividualTraces.agentSpans (IndividualTraces.reached t before)) = Some d ->
      is_open (IndividualTraces.st_tracer
                 (IndividualTraces.cleanup
                    (IndividualTraces.run after
                       (IndividualTraces.hooks SubagentStart input
                          (IndividualTraces.reached t before)).2)).2)
              (IndividualTraces.span d))) ∧
  (is_event input "PreToolUse" = true -> well_formed PreToolUse input = true ->
   (forall tc st d,
      SingleTrace.reached t before = Some (tc, st) ->
      Map_get (tool_use_id input) (SingleTrace.toolSpans st) = Some d ->
      is_open (SingleTrace.st_tracer
                 (SingleTrace.cleanup tc
                    (SingleTrace.run tc after
                       (SingleTrace.hooks tc PreToolUse input st).2)).2)
              (SingleTrace.span d)) ∧
   (forall tc st d,
      ByAgent.reached t before = Some (tc, st) ->
      Map_get (tool_use_id input) (ByAgent.toolSpans st) = Some d ->
      is_open (ByAgent.st_tracer
                 (ByAgent.cleanup
                    (ByAgent.run tc after (ByAgent.hooks tc PreToolUse input st).2)).2)
              (ByAgent.span d)) ∧
   (forall d,
      Map_get (tool_use_id input)
        (IndividualTraces.toolSpans (IndividualTraces.reached t before)) = Some d ->
      is_open (IndividualTraces.st_tracer
                 (IndividualTraces.cleanup
                    (IndividualTraces.run after
                       (IndividualTraces.hooks PreToolUse input
                          (IndividualTraces.reached t before)).2)).2)
              (IndividualTraces.span d))).
Proof.
  split.
  - intros Hev. split; [|split].
    + intros tc st d Hreach%single_reached_Inv Hget.
      eapply is_open_lookup; [apply single_cleanup_frame|eapply live_head_split];
        apply single_run_frame; now apply single_duplicate_agent.
    + intros tc st d Hreach%by_agent_reached_Inv Hget.
      eapply is_open_lookup; [apply (by_agent_cleanup_frame tc)|eapply live_head_split];
        apply by_agent_run_frame; now apply by_agent_duplicate_agent.
    + intros d Hget. pose proof (individual_reached_Inv t before) as Hreach.
      eapply is_open_lookup; [apply individual_cleanup_frame|eapply live_head_split];
        apply individual_run_frame; now apply individual_duplicate_agent.
  - intros Hev Hwf. split; [|split].
    + intros tc st d Hreach%single_reached_Inv Hget.
      eapply is_open_lookup; [apply single_cleanup_frame|eapply live_head_split];
        apply single_run_frame; now apply single_duplicate_tool.
    + intros tc st d Hreach%by_agent_reached_Inv Hget.
      eapply is_open_lookup; [apply (by_agent_cleanup_frame tc)|eapply live_head_split];
        apply by_agent_run_frame; now apply by_agent_duplicate_tool.
    + intros d Hget. pose proof (individual_reached_Inv t before) as Hreach.
      eapply is_open_lookup; [apply individual_cleanup_frame|eapply live_head_split];
        apply individual_run_frame; now apply individual_duplicate_tool.
Qed.

(** Agent A1 started twice, then stopped: the span of the first start
    (handle 2) is open after [cleanup]. *)
Lemma duplicate_start_leaks_the_earlier_span_witness :
  let tc := SingleTrace.mkContext 0 (SpanContext 0) 1 (SpanContext 1) in
  let st := SingleTrace.run tc [agent_start "A1" "planner"]
              (SingleTrace.withAgentTelemetry (SingleTrace.initial [])).2 in
  is_open (SingleTrace.st_tracer
             (SingleTrace.cleanup tc
                (SingleTrace.run tc [agent_stop "A1"]
                   (SingleTrace.hooks tc SubagentStart
                      (ev_input (agent_start "A1" "planner")) st).2)).2) 2.
Proof.
  apply (proj1 (proj1 (duplicate_start_leaks_the_earlier_span []
                  [agent_start "A1" "planner"] [agent_stop "A1"]
                  (ev_input (agent_start "A1" "planner"))) eq_refl)
           (SingleTrace.mkContext 0 (SpanContext 0) 1 (SpanContext 1)) _
           (SingleTrace.mkEntry 2 (SpanContext 2)) eq_refl eq_refl).
Defined.

Lemma single_pre_tool_throws tc st input :
  SingleTrace.Inv tc st ->
  is_event input "PreToolUse" = true -> serialized (tool_input input) = None ->
  (SingleTrace.hooks tc PreToolUse input st).1 = Abrupt TypeError ∧
  live (SingleTrace.st_tracer (SingleTrace.hooks tc PreToolUse input st).2)
       (List.length (SingleTrace.st_tracer st) :: SingleTrace.sessionSpan tc ::
        SingleTrace.handles (SingleTrace.hooks tc PreToolUse input st).2).
Proof.
  intros [Hlive _] Hev Hser. revert Hser. unfold serialized.
  SingleTraceFacts.single_unfold. rewrite Hev. simpl.
  repeat (hook_case; simpl); intros Hser; try discriminate Hser.
  all: split; [reflexivity|].
  all: eapply live_register; [exact Hlive | reflexivity |].
  all: eexists; split; reflexivity.
Qed.

Lemma by_agent_pre_tool_throws tc st input :
  ByAgent.Inv tc st ->
  is_event input "PreToolUse" = true -> serialized (tool_input input) = None ->
  (ByAgent.hooks tc PreToolUse input st).1 = Abrupt TypeError ∧
  live (ByAgent.st_tracer (ByAgent.hooks tc PreToolUse input st).2)
       (List.length (ByAgent.st_tracer st) :: ByAgent.sessionSpan tc ::
        ByAgent.handles (ByAgent.hooks tc PreToolUse input st).2).
Proof.
  intros Hlive Hev Hser. revert Hser. unfold serialized.
  ByAgentFacts.byagent_unfold. rewrite Hev. simpl.
  repeat (ByAgentFacts.byagent_case; simpl); intros Hser; try discriminate Hser.
  all: split; [reflexivity|].
  all: eapply live_register; [exact Hlive | reflexivity |].
  all: eexists; split; reflexivity.
Qed.

Lemma individual_pre_tool_throws st input :
  IndividualTraces.Inv st ->
  is_event input "PreToolUse" = true -> serialized (tool_input input) = None ->
  (IndividualTraces.hooks PreToolUse input st).1 = Abrupt TypeError ∧
  live (IndividualTraces.st_tracer (IndividualTraces.hooks PreToolUse input st).2)
       (List.length (IndividualTraces.st_tracer st) ::
        IndividualTraces.handles (IndividualTraces.hooks PreToolUse input st).2).
Proof.
  intros Hlive Hev Hser. revert Hser. unfold serialized.
  IndividualTracesFacts.individual_unfold. rewrite Hev. simpl.
  repeat (hook_case; simpl); intros Hser; try discriminate Hser.
  all: split; [reflexivity|].
  all: eapply live_register; [exact Hlive | reflexivity |].
  all: eexists; split; reflexivity.
Qed.

Lemma individual_prompt_throws st input :
  IndividualTraces.Inv st ->
  is_event input "UserPromptSubmit" = true -> prompt input = JUndefined ->
  (IndividualTraces.hooks UserPromptSubmit input st).1 = Abrupt TypeError ∧
  live (IndividualTraces.st_tracer (IndividualTraces.hooks UserPromptSubmit input st).2)
       (List.length (IndividualTraces.st_tracer st) ::
        IndividualTraces.handles (IndividualTraces.hooks UserPromptSubmit input st).2).
Proof.
  intros Hlive Hev Hp.
  IndividualTracesFacts.individual_unfold. rewrite Hev, Hp. simpl.
  split; [reflexivity|].
  eapply live_register; [exact Hlive | reflexivity |].
  eexists; split; reflexivity.
Qed.

(** X13. A hook that throws after it has opened its span leaves the span
    open for good.  A tool start whose input has no serialization
    ([JSON.stringify] returns [undefined], or throws and [String] throws
    too) throws a TypeError in the three modules, and so does a prompt
    event without a prompt in the individual-traces module; the span just
    opened is not registered, and whatever hooks follow it is still open
    after [cleanup]. *)
Theorem throwing_hook_leaks_its_span (t : Tracer) (before after : list Event)
    (input : HookInput) :
  (is_event input "PreToolUse" = true -> serialized (tool_input input) = None ->
   (forall tc st,
      SingleTrace.reached t before = Some (tc, st) ->
      (SingleTrace.hooks tc PreToolUse input st).1 = Abrupt TypeError ∧
      is_open (SingleTrace.st_tracer
                 (SingleTrace.cleanup tc
                    (SingleTrace.run tc after
                       (SingleTrace.hooks tc PreToolUse input st).2)).2)
              (List.length (SingleTrace.st_tracer st))) ∧
   (forall tc st,
      ByAgent.reached t before = Some (tc, st) ->
      (ByAgent.hooks tc PreToolUse input st).1 = Abrupt TypeError ∧
      is_open (ByAgent.st_tracer
                 (ByAgent.cleanup
                    (ByAgent.run tc after (ByAgent.hooks tc PreToolUse input st).2)).2)
              (List.length (ByAgent.st_tracer st))) ∧
   (let st := IndividualTraces.reached t before in
    (IndividualTraces.hooks PreToolUse input st).1 = Abrupt TypeError ∧
    is_open (IndividualTraces.st_tracer
               (IndividualTraces.cleanup
                  (IndividualTraces.run after
                     (IndividualTraces.hooks PreToolUse input st).2)).2)
            (List.length (IndividualTraces.st_tracer st)))) ∧
  (is_event input "UserPromptSubmit" = true -> prompt input = JUndefined ->
   let st := IndividualTraces.reached t before in
   (IndividualTraces.hooks UserPromptSubmit input st).1 = Abrupt TypeError ∧
   is_open (IndividualTraces.st_tracer
              (IndividualTraces.cleanup
                 (IndividualTraces.run after
                    (IndividualTraces.hooks UserPromptSubmit input st).2)).2)
           (List.length (IndividualTraces.st_tracer st))).
Proof.
  split.
  - intros Hev Hser. split; [|split].
    + intros tc st Hreach%single_reached_Inv.
      destruct (single_pre_tool_throws tc st input Hreach Hev Hser) as [Hthrow Hlive].
      split; [exact Hthrow|].
      eapply is_open_lookup; [apply single_cleanup_frame|eapply live_head_split];
        apply single_run_frame; exact Hlive.
    + intros tc st Hreach%by_agent_reached_Inv.
      destruct (by_agent_pre_tool_throws tc st input Hreach Hev Hser) as [Hthrow Hlive].
      split; [exact Hthrow|].
      eapply is_open_lookup; [apply (by_agent_cleanup_frame tc)|eapply live_head_split];
        apply by_agent_run_frame; exact Hlive.
    + intros st. pose proof (individual_reached_Inv t before) as Hreach. fold st in Hreach.
      destruct (individual_pre_tool_throws st input Hreach Hev Hser) as [Hthrow Hlive].
      split; [exact Hthrow|].
      eapply is_open_lookup; [apply individual_cleanup_frame|eapply live_head_split];
        apply individual_run_frame; exact Hlive.
  - intros Hev Hp st. pose proof (individual_reached_Inv t before) as Hreach.
    fold st in Hreach.
    destruct (individual_prompt_throws st input Hreach Hev Hp) as [Hthrow Hlive].
    split; [exact Hthrow|].
    eapply is_open_lookup; [apply individual_cleanup_frame|eapply live_head_split];
      apply individual_run_frame; exact Hlive.
Qed.

(** A tool start with no input, as the first event of a single-trace run:
    the hook throws, and its span (handle 2) is open after [cleanup]. *)
Lemma throwing_hook_leaks_its_span_witness :
  let tc := SingleTrace.mkContext 0 (SpanContext 0) 1 (SpanContext 1) in
  let st := (SingleTrace.withAgentTelemetry (SingleTrace.initial [])).2 in
  let input := ev_input (tool_pre "U1" "Bash" JUndefined js_undefined) in
  (SingleTrace.hooks tc PreToolUse input st).1 = Abrupt TypeError ∧
  is_open (SingleTrace.st_tracer
             (SingleTrace.cleanup tc
                (SingleTrace.run tc [tool_post "U1" js_undefined]
                   (SingleTrace.hooks tc PreToolUse input st).2)).2) 2.
Proof.
  apply (proj1 (proj1 (throwing_hook_leaks_its_span [] [] [tool_post "U1" js_undefined]
                  (ev_input (tool_pre "U1" "Bash" JUndefined js_undefined)))
                eq_refl eq_refl)
           (SingleTrace.mkContext 0 (SpanContext 0) 1 (SpanContext 1)) _ eq_refl).
Defined.

(** * Marker hooks *)

Lemma alter_fresh {A} (f : A -> A) (t : list A) (x : A) :
  alter f (List.length t) (t ++ [x]) = t ++ [f x].
Proof.
  induction t as [|y t IH]; [reflexivity|].
  change (y :: alter f (List.length t) (t ++ [x]) = y :: t ++ [f x]).
  now rewrite IH.
Qed.

(** X14. Each of the seven marker hooks (session start and end,
    notification, permission request, pre-compact, stop, setup), invoked
    under its own name, appends one span to the tracer and closes it at
    once; the other spans and the registries are untouched.  In the
    single-trace and by-agent modules the span is a child of the session
    span and is closed with its status unset; in the individual-traces
    module it starts a trace of its own and is closed with status OK. *)
Theorem marker_hooks_record_a_closed_span (ev : HookEvent) (input : HookInput) :
  is_marker ev = true -> is_event input (hook_name ev) = true ->
  (forall tc st,
     let st' := (SingleTrace.hooks tc ev input st).2 in
     SingleTrace.agentSpans st' = SingleTrace.agentSpans st ∧
     SingleTrace.toolSpans st' = SingleTrace.toolSpans st ∧
     exists r, SingleTrace.st_tracer st' = SingleTrace.st_tracer st ++ [r] ∧
       span_parent r = SingleTrace.sessionSpanContext tc ∧
       span_ended r = [mkStatus UNSET None] ∧
       span_attributes r !! "hook.event_name" = Some (AttrJs (JString (hook_name ev))) ∧
       span_attributes r !! "session.id" = Some (AttrJs (session_id input))) ∧
  (forall tc st,
     let st' := (ByAgent.hooks tc ev input st).2 in
     ByAgent.agentTraces st' = ByAgent.agentTraces st ∧
     ByAgent.toolSpans st' = ByAgent.toolSpans st ∧
     ByAgent.currentAgentId st' = ByAgent.currentAgentId st ∧
     exists r, ByAgent.st_tracer st' = ByAgent.st_tracer st ++ [r] ∧
       span_parent r = ByAgent.sessionSpanContext tc ∧
       span_ended r = [mkStatus UNSET None] ∧
       span_attributes r !! "hook.event_name" = Some (AttrJs (JString (hook_name ev))) ∧
       span_attributes r !! "session.id" = Some (AttrJs (session_id input))) ∧
  (forall st,
     let st' := (IndividualTraces.hooks ev input st).2 in
     IndividualTraces.agentSpans st' = IndividualTraces.agentSpans st ∧
     IndividualTraces.toolSpans st' = IndividualTraces.toolSpans st ∧
     exists r, IndividualTraces.st_tracer st' = IndividualTraces.st_tracer st ++ [r] ∧
       span_parent r = ROOT_CONTEXT ∧
       span_ended r = [span_OK] ∧
       span_attributes r !! "hook.event_name" = None ∧
       span_attributes r !! "session.id" = Some (AttrJs (session_id input))).
Proof.
  intros Hmark Hev. split; [|split].
  - intros tc st. destruct ev; try discriminate Hmark; simpl in Hev;
      SingleTraceFacts.single_unfold; simpl; rewrite Hev; simpl;
      rewrite ?length_alter, !alter_fresh;
      (split; [reflexivity|split; [reflexivity|]]);
      eexists; (split; [reflexivity|]); simpl; auto.
  - intros tc st. destruct ev; try discriminate Hmark; simpl in Hev;
      ByAgentFacts.byagent_unfold; simpl; rewrite Hev; simpl;
      rewrite ?length_alter, !alter_fresh;
      (split; [reflexivity|split; [reflexivity|split; [reflexivity|]]]);
      eexists; (split; [reflexivity|]); simpl; auto.
  - intros st. destruct ev; try discriminate Hmark; simpl in Hev;
      IndividualTracesFacts.individual_unfold; simpl; rewrite Hev; simpl;
      rewrite ?length_alter, !alter_fresh;
      (split; [reflexivity|split; [reflexivity|]]);
      eexists; (split; [reflexivity|]); simpl; auto.
Qed.

(** A notification in the individual-traces module. *)
Lemma marker_hooks_record_a_closed_span_witness :
  let input := mkInput (JString "Notification") (JString "S1") JUndefined JUndefined
                 JUndefined JUndefined JUndefined JUndefined JUndefined JUndefined
                 js_undefined js_undefined JUndefined in
  exists r,
    IndividualTraces.st_tracer
      (IndividualTraces.hooks Notification input (IndividualTraces.initial [] 0)).2
      = [] ++ [r] ∧
    span_parent r = ROOT_CONTEXT ∧ span_ended r = [span_OK].
Proof.
  destruct (proj2 (proj2 (marker_hooks_record_a_closed_span Notification
    (mkInput (JString "Notification") (JString "S1") JUndefined JUndefined
       JUndefined JUndefined JUndefined JUndefined JUndefined JUndefined
       js_undefined js_undefined JUndefined) eq_refl eq_refl))
    (IndividualTraces.initial [] 0)) as (_ & _ & r & Hr & Hp & He & _).
  exists r. auto.
Defined.

(** * Nested agents *)

Lemma by_agent_start_keeps_others tc input st k :
  is_event input "SubagentStart" = true -> agent_id input ≠ k ->
  Map_get k (ByAgent.agentTraces (ByAgent.hooks tc SubagentStart input st).2) =
  Map_get k (ByAgent.agentTraces st).
Proof.
  intros Hev Hne. ByAgentFacts.byagent_unfold. simpl. rewrite Hev. simpl.
  now apply Map_get_set_ne.
Qed.

Lemma by_agent_stop_keeps_others tc input st k :
  agent_id input ≠ k ->
  Map_get k (ByAgent.agentTraces (ByAgent.hooks tc SubagentStop input st).2) =
  Map_get k (ByAgent.agentTraces st).
Proof.
  intros Hne. set (G := Map_get k). ByAgentFacts.byagent_unfold. simpl.
  repeat (ByAgentFacts.byagent_case; simpl); subst G; try reflexivity.
  all: now apply Map_get_delete_ne.
Qed.

Lemma single_start_registers tc input st :
  is_event input "SubagentStart" = true ->
  SingleTrace.agentSpans (SingleTrace.hooks tc SubagentStart input st).2 =
  Map_set (agent_id input)
    (SingleTrace.mkEntry (List.length (SingleTrace.st_tracer st))
       (SpanContext (List.length (SingleTrace.st_tracer st))))
    (SingleTrace.agentSpans st).
Proof.
  intros Hev. SingleTraceFacts.single_unfold. simpl. now rewrite Hev.
Qed.

Lemma single_stop_unregisters tc input st d :
  is_event input "SubagentStop" = true ->
  Map_get (agent_id input) (SingleTrace.agentSpans st) = Some d ->
  SingleTrace.agentSpans (SingleTrace.hooks tc SubagentStop input st).2 =
  Map_delete (agent_id input) (SingleTrace.agentSpans st).
Proof.
  intros Hev Hget. SingleTraceFacts.single_unfold. simpl. now rewrite Hev, Hget.
Qed.

(** X15. Agent A starts, agent B starts, agent B stops, then a tool
    starts without an agent id of its own.  In the by-agent module the
    current-agent pointer was moved to B and is cleared when B stops -- it
    does not go back to A -- so the tool span is parented under the session
    span although A is still registered.  In the single-trace module, from
    an empty agent registry, the tool span is parented under A, the agent
    registered last. *)
Theorem nested_agent_is_forgotten (iA iB iS iT : HookInput) :
  is_event iA "SubagentStart" = true ->
  is_event iB "SubagentStart" = true -> agent_id iB ≠ agent_id iA ->
  is_event iS "SubagentStop" = true -> agent_id iS = agent_id iB ->
  is_event iT "PreToolUse" = true -> agent_id iT = JUndefined ->
  (forall tc st,
     let st1 := (ByAgent.hooks tc SubagentStart iA st).2 in
     let st2 := (ByAgent.hooks tc SubagentStart iB st1).2 in
     let st3 := (ByAgent.hooks tc SubagentStop iS st2).2 in
     let st4 := (ByAgent.hooks tc PreToolUse iT st3).2 in
     exists a r,
       Map_get (agent_id iA) (ByAgent.agentTraces st3) = Some a ∧
       ByAgent.currentAgentId st3 = JUndefined ∧
       ByAgent.st_tracer st4 !! List.length (ByAgent.st_tracer st3) = Some r ∧
       span_parent r = ByAgent.sessionSpanContext tc) ∧
  (forall tc st,
     SingleTrace.agentSpans st = [] ->
     let st1 := (SingleTrace.hooks tc SubagentStart iA st).2 in
     let st2 := (SingleTrace.hooks tc SubagentStart iB st1).2 in
     let st3 := (SingleTrace.hooks tc SubagentStop iS st2).2 in
     let st4 := (SingleTrace.hooks tc PreToolUse iT st3).2 in
     exists a r,
       Map_get (agent_id iA) (SingleTrace.agentSpans st3) = Some a ∧
       SingleTrace.st_tracer st4 !! List.length (SingleTrace.st_tracer st3) = Some r ∧
       span_parent r = SingleTrace.context a).
Proof.
  intros HevA HevB Hne HevS HidS HevT HidT. split.
  - intros tc st st1 st2 st3 st4.
    destruct (by_agent_start_state tc iA st HevA) as [_ HgetA]. fold st1 in HgetA.
    destruct (by_agent_start_state tc iB st1 HevB) as [HcurB HgetB].
    fold st2 in HcurB, HgetB.
    assert (HgetA2 : Map_get (agent_id iA) (ByAgent.agentTraces st2) = Map_get (agent_id iA) (ByAgent.agentTraces st1))
      by (now apply by_agent_start_keeps_others).
    assert (HgetA3 : Map_get (agent_id iA) (ByAgent.agentTraces st3) = Map_get (agent_id iA) (ByAgent.agentTraces st2))
      by (apply by_agent_stop_keeps_others; congruence).
    assert (Hcur3 : ByAgent.currentAgentId st3 = JUndefined).
    { eapply by_agent_stop_clears_current; [exact HevS | |].
      - now rewrite HcurB, HidS.
      - rewrite HidS. exact HgetB. }
    destruct (ByAgentFacts.by_agent_tool_start_span tc iT st3 HevT) as (r & Hr & Hp & _).
    fold st4 in Hr.
    eexists _, r. split; [rewrite HgetA3, HgetA2; exact HgetA|].
    split; [exact Hcur3|]. split; [exact Hr|].
    rewrite Hp, HidT, Hcur3. reflexivity.
  - intros tc st Hnil st1 st2 st3 st4.
    pose proof (single_start_state tc iA st HevA Hnil) as Hag1. fold st1 in Hag1.
    pose proof (single_start_registers tc iB st1 HevB) as Hag2. fold st2 in Hag2.
    rewrite Hag1 in Hag2. simpl in Hag2. rewrite decide_False in Hag2 by exact Hne.
    assert (Hag3 : SingleTrace.agentSpans st3 =
                   [(agent_id iA, SingleTrace.mkEntry (List.length (SingleTrace.st_tracer st))
                                    (SpanContext (List.length (SingleTrace.st_tracer st))))]).
    { unfold st3. erewrite single_stop_unregisters; [|exact HevS|].
      - rewrite Hag2, HidS. unfold Map_delete.
        rewrite filter_cons_True by (simpl; congruence).
        rewrite filter_cons_False by (simpl; tauto). reflexivity.
      - rewrite Hag2, HidS. simpl. rewrite decide_False by exact Hne.
        now rewrite decide_True. }
    destruct (SingleTraceFacts.single_tool_start_span tc iT st3 HevT) as (r & Hr & Hp & _).
    fold st4 in Hr.
    eexists _, r. split; [|split; [exact Hr|]].
    + rewrite Hag3. simpl. now rewrite decide_True by reflexivity.
    + rewrite Hp, Hag3. reflexivity.
Qed.

(** Agents A and B, B stopped, then a tool: its span (handle 3) hangs under
    the session span (handle 0), not under A (handle 1). *)
Lemma nested_agent_is_forgotten_witness :
  let tc := ByAgent.mkContext 0 (SpanContext 0) in
  let st := ByAgent.run tc
              [agent_start "A" "planner"; agent_start "B" "coder"; agent_stop "B";
               tool_pre "T1" "Read" JUndefined (js_json "{}")]
              (ByAgent.withAgentTelemetry (ByAgent.initial [])).2 in
  exists a r,
    Map_get (JString "A") (ByAgent.agentTraces st) = Some a ∧
    ByAgent.st_tracer st !! 3 = Some r ∧ span_parent r = SpanContext 0.
Proof.
  destruct (proj1 (nested_agent_is_forgotten
              (ev_input (agent_start "A" "planner")) (ev_input (agent_start "B" "coder"))
              (ev_input (agent_stop "B"))
              (ev_input (tool_pre "T1" "Read" JUndefined (js_json "{}")))
              eq_refl eq_refl ltac:(discriminate) eq_refl eq_refl eq_refl eq_refl)
            (ByAgent.mkContext 0 (SpanContext 0))
            (ByAgent.withAgentTelemetry (ByAgent.initial [])).2)
    as (a & r & Ha & _ & Hr & Hp).
  exists a, r. split; [|split; [exact Hr | exact Hp]].
  rewrite <- Ha. reflexivity.
Defined.

(** * Durations in the individual-traces module *)






(** * The entry points *)

Lemma single_cleanup_lookup_out tc st h :
  h ≠ SingleTrace.sessionSpan tc -> h ∉ SingleTrace.handles st ->
  SingleTrace.st_tracer (SingleTrace.cleanup tc st).2 !! h = SingleTrace.st_tracer st !! h.
Proof.
  intros Hne Hout. rewrite SingleTraceFacts.single_cleanup_eq. simpl.
  unfold SingleTrace.handles in Hout. apply not_elem_of_app in Hout as [Ha Ht].
  rewrite list_lookup_alter_ne by congruence.
  now rewrite !SingleTraceFacts.single_swept_lookup_out.
Qed.


Lemma by_agent_cleanup_lookup_out st h :
  h ∉ ByAgent.handles st ->
  ByAgent.st_tracer (ByAgent.cleanup st).2 !! h = ByAgent.st_tracer st !! h.
Proof.
  intros Hout. rewrite ByAgentFacts.by_agent_cleanup_eq. simpl.
  unfold ByAgent.handles in Hout. apply not_elem_of_app in Hout as [Ha Ht].
  rewrite ByAgentFacts.by_agent_swept_agents_out by exact Ha.
  now rewrite ByAgentFacts.by_agent_swept_tools_out.
Qed.

Lemma individual_cleanup_lookup_out st h :
  h ∉ IndividualTraces.handles st ->
  IndividualTraces.st_tracer (IndividualTraces.cleanup st).2 !! h =
  IndividualTraces.st_tracer st !! h.
Proof.
  intros Hout. rewrite IndividualTracesFacts.individual_cleanup_eq. simpl.
  unfold IndividualTraces.handles in Hout. apply not_elem_of_app in Hout as [Ha Ht].
  now rewrite !IndividualTracesFacts.individual_swept_lookup_out.
Qed.






(** X18. [cleanup] on empty registries.  In the by-agent and
    individual-traces modules it changes nothing, so calling it again after
    a first call is harmless.  In the single-trace module [cleanup] closes
    the session span each time it is called: after a second call the
    session span has been closed twice. *)
Theorem cleanup_on_empty_registries :
  (forall st, ByAgent.agentTraces st = [] -> ByAgent.toolSpans st = [] ->
              ByAgent.cleanup st = (Normal tt, st)) ∧
  (forall st, IndividualTraces.agentSpans st = [] -> IndividualTraces.toolSpans st = [] ->
              IndividualTraces.cleanup st = (Normal tt, st)) ∧
  (forall tc st, SingleTrace.Inv tc st ->
     exists r,
       SingleTrace.st_tracer (SingleTrace.cleanup tc (SingleTrace.cleanup tc st).2).2
         !! SingleTrace.sessionSpan tc = Some r ∧
       span_ended r = [span_OK; span_OK]).
Proof.
  split; [|split].
  - intros [t a ts c] Ha Ht. simpl in *. subst.
    now rewrite ByAgentFacts.by_agent_cleanup_eq.
  - intros [t a ts c] Ha Ht. simpl in *. subst.
    now rewrite IndividualTracesFacts.individual_cleanup_eq.
  - intros tc st HI.
    destruct (SingleTraceFacts.single_cleanup_session tc st HI) as (r & Hr & He).
    rewrite (SingleTraceFacts.single_cleanup_eq tc (SingleTrace.cleanup tc st).2).
    rewrite SingleTraceFacts.single_cleanup_eq in *. simpl in *.
    rewrite list_lookup_alter_eq, Hr. simpl.
    eexists. split; [reflexivity|]. simpl. rewrite He. reflexivity.
Qed.

(** A single-trace run with one tool left open, cleaned up twice. *)
Lemma cleanup_on_empty_registries_witness :
  let tc := SingleTrace.mkContext 0 (SpanContext 0) 1 (SpanContext 1) in
  let st := SingleTrace.run tc [tool_pre "U1" "Bash" JUndefined (js_json "{}")]
              (SingleTrace.withAgentTelemetry (SingleTrace.initial [])).2 in
  exists r,
    SingleTrace.st_tracer (SingleTrace.cleanup tc (SingleTrace.cleanup tc st).2).2 !! 1
      = Some r ∧
    span_ended r = [span_OK; span_OK].
Proof.
  apply (proj2 (proj2 cleanup_on_empty_registries)
           (SingleTrace.mkContext 0 (SpanContext 0) 1 (SpanContext 1))).
  apply (single_reached_Inv [] [tool_pre "U1" "Bash" JUndefined (js_json "{}")]).
  reflexivity.
Defined.

(** X19. In every state the hooks can reach, the spans the registries
    hold are open and pairwise distinct, and none of them is the session
    span, which is open too: a registry never holds a span that was
    closed, and never holds a span twice. *)
Theorem registered_spans_are_open (t : Tracer) (events : list Event) :
  (forall tc st, SingleTrace.reached t events = Some (tc, st) ->
     live (SingleTrace.st_tracer st)
          (SingleTrace.sessionSpan tc :: SingleTrace.handles st)) ∧
  (forall tc st, ByAgent.reached t events = Some (tc, st) ->
     live (ByAgent.st_tracer st) (ByAgent.sessionSpan tc :: ByAgent.handles st)) ∧
  live (IndividualTraces.st_tracer (IndividualTraces.reached t events))
       (IndividualTraces.handles (IndividualTraces.reached t events)).
Proof.
  split; [|split].
  - intros tc st Hreach. now apply single_reached_Inv in Hreach as [Hlive _].
  - intros tc st Hreach. now apply by_agent_reached_Inv in Hreach.
  - apply individual_reached_Inv.
Qed.
(** ** Closed spans are left alone *)

Lemma kept_refl (t : list SpanRecord) : closed_spans_kept t t.
Proof. intros h r Hr _. exact Hr. Qed.

Lemma kept_trans (t1 t2 t3 : list SpanRecord) :
  closed_spans_kept t1 t2 -> closed_spans_kept t2 t3 -> closed_spans_kept t1 t3.
Proof. intros H12 H23 h r Hr Hc. apply H23; [now apply H12 | exact Hc]. Qed.

Lemma kept_snoc (t T : list SpanRecord) x :
  closed_spans_kept t T -> closed_spans_kept t (T ++ [x]).
Proof.
  intros HT h r Hr Hc. specialize (HT h r Hr Hc).
  rewrite lookup_app_l; [exact HT|]. eapply lookup_lt_Some, HT.
Qed.

(** Writing to a span that is open leaves the closed ones as they are. *)
Lemma kept_alter_open (t T : list SpanRecord) f h0 :
  closed_spans_kept t T -> is_open T h0 -> closed_spans_kept t (alter f h0 T).
Proof.
  intros HT (r0 & Hr0 & He0) h r Hr Hc. specialize (HT h r Hr Hc).
  destruct (decide (h0 = h)) as [->|Hne].
  - rewrite Hr0 in HT. injection HT as ->. contradiction.
  - now rewrite list_lookup_alter_ne.
Qed.

Lemma kept_sweep {E} (hd : E -> nat) g es (t T : list SpanRecord) :
  closed_spans_kept t T -> (forall e, e ∈ es -> is_open T (hd e)) ->
  closed_spans_kept t (sweep hd g es T).
Proof.
  intros HT Hopen h r Hr Hc. specialize (HT h r Hr Hc).
  rewrite sweep_lookup_out; [exact HT|].
  intros (e & -> & Hin)%list_elem_of_fmap.
  destruct (Hopen e Hin) as (r0 & Hr0 & He0).
  rewrite Hr0 in HT. injection HT as ->. contradiction.
Qed.

Ltac kept_peel :=
  rewrite ?length_alter;
  repeat first
    [ apply kept_alter_open; [|open_solve]
    | apply kept_snoc ];
  try apply kept_refl.

Lemma single_hooks_kept tc ev input st :
  SingleTrace.Inv tc st ->
  closed_spans_kept (SingleTrace.st_tracer st)
    (SingleTrace.st_tracer (SingleTrace.hooks tc ev input st).2).
Proof.
  intros HI.
  assert (Hsess : is_open (SingleTrace.st_tracer st) (SingleTrace.sessionSpan tc)).
  { destruct HI as [[_ Hall] _]. now apply Forall_cons in Hall as [Ho _]. }
  destruct ev; SingleTraceFacts.single_unfold; simpl; repeat (hook_case; simpl);
    try apply kept_refl.
  all: open_handles SingleTraceFacts.single_Inv_open SingleTraceFacts.single_tool_handle
         SingleTraceFacts.single_agent_handle HI.
  all: kept_peel.
Qed.

Lemma by_agent_hooks_kept tc ev input st :
  ByAgent.Inv tc st ->
  closed_spans_kept (ByAgent.st_tracer st)
    (ByAgent.st_tracer (ByAgent.hooks tc ev input st).2).
Proof.
  intros HI.
  pose proof (ByAgentFacts.by_agent_Inv_session_open tc st HI) as Hsess.
  destruct ev; ByAgentFacts.byagent_unfold; simpl;
    repeat (ByAgentFacts.byagent_case; simpl); try apply kept_refl.
  all: open_handles ByAgentFacts.by_agent_Inv_open ByAgentFacts.by_agent_tool_handle
         ByAgentFacts.by_agent_agent_handle HI.
  all: kept_peel.
Qed.

Lemma individual_hooks_kept ev input st :
  IndividualTraces.Inv st ->
  closed_spans_kept (IndividualTraces.st_tracer st)
    (IndividualTraces.st_tracer (IndividualTraces.hooks ev input st).2).
Proof.
  intros HI.
  destruct ev; IndividualTracesFacts.individual_unfold; simpl;
    repeat (hook_case; simpl); try apply kept_refl.
  all: repeat match goal with
  | Hget : Map_get _ _ = Some ?d |- _ =>
      first [ pose proof (IndividualTracesFacts.individual_Inv_open _ _ HI
                            (IndividualTracesFacts.individual_tool_handle _ _ _ Hget))
            | pose proof (IndividualTracesFacts.individual_Inv_open _ _ HI
                            (IndividualTracesFacts.individual_agent_handle _ _ _ Hget)) ];
      revert Hget
  end; intros.
  all: kept_peel.
Qed.

Lemma single_run_kept tc events st :
  SingleTrace.Inv tc st ->
  closed_spans_kept (SingleTrace.st_tracer st)
    (SingleTrace.st_tracer (SingleTrace.run tc events st)).
Proof.
  unfold SingleTrace.run. revert st.
  induction events as [|e events IH]; intros st HI; simpl; [apply kept_refl|].
  apply (kept_trans _ (SingleTrace.st_tracer
                         (SingleTrace.hooks tc (ev_hook e) (ev_input e) st).2));
    [now apply single_hooks_kept|].
  now apply IH, SingleTraceFacts.single_hooks_Inv.
Qed.

Lemma by_agent_run_kept tc events st :
  ByAgent.Inv tc st ->
  closed_spans_kept (ByAgent.st_tracer st) (ByAgent.st_tracer (ByAgent.run tc events st)).
Proof.
  unfold ByAgent.run. revert st.
  induction events as [|e events IH]; intros st HI; simpl; [apply kept_refl|].
  apply (kept_trans _ (ByAgent.st_tracer
                         (ByAgent.hooks tc (ev_hook e) (ev_input e) st).2));
    [now apply by_agent_hooks_kept|].
  now apply IH, ByAgentFacts.by_agent_hooks_Inv.
Qed.

Lemma individual_run_kept events st :
  IndividualTraces.Inv st ->
  closed_spans_kept (IndividualTraces.st_tracer st)
    (IndividualTraces.st_tracer (IndividualTraces.run events st)).
Proof.
  unfold IndividualTraces.run. revert st.
  induction events as [|e events IH]; intros st HI; simpl; [apply kept_refl|].
  apply (kept_trans _ (IndividualTraces.st_tracer
                         (IndividualTraces.hooks (ev_hook e) (ev_input e)
                            (IndividualTraces.set_clock (ev_time e) st)).2)).
  - apply (individual_hooks_kept _ _ (IndividualTraces.set_clock (ev_time e) st)).
    now apply IndividualTracesFacts.individual_set_clock_Inv.
  - apply IH, IndividualTracesFacts.individual_hooks_Inv.
    now apply IndividualTracesFacts.individual_set_clock_Inv.
Qed.

Lemma single_cleanup_kept tc st :
  SingleTrace.Inv tc st ->
  closed_spans_kept (SingleTrace.st_tracer st)
    (SingleTrace.st_tracer (SingleTrace.cleanup tc st).2).
Proof.
  intros HI h r Hr Hc.
  rewrite single_cleanup_lookup_out; [exact Hr| |].
  - intros ->. destruct HI as [[_ Hall] _]. apply Forall_cons in Hall as [(r0 & Hr0 & He0) _].
    rewrite Hr0 in Hr. injection Hr as ->. contradiction.
  - intros Hin. destruct (SingleTraceFacts.single_Inv_open tc st h HI Hin) as (r0 & Hr0 & He0).
    rewrite Hr0 in Hr. injection Hr as ->. contradiction.
Qed.

Lemma by_agent_cleanup_kept tc st :
  ByAgent.Inv tc st ->
  closed_spans_kept (ByAgent.st_tracer st) (ByAgent.st_tracer (ByAgent.cleanup st).2).
Proof.
  intros HI h r Hr Hc.
  rewrite by_agent_cleanup_lookup_out; [exact Hr|].
  intros Hin. destruct (ByAgentFacts.by_agent_Inv_open tc st h HI Hin) as (r0 & Hr0 & He0).
  rewrite Hr0 in Hr. injection Hr as ->. contradiction.
Qed.

Lemma individual_cleanup_kept st :
  IndividualTraces.Inv st ->
  closed_spans_kept (IndividualTraces.st_tracer st)
    (IndividualTraces.st_tracer (IndividualTraces.cleanup st).2).
Proof.
  intros HI h r Hr Hc.
  rewrite individual_cleanup_lookup_out; [exact Hr|].
  intros Hin.
  destruct (IndividualTracesFacts.individual_Inv_open st h HI Hin) as (r0 & Hr0 & He0).
  rewrite Hr0 in Hr. injection Hr as ->. contradiction.
Qed.

(** X4. The hooks and [cleanup] never write to a span that has been
    closed.  From any state the hooks can reach, whatever hooks are invoked
    next and after [cleanup], every span that was closed has the record it
    had: its attributes, status, exceptions and calls of [end()] are
    unchanged.  The only writes to an ended span are those the single-trace
    entry point makes to the root span. *)
Theorem closed_spans_are_never_written_to (t : Tracer) (before after : list Event) :
  (forall tc st, SingleTrace.reached t before = Some (tc, st) ->
     closed_spans_kept (SingleTrace.st_tracer st)
       (SingleTrace.st_tracer (SingleTrace.cleanup tc (SingleTrace.run tc after st)).2)) ∧
  (forall tc st, ByAgent.reached t before = Some (tc, st) ->
     closed_spans_kept (ByAgent.st_tracer st)
       (ByAgent.st_tracer (ByAgent.cleanup (ByAgent.run tc after st)).2)) ∧
  closed_spans_kept (IndividualTraces.st_tracer (IndividualTraces.reached t before))
    (IndividualTraces.st_tracer
       (IndividualTraces.cleanup
          (IndividualTraces.run after (IndividualTraces.reached t before))).2).
Proof.
  split; [|split].
  - intros tc st HI%single_reached_Inv.
    apply (kept_trans _ (SingleTrace.st_tracer (SingleTrace.run tc after st)));
      [now apply single_run_kept|].
    now apply single_cleanup_kept, SingleTraceFacts.single_run_Inv.
  - intros tc st HI%by_agent_reached_Inv.
    apply (kept_trans _ (ByAgent.st_tracer (ByAgent.run tc after st)));
      [now apply by_agent_run_kept|].
    now apply (by_agent_cleanup_kept tc), ByAgentFacts.by_agent_run_Inv.
  - pose proof (individual_reached_Inv t before) as HI.
    apply (kept_trans _ (IndividualTraces.st_tracer
                           (IndividualTraces.run after (IndividualTraces.reached t before))));
      [now apply individual_run_kept|].
    now apply individual_cleanup_kept, IndividualTracesFacts.individual_run_Inv.
Qed.

(** A tool that completed (handle 2), then an agent left open and a
    second completion event for the tool: the record of the tool span
    after [cleanup] is the one it had when it was closed. *)
Lemma closed_spans_are_never_written_to_witness :
  let tc := SingleTrace.mkContext 0 (SpanContext 0) 1 (SpanContext 1) in
  let st := SingleTrace.run tc
              [tool_pre "U1" "Bash" JUndefined (js_json "{}"); tool_post "U1" (js_json "1")]
              (SingleTrace.withAgentTelemetry (SingleTrace.initial [])).2 in
  closed_spans_kept (SingleTrace.st_tracer st)
    (SingleTrace.st_tracer
       (SingleTrace.cleanup tc
          (SingleTrace.run tc [agent_start "A1" "planner"; tool_post "U1" (js_json "2")]
             st)).2).
Proof.
  apply (proj1 (closed_spans_are_never_written_to []
                  [tool_pre "U1" "Bash" JUndefined (js_json "{}");
                   tool_post "U1" (js_json "1")]
                  [agent_start "A1" "planner"; tool_post "U1" (js_json "2")])
           (SingleTrace.mkContext 0 (SpanContext 0) 1 (SpanContext 1))).
  reflexivity.
Defined.

